(** * mgtoolkit: metagraphs, the triple algebra and conditional metagraphs

    A shallow embedding of [mgtoolkit/library.py] (with the tables of
    [properties.py] and the exception class of [exception.py]) and the
    properties established about it.

    Modelling conventions.
    - A Python [set] of elements is a [gset element]; [list(s)] and
      [for x in s] enumerate it as [elements s], one fixed duplicate-free
      enumeration of the set (Python's order is an artefact of hashing; the
      code only relies on it being stable for one set).
    - [Edge] and [Triple] define no [__eq__], so Python's [==], [in] and
      [list.remove] compare such objects by identity.  Every such object
      carries its identity ([Edge.id], [Triple.id]); a triple built by the
      library takes a fresh identity from an allocation counter.
    - A raised exception is a [Raise] result.  Functions that build triples
      additionally thread the allocation counter (the monad [M]).
    - [numpy.matrix(rows)] raises on a table that numpy reads as an array of
      more than two dimensions, which is the case when all its cells are
      lists of one length ([numpy_matrix]); a table of numbers passes as it
      is.  [.tolist()] gives the rows of the matrix back. *)

From stdpp Require Import gmap strings list.
From Stdlib Require Import ZArith Ascii.

Local Open Scope Z_scope.

(** ** Elements of a generating set: the tests use integers for variables and
    strings for propositions. *)

Inductive element : Type :=
| EInt (n : Z)
| EStr (s : string).

Global Instance element_eq_dec : EqDecision element.
Proof. solve_decision. Defined.

Global Instance element_countable : Countable element.
Proof.
  refine (inj_countable'
            (λ e, match e with EInt n => inl n | EStr s => inr s end)
            (λ x, match x with inl n => EInt n | inr s => EStr s end) _).
  by intros [].
Defined.

(** ** Exceptions and the two monads *)

Inductive exn : Type :=
| MetagraphException (argument message : string)
| KeyError (key : string)
| TypeError (what : string)
| AttributeError (what : string)
| ValueError (what : string)
| IndexError.

Global Instance exn_eq_dec : EqDecision exn.
Proof. solve_decision. Defined.

Inductive result (A : Type) : Type :=
| Ok (a : A)
| Raise (e : exn).
Arguments Ok {A} a.
Arguments Raise {A} e.

Global Instance result_ret : MRet result := λ A a, Ok a.
Global Instance result_bind : MBind result :=
  λ A B f r, match r with Ok a => f a | Raise e => Raise e end.

Global Instance result_eq_dec {A} `{EqDecision A} : EqDecision (result A).
Proof. solve_decision. Defined.

(** [M]: a computation that may raise and that allocates object identities. *)
Definition M (A : Type) : Type := nat → result (A * nat).

Global Instance M_ret : MRet M := λ A a s, Ok (a, s).
Global Instance M_bind : MBind M :=
  λ A B f m s, match m s with Ok (a, s') => f a s' | Raise e => Raise e end.

Definition lift {A} (r : result A) : M A :=
  λ s, match r with Ok a => Ok (a, s) | Raise e => Raise e end.

Definition throw {A} (e : exn) : M A := λ _, Raise e.

(** [id(object())]: the next unused identity. *)
Definition fresh : M nat := λ s, Ok (s, S s).

(** A [for] loop over a list with an accumulator, in either monad. *)
Fixpoint foldlM {A B} (f : A → B → result A) (a : A) (l : list B) : result A :=
  match l with
  | [] => Ok a
  | x :: l' => a' ← f a x; foldlM f a' l'
  end.

Fixpoint foldlMM {A B} (f : A → B → M A) (a : A) (l : list B) : M A :=
  match l with
  | [] => mret a
  | x :: l' => a' ← f a x; foldlMM f a' l'
  end.

Fixpoint mapMM {A B} (f : A → M B) (l : list A) : M (list B) :=
  match l with
  | [] => mret []
  | x :: l' => y ← f x; ys ← mapMM f l'; mret (y :: ys)
  end.

(** [range(n)] *)
Definition range (n : nat) : list nat := seq 0 n.

(** ** properties.py *)

Definition resources : gmap string string :=
  list_to_map
    [ ("value_null", "value cannot be null or empty");
      ("file_empty", "file is empty");
      ("folder_empty", "folder is empty");
      ("format_invalid", "provided format is invalid");
      ("not_in_generating_set", "provided values are not in generating set");
      ("value_not_found", "value not found");
      ("no_overlap", "values do not overlap");
      ("not_identical", "values are not identical");
      ("not_a_subset", "not a subset of parent set");
      ("arguments_invalid", "provided arguments are invalid");
      ("structures_incompatible", "structures are not compatible");
      ("value_out_of_bounds", "value is out of bounds") ]%string.

(** [resources[key]]: a missing key raises [KeyError]. *)
Definition resource (key : string) : result string :=
  match resources !! key with
  | Some m => Ok m
  | None => Raise (KeyError key)
  end.

(** [raise MetagraphException(argument, resources[key])]: the subscript is
    evaluated before the exception object is built. *)
Definition raise_mg {A} (argument key : string) : result A :=
  m ← resource key; Raise (MetagraphException argument m).

(** ** Nested Python lists: an item is an object or again a list. *)

#[warnings="-register-all"]
Inductive nested (A : Type) : Type :=
| Item (a : A)
| Nest (l : list (nested A)).
Arguments Item {A} a.
Arguments Nest {A} l.

(** ** Primitives *)

Module Node.
Record t : Type := mk { element_set : gset element }.

(** [Node.__init__]; the argument is a set, so the [isinstance] test passes. *)
Definition init (element_set : option (gset element)) : result t :=
  match element_set with
  | None => raise_mg "element_set" "value_null"
  | Some s =>
      if bool_decide (size s = 0%nat) then raise_mg "element_set" "value_null"
      else Ok (mk s)
  end.
End Node.

Module Edge.
Record t : Type := mk {
  id : nat;
  invertex : gset element;
  outvertex : gset element;
  attributes : option (list element);
  label : option string
}.

(** [Edge.__init__], for set-typed vertices; [id] is the identity of the
    object being initialised.  Attributes are folded into the invertex. *)
Definition init (id : nat) (invertex outvertex : option (gset element))
    (attributes : option (list element)) (label : option string) : result t :=
  match invertex with
  | None => raise_mg "invertex" "value_null"
  | Some iv =>
      if bool_decide (size iv = 0%nat) then raise_mg "invertex" "value_null" else
      match outvertex with
      | None => raise_mg "outvertex" "value_null"
      | Some ov =>
          if bool_decide (size ov = 0%nat) then raise_mg "outvertex" "value_null" else
          match attributes with
          | None => Ok (mk id iv ov None label)
          | Some attrs => Ok (mk id (iv ∪ list_to_set attrs) ov (Some attrs) label)
          end
      end
  end.
End Edge.

Module Triple.
Record t : Type := mk {
  id : nat;
  coinputs : option (gset element);
  cooutputs : option (gset element);
  edges : nested Edge.t
}.

(** [Triple.__init__]: only a missing edges component is refused. *)
Definition init (coinputs cooutputs : option (gset element))
    (edges : option (nested Edge.t)) : M t :=
  match edges with
  | None => lift (raise_mg "edges" "value_null")
  | Some es => i ← fresh; mret (mk i coinputs cooutputs es)
  end.
End Triple.

Module Metapath.
Record t : Type := mk {
  source : gset element;
  target : gset element;
  edge_list : list Edge.t
}.

Definition init (source target : option (gset element)) (edge_list : list Edge.t)
    : result t :=
  match source with
  | None => raise_mg "source" "value_null"
  | Some s =>
      if bool_decide (size s = 0%nat) then raise_mg "source" "value_null" else
      match target with
      | None => raise_mg "target" "value_null"
      | Some tg =>
          if bool_decide (size tg = 0%nat) then raise_mg "target" "value_null"
          else Ok (mk s tg edge_list)
      end
  end.

(** [Metapath.dominates] *)
Definition dominates (self : t) (metapath : option t) : result bool :=
  match metapath with
  | None => raise_mg "metapath" "value_null"
  | Some metapath =>
      Ok (bool_decide (source self ⊆ source metapath)
          && bool_decide (target metapath ⊆ target self))
  end.
End Metapath.

(** A matrix cell is [None] or a Python list whose items are triples or, after
    [add_adjacency_matrices], again lists. *)
Abbreviation cell := (option (nested Triple.t)).
Abbreviation matrix := (list (list (option (nested Triple.t)))).

(** ** Python's [==] and [in] on the objects above *)

(** [x == y] on nested lists of objects that compare by identity. *)
Fixpoint py_eq {A} (ident : A → nat) (x y : nested A) : bool :=
  match x, y with
  | Item a, Item b => bool_decide (ident a = ident b)
  | Nest l, Nest l' =>
      (fix all2 (l l' : list (nested A)) : bool :=
         match l, l' with
         | [], [] => true
         | a :: r, b :: r' => py_eq ident a b && all2 r r'
         | _, _ => false
         end) l l'
  | _, _ => false
  end.

(** [x in l] for a Python list [l]. *)
Definition py_in {A} (ident : A → nat) (x : nested A) (l : list (nested A)) : bool :=
  existsb (py_eq ident x) l.

(** [edge in edges] for a flat list of [Edge] objects. *)
Definition edge_in (edge : Edge.t) (edges : list Edge.t) : bool :=
  existsb (λ e, bool_decide (Edge.id edge = Edge.id e)) edges.

(** [triple in triples] for a flat list of [Triple] objects. *)
Definition triple_in (triple : Triple.t) (triples : list Triple.t) : bool :=
  existsb (λ t, bool_decide (Triple.id triple = Triple.id t)) triples.

(** [cell1 == cell2] and [matrix1 == matrix2] (lists of lists of cells). *)
Definition cell_eq (c1 c2 : cell) : bool :=
  match c1, c2 with
  | None, None => true
  | Some a, Some b => py_eq Triple.id a b
  | _, _ => false
  end.

Fixpoint list_eq {A} (eq : A → A → bool) (l l' : list A) : bool :=
  match l, l' with
  | [], [] => true
  | a :: r, b :: r' => eq a b && list_eq eq r r'
  | _, _ => false
  end.

Definition matrix_eq (m1 m2 : matrix) : bool := list_eq (list_eq cell_eq) m1 m2.

(** [l.remove(x)] under identity: drops the first occurrence. *)
Fixpoint remove_edge_obj (edge : Edge.t) (edges : list Edge.t) : list Edge.t :=
  match edges with
  | [] => []
  | e :: r => if bool_decide (Edge.id edge = Edge.id e) then r
              else e :: remove_edge_obj edge r
  end.

(** [l[i]] *)
Definition index {A} (l : list A) (i : nat) : result A :=
  match l !! i with
  | Some x => Ok x
  | None => Raise IndexError
  end.

(** [l.index(x)] *)
Fixpoint list_index (x : element) (l : list element) : result nat :=
  match l with
  | [] => Raise (ValueError "is not in list")
  | y :: r => if bool_decide (x = y) then Ok 0%nat
              else i ← list_index x r; Ok (S i)
  end.

(** [list(itertools.combinations(l, r))] *)
Fixpoint combinations {A} (l : list A) (r : nat) : list (list A) :=
  match r with
  | O => [[]]
  | S r' =>
      match l with
      | [] => []
      | x :: l' => map (cons x) (combinations l' r') ++ combinations l' r
      end
  end.

(** [sum(map(lambda r: list(combinations(l, r)), range(1, len(l)+1)), [])] *)
Definition all_subsets {A} (l : list A) : list (list A) :=
  concat (map (combinations l) (seq 1 (length l))).

(** ** MetagraphHelper: equality and membership *)

(** [are_edges_equal]; an argument that is a list instead of an [Edge] fails
    the [isinstance] tests. *)
Definition are_edges_equal (edge1 edge2 : nested Edge.t) : result bool :=
  match edge1, edge2 with
  | Nest _, _ => raise_mg "edge1" "format_invalid"
  | Item _, Nest _ => raise_mg "edge2" "format_invalid"
  | Item e1, Item e2 =>
      match Edge.attributes e1, Edge.attributes e2 with
      | Some a1, Some a2 =>
          Ok (bool_decide (Edge.invertex e1 = Edge.invertex e2)
              && bool_decide (Edge.outvertex e1 = Edge.outvertex e2)
              && bool_decide (list_to_set a1 =@{gset element} list_to_set a2)
              && bool_decide (Edge.label e1 = Edge.label e2))
      | _, _ =>
          Ok (bool_decide (Edge.invertex e1 = Edge.invertex e2)
              && bool_decide (Edge.outvertex e1 = Edge.outvertex e2)
              && bool_decide (Edge.label e1 = Edge.label e2))
      end
  end.

(** [is_edge_in_list]: recursive search through a nested list, stopping at
    the first hit. *)
Fixpoint is_edge_in_list (edge : nested Edge.t) (nested_edges : nested Edge.t)
    : result bool :=
  match nested_edges with
  | Nest l =>
      (fix loop (l : list (nested Edge.t)) : result bool :=
         match l with
         | [] => Ok false
         | element :: r =>
             result ← is_edge_in_list edge element;
             if result : bool then Ok true else loop r
         end) l
  | Item e => are_edges_equal edge (Item e)
  end.

Definition are_nodes_equal (node1 node2 : Node.t) : bool :=
  bool_decide (Node.element_set node1 = Node.element_set node2).

(** [is_node_in_list] on the flat node list of a metagraph. *)
Definition is_node_in_list (node : Node.t) (node_list : list Node.t) : bool :=
  existsb (are_nodes_equal node) node_list.

(** [for edge in edges] where [edges] is the edges component of a triple. *)
Definition iter_edges (edges : nested Edge.t) : result (list (nested Edge.t)) :=
  match edges with
  | Nest l => Ok l
  | Item _ => Raise (TypeError "'Edge' object is not iterable")
  end.

(** The loop [for edge in l: if not is_edge_in_list(edge, other): match = False; break]. *)
Fixpoint edges_all_in (l : list (nested Edge.t)) (other : nested Edge.t) : result bool :=
  match l with
  | [] => Ok true
  | edge :: r =>
      found ← is_edge_in_list edge other;
      if found : bool then edges_all_in r other else Ok false
  end.

Definition are_triples_equal (triple1 triple2 : Triple.t) : result bool :=
  l1 ← iter_edges (Triple.edges triple1);
  m1 ← edges_all_in l1 (Triple.edges triple2);
  l2 ← iter_edges (Triple.edges triple2);
  m2 ← edges_all_in l2 (Triple.edges triple1);
  Ok (bool_decide (Triple.coinputs triple1 = Triple.coinputs triple2)
      && bool_decide (Triple.cooutputs triple1 = Triple.cooutputs triple2)
      && bool_decide (length l1 = length l2)
      && (m1 && m2)).

Fixpoint is_triple_in_list (triple : Triple.t) (triples_list : nested Triple.t)
    : result bool :=
  match triples_list with
  | Nest l =>
      (fix loop (l : list (nested Triple.t)) : result bool :=
         match l with
         | [] => Ok false
         | element :: r =>
             result ← is_triple_in_list triple element;
             if result : bool then Ok true else loop r
         end) l
  | Item t => are_triples_equal triple t
  end.

(** ** MetagraphHelper: flattening nested lists *)

(** [get_triples]: refuses an empty list at any depth. *)
Fixpoint get_triples (nested_triples_list : nested Triple.t) : result (list Triple.t) :=
  match nested_triples_list with
  | Item _ => Raise (TypeError "object of type 'Triple' has no len()")
  | Nest [] => raise_mg "triples_list" "value_null"
  | Nest l =>
      (fix loop (l : list (nested Triple.t)) : result (list Triple.t) :=
         match l with
         | [] => Ok []
         | elt :: r =>
             temp ← match elt with
                    | Item t => Ok [t]
                    | Nest _ => get_triples elt
                    end;
             rest ← loop r;
             Ok (temp ++ rest)
         end) l
  end.

(** [if edge not in edge_list: edge_list.append(edge)] *)
Definition append_new (edge_list : list Edge.t) (edge : Edge.t) : list Edge.t :=
  if edge_in edge edge_list then edge_list else edge_list ++ [edge].

(** One item of the loop of [get_edge_list], added to the list built so far. *)
Fixpoint get_edge_list_item (element : nested Edge.t) (edge_list : list Edge.t)
    : list Edge.t :=
  match element with
  | Item e => append_new edge_list e
  | Nest l =>
      let temp :=
        (fix loop (l : list (nested Edge.t)) (acc : list Edge.t) : list Edge.t :=
           match l with
           | [] => acc
           | x :: r => loop r (get_edge_list_item x acc)
           end) l [] in
      fold_left append_new temp edge_list
  end.

Definition get_edge_list (nested_edges : list (nested Edge.t)) : list Edge.t :=
  fold_left (λ acc x, get_edge_list_item x acc) nested_edges [].

(** [if x not in result: result.append(x)] on a list of edges-or-lists. *)
Definition append_new_obj (result : list (nested Edge.t)) (x : nested Edge.t)
    : list (nested Edge.t) :=
  if py_in Edge.id x result then result else result ++ [x].

(** [get_edges_from_triple_list]: a triple yields its edges component as it
    is (an [Edge] or a list); a list yields the collected edges. *)
Fixpoint get_edges_from_triple_list (nested_triples : nested Triple.t) : nested Edge.t :=
  match nested_triples with
  | Item t => Triple.edges t
  | Nest l =>
      Nest ((fix loop (l : list (nested Triple.t)) (result : list (nested Edge.t))
               : list (nested Edge.t) :=
               match l with
               | [] => result
               | element :: r =>
                   let temp := get_edges_from_triple_list element in
                   loop r
                     match temp with
                     | Nest tl =>
                         fold_left
                           (λ res elt,
                              match elt with
                              | Item _ => append_new_obj res elt
                              | Nest l2 => fold_left append_new_obj l2 res
                              end) tl result
                     | Item _ => append_new_obj result temp
                     end
               end) l [])
  end.

(** ** MetagraphHelper: the triple algebra *)

(** [union] of two optional sets as the code writes it: start from the
    second operand, fall back to the first, unite when both are present. *)
Definition union_opt (s1 s2 : option (gset element)) : option (gset element) :=
  match s2 with
  | None => s1
  | Some b => match s1 with
              | Some a => Some (a ∪ b)
              | None => Some b
              end
  end.

(** The [truncated] list after one of the two [if ... not in truncated] steps. *)
Definition truncate_step (truncated : list (nested Edge.t)) (edges : nested Edge.t)
    : list (nested Edge.t) :=
  if py_in Edge.id edges truncated then truncated
  else match edges with
       | Item _ => truncated ++ [edges]
       | Nest l => l
       end.

Definition multiply_triples (triple1 triple2 : option Triple.t) (x_i x_j x_k : element)
    : M (option Triple.t) :=
  match triple1, triple2 with
  | Some t1, Some t2 =>
      (* compute alpha(R) *)
      let alpha_r := union_opt (Triple.coinputs t1) (Triple.coinputs t2) in
      let alpha_r :=
        match alpha_r, Triple.cooutputs t1 with
        | Some a, Some co1 => Some (a ∖ ({[x_i]} ∪ co1))
        | Some a, None => Some (a ∖ {[x_i]})
        | None, _ => None
        end in
      (* compute beta(R) *)
      let beta_r := union_opt (Triple.cooutputs t1) (Triple.cooutputs t2) in
      let beta_r :=
        match beta_r with
        | Some b => (b ∪ {[x_k]}) ∖ {[x_j]}
        | None => {[x_k]} ∖ {[x_j]}
        end in
      (* compute gamma(R) *)
      let truncated := truncate_step [] (Triple.edges t1) in
      let truncated := truncate_step truncated (Triple.edges t2) in
      t ← Triple.init alpha_r (Some beta_r) (Some (Nest truncated));
      mret (Some t)
  | _, _ => mret None
  end.

(** [for x in c] on a cell value. *)
Definition iter_triples (c : nested Triple.t) : result (list (nested Triple.t)) :=
  match c with
  | Nest l => Ok l
  | Item _ => Raise (TypeError "'Triple' object is not iterable")
  end.

(** [if not is_triple_in_list(t, result): result.append(t)] *)
Definition append_triple (result : list Triple.t) (t : Triple.t) : M (list Triple.t) :=
  found ← lift (is_triple_in_list t (Nest (Item <$> result)));
  mret (if found : bool then result else result ++ [t]).

(** [multiply_triple_lists]; an item that is a list instead of a [Triple]
    fails at the first attribute access of [multiply_triples]. *)
Definition multiply_triple_lists (triple_list1 triple_list2 : cell) (x_i x_j x_k : element)
    : M (option (list Triple.t)) :=
  match triple_list1, triple_list2 with
  | Some c1, Some c2 =>
      l1 ← lift (iter_triples c1);
      result ←
        foldlMM (λ result triple1,
          l2 ← lift (iter_triples c2);
          foldlMM (λ result triple2,
            match triple1, triple2 with
            | Item t1, Item t2 =>
                temp ← multiply_triples (Some t1) (Some t2) x_i x_j x_k;
                match temp with
                | Some t => append_triple result t
                | None => mret result
                end
            | _, _ => throw (AttributeError "'list' object has no attribute 'coinputs'")
            end) result l2) [] l1;
      mret (Some result)
  | _, _ => mret None
  end.

Definition get_null_matrix (rows cols : nat) : matrix :=
  map (λ _, map (λ _, None) (range cols)) (range rows).

(** [multiply_components]: cell [(i, j)] of a matrix product. *)
Definition multiply_components (adjacency_matrix1 adjacency_matrix2 : matrix)
    (generator_set1 : gset element) (i j size : nat) : M cell :=
  if bool_decide (base.size generator_set1 = 0%nat)
  then lift (raise_mg "generator_set1" "value_null") else
  result ←
    foldlMM (λ result k,
      row_i ← lift (index adjacency_matrix1 i);
      a_ik ← lift (index row_i k);
      row_k ← lift (index adjacency_matrix2 k);
      b_kj ← lift (index row_k j);
      x_i ← lift (index (elements generator_set1) i);
      x_j ← lift (index (elements generator_set1) j);
      x_k ← lift (index (elements generator_set1) k);
      temp ← multiply_triple_lists a_ik b_kj x_i x_j x_k;
      match temp with
      | Some l => foldlMM append_triple result l
      | None => mret result
      end) [] (range size);
  mret (if bool_decide (length result = 0%nat) then None
        else Some (Nest (Item <$> result))).

(** The double loop [for i in range(rows): for j in range(cols): m[i][j] = f i j]. *)
Definition fill_matrix (rows cols : nat) (f : nat → nat → M cell) : M matrix :=
  mapMM (λ i, mapMM (λ j, f i j) (range cols)) (range rows).

Definition multiply_adjacency_matrices (adjacency_matrix1 : matrix)
    (generator_set1 : gset element) (adjacency_matrix2 : matrix)
    (generator_set2 : gset element) : M matrix :=
  if negb (bool_decide (size (generator_set1 ∖ generator_set2) = 0%nat)
           && bool_decide (size (generator_set2 ∖ generator_set1) = 0%nat))
  then lift (raise_mg "generator_sets" "not_identical") else
  let size := size generator_set1 in
  fill_matrix size size (λ i j,
    multiply_components adjacency_matrix1 adjacency_matrix2 generator_set1 i j size).

(** ** Metagraph *)

Module Metagraph.
Record t : Type := mk {
  nodes : list Node.t;
  edges : list Edge.t;
  generating_set : gset element;
  a_star : option matrix
}.

(** [Metagraph.__init__] *)
Definition init (generator_set : option (gset element)) : result t :=
  match generator_set with
  | None => raise_mg "generator_set" "value_null"
  | Some gs =>
      if bool_decide (size gs = 0%nat) then raise_mg "generator_set" "value_null"
      else Ok (mk [] [] gs None)
  end.
End Metagraph.

(** [if not is_node_in_list(node, self.nodes): self.nodes.append(node)] *)
Definition append_node (nodes : list Node.t) (node : Node.t) : list Node.t :=
  if is_node_in_list node nodes then nodes else nodes ++ [node].

Definition add_edge (self : Metagraph.t) (edge : Edge.t) : result Metagraph.t :=
  (* add to list of nodes first *)
  node1 ← Node.init (Some (Edge.invertex edge));
  node2 ← Node.init (Some (Edge.outvertex edge));
  let nodes := append_node (append_node (Metagraph.nodes self) node1) node2 in
  (* ..then edges *)
  found ← is_edge_in_list (Item edge) (Nest (Item <$> (Metagraph.edges self)));
  let edges := if found : bool then Metagraph.edges self
               else Metagraph.edges self ++ [edge] in
  Ok (Metagraph.mk nodes edges (Metagraph.generating_set self) (Metagraph.a_star self)).

Definition remove_edge (self : Metagraph.t) (edge : Edge.t) : result Metagraph.t :=
  let edges := if edge_in edge (Metagraph.edges self)
               then remove_edge_obj edge (Metagraph.edges self)
               else Metagraph.edges self in
  Ok (Metagraph.mk (Metagraph.nodes self) edges
        (Metagraph.generating_set self) (Metagraph.a_star self)).

(** One round of the second loop of [add_edges_from]. *)
Definition add_edges_from_step (self : Metagraph.t) (edge : Edge.t) : result Metagraph.t :=
  node1 ← Node.init (Some (Edge.invertex edge));
  node2 ← Node.init (Some (Edge.outvertex edge));
  let nodes := append_node (append_node (Metagraph.nodes self) node1) node2 in
  let edges := append_new (Metagraph.edges self) edge in
  Ok (Metagraph.mk nodes edges (Metagraph.generating_set self) (Metagraph.a_star self)).

Definition add_edges_from (self : Metagraph.t) (edge_list : option (list Edge.t))
    : result Metagraph.t :=
  match edge_list with
  | None => raise_mg "edge_list" "value_null"
  | Some l =>
      if bool_decide (length l = 0%nat) then raise_mg "edge_list" "value_null"
      else foldlM add_edges_from_step self l
  end.

(** [get_edges(x_i, x_j)]: the edges with [x_i] in the invertex and [x_j] in
    the outvertex (membership of single elements). *)
Definition get_edges (self : Metagraph.t) (invertex outvertex : element) : list Edge.t :=
  fold_left (λ result edge,
    if bool_decide (invertex ∈ Edge.invertex edge)
       && bool_decide (outvertex ∈ Edge.outvertex edge)
       && negb (edge_in edge result)
    then result ++ [edge] else result) (Metagraph.edges self) [].

Definition get_coinputs (edge : Edge.t) (x_i : element) : option (gset element) :=
  if bool_decide (x_i ∈ Edge.invertex edge) then
    let coinputs := Edge.invertex edge ∖ {[x_i]} in
    if bool_decide (0 < size coinputs)%nat then Some coinputs else None
  else None.

Definition get_cooutputs (edge : Edge.t) (x_j : element) : option (gset element) :=
  if bool_decide (x_j ∈ Edge.outvertex edge) then
    let cooutputs := Edge.outvertex edge ∖ {[x_j]} in
    if bool_decide (0 < size cooutputs)%nat then Some cooutputs else None
  else None.

(** ** numpy.matrix

    [matrix(rows)] first builds an array from the table, whose rows are those
    of [get_null_matrix], all of one length.  numpy (as it was when the
    package was written: a table whose items disagree in shape gives an array
    of objects) takes the shape as far as the items agree: when every cell is
    a list and all these lists have one length, the array has three
    dimensions or more, and [matrix] raises; a cell that is [None] or a
    triple, or two lists of different lengths, stop the shape at the cells;
    a table with no row is an array of one dimension and length 0, which
    [matrix] takes as one row with no cell. *)
Definition cell_length (c : cell) : option nat :=
  match c with
  | Some (Nest l) => Some (length l)
  | _ => None
  end.

Definition one_length (cells : list cell) : bool :=
  match cells with
  | [] => false
  | c :: rest =>
      match cell_length c with
      | None => false
      | Some n => forallb (λ c', bool_decide (cell_length c' = Some n)) rest
      end
  end.

Definition numpy_matrix (rows : matrix) : result matrix :=
  match rows with
  | [] => Ok [[]]
  | _ =>
      if one_length (concat rows)
      then Raise (ValueError "matrix must be 2-dimensional")
      else Ok rows
  end.

(** The table [adj_matrix] that the loops of [adjacency_matrix] fill. *)
Definition adjacency_table (self : Metagraph.t) : M matrix :=
  let size := size (Metagraph.generating_set self) in
  fill_matrix size size (λ i j,
    x_i ← lift (index (elements (Metagraph.generating_set self)) i);
    x_j ← lift (index (elements (Metagraph.generating_set self)) j);
    let edges := get_edges self x_i x_j in
    if bool_decide (0 < length edges)%nat then
      triples_list ←
        foldlMM (λ triples_list edge,
          triple ← Triple.init (get_coinputs edge x_i) (get_cooutputs edge x_j)
                     (Some (Item edge));
          mret (if triple_in triple triples_list then triples_list
                else triples_list ++ [triple])) [] edges;
      mret (Some (Nest (Item <$> triples_list)))
    else mret None).

Definition adjacency_matrix (self : Metagraph.t) : M matrix :=
  adj_matrix ← adjacency_table self;
  lift (numpy_matrix adj_matrix).

(** [get_edges_in_matrix]: [triple[2]] subscripts the item, which a [Triple]
    does not support; only a list item of length three or more yields a value,
    and that value is a triple or a list, never an [Edge]. *)
Definition get_edges_in_matrix (adjacency_matrix : matrix) (generator_set : gset element)
    : result (list (nested Triple.t)) :=
  if bool_decide (size generator_set = 0%nat)
  then raise_mg "generator_set" "value_null" else
  let size := size generator_set in
  foldlM (λ edge_list i,
    foldlM (λ edge_list j,
      row ← index adjacency_matrix i;
      c ← index row j;
      match c with
      | None => Ok edge_list
      | Some triples_list =>
          l ← iter_triples triples_list;
          foldlM (λ edge_list triple,
            match triple with
            | Item _ => Raise (TypeError "'Triple' object does not support indexing")
            | Nest items =>
                x ← index items 2;
                Ok (if py_in Triple.id x edge_list then edge_list
                    else edge_list ++ [x])
            end) edge_list l
      end) edge_list (range size)) [] (range size).

(** [add_edge] and [add_edges_from] applied to objects that are not edges:
    the [isinstance] test refuses the first one. *)
Definition add_non_edges (self : Metagraph.t) (objs : list (nested Triple.t))
    : result Metagraph.t :=
  foldlM (λ _ _, raise_mg "edge" "format_invalid") self objs.

(** The cell-wise union of [add_adjacency_matrices] for identical generating sets. *)
Definition add_cells (c1 c2 : cell) : cell :=
  match c1, c2 with
  | None, _ => c2
  | Some _, None => c1
  | Some a, Some b => Some (Nest [a; b])
  end.

(** The cell-wise union of the other branch: the second list is appended to
    the first, item by item, skipping the objects already there. *)
Definition merge_cells (c1 c2 : cell) : result cell :=
  match c1, c2 with
  | None, _ => Ok c2
  | Some _, None => Ok c1
  | Some a, Some b =>
      lb ← iter_triples b;
      la ← iter_triples a;
      Ok (Some (Nest (fold_left (λ temp triple,
                        if py_in Triple.id triple temp then temp
                        else temp ++ [triple]) lb la)))
  end.

Definition add_adjacency_matrices (adjacency_matrix1 : matrix)
    (generator_set1 : gset element) (adjacency_matrix2 : matrix)
    (generator_set2 : gset element) : M matrix :=
  if bool_decide (size (generator_set1 ∖ generator_set2) = 0%nat)
     && bool_decide (size (generator_set2 ∖ generator_set1) = 0%nat)
  then
    (* generating sets are identical..use adjacency matrices as is *)
    let size := size generator_set1 in
    fill_matrix size size (λ i j,
      row1 ← lift (index adjacency_matrix1 i);
      c1 ← lift (index row1 j);
      row2 ← lift (index adjacency_matrix2 i);
      c2 ← lift (index row2 j);
      mret (add_cells c1 c2))
  else
    (* generating sets differ: both matrices are rebuilt over the union *)
    let combined_generating_set := generator_set1 ∪ generator_set2 in
    mg1 ← lift (Metagraph.init (Some combined_generating_set));
    edge_list1 ← lift (get_edges_in_matrix adjacency_matrix1 generator_set1);
    mg1 ← lift (add_non_edges mg1 edge_list1);
    modified_adjacency_matrix1 ← adjacency_matrix mg1;
    mg2 ← lift (Metagraph.init (Some combined_generating_set));
    edge_list2 ← lift (get_edges_in_matrix adjacency_matrix2 generator_set2);
    mg2 ← lift (add_non_edges mg2 edge_list2);
    modified_adjacency_matrix2 ← adjacency_matrix mg2;
    let size := size combined_generating_set in
    fill_matrix size size (λ i j,
      row1 ← lift (index modified_adjacency_matrix1 i);
      c1 ← lift (index row1 j);
      row2 ← lift (index modified_adjacency_matrix2 i);
      c2 ← lift (index row2 j);
      lift (merge_cells c1 c2)).

Definition add_metagraph (self metagraph2 : Metagraph.t) : result Metagraph.t :=
  if bool_decide (size (Metagraph.generating_set metagraph2) = 0%nat)
  then raise_mg "metagraph2.generating_set" "value_null" else
  (* both branches of the test on the generating sets run the same loop *)
  foldlM (λ self edge,
    if edge_in edge (Metagraph.edges self) then Ok self else add_edge self edge)
    self (Metagraph.edges metagraph2).

Definition multiply_metagraph (self metagraph2 : Metagraph.t) : M Metagraph.t :=
  let generating_set1 := Metagraph.generating_set self in
  let generating_set2 := Metagraph.generating_set metagraph2 in
  if bool_decide (size generating_set2 = 0%nat)
  then lift (raise_mg "metagraph2.generator_set" "value_null") else
  if negb (bool_decide (size (generating_set1 ∖ generating_set2) = 0%nat)
           && bool_decide (size (generating_set2 ∖ generating_set1) = 0%nat))
  then lift (raise_mg "generator_sets" "not_identical") else
  adjacency_matrix1 ← adjacency_matrix self;
  adjacency_matrix2 ← adjacency_matrix metagraph2;
  let size := size generating_set1 in
  resultant_adjacency_matrix ←
    fill_matrix size size (λ i j,
      multiply_components adjacency_matrix1 adjacency_matrix2 generating_set1 i j size);
  (* extract new edge list *)
  new_edge_list ← lift (get_edges_in_matrix resultant_adjacency_matrix generating_set1);
  (* clear current edge list and append new *)
  let self := Metagraph.mk (Metagraph.nodes self) [] (Metagraph.generating_set self)
                (Metagraph.a_star self) in
  if bool_decide (0 < length new_edge_list)%nat
  then lift (add_non_edges self new_edge_list)
  else mret self.

(** The loop of [get_closure]: [iters] is what is left of [range(size)],
    [a_i] is [a[i]]. *)
Fixpoint closure_loop (generating_set : gset element) (adjacency_matrix : matrix)
    (iters : list nat) (a_i a_star : matrix) : M matrix :=
  match iters with
  | [] => mret a_star
  | _ :: rest =>
      a_next ← multiply_adjacency_matrices a_i generating_set
                 adjacency_matrix generating_set;
      a_star ← add_adjacency_matrices a_star generating_set a_next generating_set;
      if matrix_eq a_next a_i then mret a_star
      else closure_loop generating_set adjacency_matrix rest a_next a_star
  end.

Definition get_closure (self : Metagraph.t) : M matrix :=
  adjacency_matrix ← adjacency_matrix self;
  let size := size (Metagraph.generating_set self) in
  a_star ← closure_loop (Metagraph.generating_set self) adjacency_matrix (range size)
             adjacency_matrix adjacency_matrix;
  lift (numpy_matrix a_star).

(** [incidence_matrix]: the cell is decided by [if ... elif ... else]. *)
Definition incidence_cell (x_i : element) (e_j : Edge.t) : option Z :=
  if bool_decide (x_i ∈ Edge.invertex e_j) then Some (-1)
  else if bool_decide (x_i ∈ Edge.outvertex e_j) then Some 1
  else None.

Fixpoint mapM {A B} (f : A → result B) (l : list A) : result (list B) :=
  match l with
  | [] => Ok []
  | x :: l' => y ← f x; ys ← mapM f l'; Ok (y :: ys)
  end.

Definition incidence_matrix (self : Metagraph.t) : result (list (list (option Z))) :=
  let rows := size (Metagraph.generating_set self) in
  let cols := length (Metagraph.edges self) in
  mapM (λ i,
    x_i ← index (elements (Metagraph.generating_set self)) i;
    mapM (λ j,
      e_j ← index (Metagraph.edges self) j;
      Ok (incidence_cell x_i e_j)) (range cols)) (range rows).

(** ** Metapaths *)

(** The indices in [list(generating_set)] of the elements of [s], in the
    order of [s], without repetition. *)
Definition applicable_indices (generating_set s : gset element) : result (list nat) :=
  foldlM (λ acc x,
    index ← list_index x (elements generating_set);
    Ok (if bool_decide (index ∈ acc) then acc else acc ++ [index])) [] (elements s).

(** [cumulative_output] holds target elements and co-output sets side by
    side; an element never equals a set. *)
Definition output_in (output : gset element) (l : list (element + gset element)) : bool :=
  existsb (λ o, match o with inr s => bool_decide (output = s) | inl _ => false end) l.

Definition elt_in (elt : element) (l : list (element + gset element)) : bool :=
  existsb (λ o, match o with inl x => bool_decide (elt = x) | inr _ => false end) l.

(** The body of [for x_j in target] in [get_all_metapaths_from], for row [i]. *)
Definition scan_target (generating_set : gset element) (a_star : matrix) (i : nat)
    (st : bool * list (element + gset element) * list Edge.t) (x_j : element)
    : result (bool * list (element + gset element) * list Edge.t) :=
  let '(metapath_exist, cumulative_output, cumulative_edges) := st in
  j ← list_index x_j (elements generating_set);
  row ← index a_star i;
  c ← index row j;
  match c with
  | None => Ok st
  | Some nested_triples =>
      (* x_j is already an output *)
      let cumulative_output := cumulative_output ++ [inl x_j] in
      triples ← get_triples nested_triples;
      Ok (fold_left (λ st triple,
            let '(metapath_exist, cumulative_output, cumulative_edges) := st in
            (* retain cooutputs *)
            let cumulative_output :=
              match Triple.cooutputs triple with
              | Some output =>
                  if output_in output cumulative_output then cumulative_output
                  else cumulative_output ++ [inr output]
              | None => cumulative_output
              end in
            (* ... and edges *)
            let edges :=
              match Triple.edges triple with
              | Item e => get_edge_list [Item e]
              | Nest l => get_edge_list l
              end in
            (metapath_exist, cumulative_output, fold_left append_new edges cumulative_edges))
          triples (true, cumulative_output, cumulative_edges))
  end.

(** The loop [for i in all_applicable_input_rows]; [None] is the early
    [return None]. *)
Fixpoint scan_rows (generating_set : gset element) (a_star : matrix)
    (target : gset element) (rows : list nat) (metapaths : list Edge.t)
    : result (option (list Edge.t)) :=
  match rows with
  | [] => Ok (Some metapaths)
  | i :: rest =>
      st ← foldlM (scan_target generating_set a_star i) (false, [], []) (elements target);
      let '(metapath_exist, cumulative_output, cumulative_edges) := st in
      if negb metapath_exist then Ok None else
      let is_subset := forallb (λ elt, elt_in elt cumulative_output) (elements target) in
      scan_rows generating_set a_star target rest
        (if is_subset then fold_left append_new cumulative_edges metapaths
         else metapaths)
  end.

(** The state of [is_metapath]'s scan: validated edges, inputs, outputs. *)
Definition append_elt (l : list element) (x : element) : list element :=
  if bool_decide (x ∈ l) then l else l ++ [x].

Definition validate_edge (c : nested Triple.t)
    (st : list Edge.t * list element * list element) (edge : Edge.t)
    : result (list Edge.t * list element * list element) :=
  let '(validated_edges, all_inputs, all_outputs) := st in
  items ← iter_triples c;
  validated_edges ←
    foldlM (λ validated_edges triple,
      let edges1 := get_edges_from_triple_list triple in
      found ← is_edge_in_list (Item edge) edges1;
      Ok (if (found : bool) && negb (edge_in edge validated_edges)
          then validated_edges ++ [edge] else validated_edges))
      validated_edges items;
  Ok (validated_edges,
      fold_left append_elt (elements (Edge.invertex edge)) all_inputs,
      fold_left append_elt (elements (Edge.outvertex edge)) all_outputs).

Definition is_metapath (self : Metagraph.t) (metapath_candidate : Metapath.t) : M bool :=
  a_star ← get_closure self;
  lift (
    let generating_set := Metagraph.generating_set self in
    all_applicable_input_rows ←
      applicable_indices generating_set (Metapath.source metapath_candidate);
    all_applicable_output_cols ←
      applicable_indices generating_set (Metapath.target metapath_candidate);
    st ← foldlM (λ st i,
            foldlM (λ st j,
              row ← index a_star i;
              c ← index row j;
              match c with
              | Some nested_triples =>
                  (* check simple paths *)
                  foldlM (validate_edge nested_triples) st
                    (Metapath.edge_list metapath_candidate)
              | None => Ok st
              end) st all_applicable_output_cols)
          ([], [], []) all_applicable_input_rows;
    let '(validated_edges, all_inputs, all_outputs) := st in
    if negb (forallb (λ edge, edge_in edge validated_edges)
               (Metapath.edge_list metapath_candidate))
    then Ok false
    else
      (* now check input and output sets *)
      Ok (bool_decide (list_to_set all_inputs ∖ list_to_set all_outputs
                         ⊆ Metapath.source metapath_candidate)
          && bool_decide (Metapath.target metapath_candidate
                            ⊆ list_to_set all_outputs))).

(** [get_all_metapaths_from]: returns the metapaths ([None] for the early
    [return None]) and the metagraph, whose closure cache is now filled. *)
Definition get_all_metapaths_from (self : Metagraph.t)
    (source target : option (gset element))
    : M (option (list Metapath.t) * Metagraph.t) :=
  match source, target with
  | None, _ => lift (raise_mg "source" "value_null")
  | Some src, None =>
      if bool_decide (size src = 0%nat) then lift (raise_mg "source" "value_null")
      else lift (raise_mg "target" "value_null")
  | Some src, Some tgt =>
      if bool_decide (size src = 0%nat) then lift (raise_mg "source" "value_null") else
      if bool_decide (size tgt = 0%nat) then lift (raise_mg "target" "value_null") else
      let generating_set := Metagraph.generating_set self in
      (* check subset *)
      if negb (bool_decide (src ∩ generating_set = src))
      then lift (raise_mg "source" "not_a_subset") else
      if negb (bool_decide (tgt ∩ generating_set = tgt))
      then lift (raise_mg "target" "not_a_subset") else
      (* compute A* first *)
      a_star ← match Metagraph.a_star self with
               | None => get_closure self
               | Some a => mret a
               end;
      let self := Metagraph.mk (Metagraph.nodes self) (Metagraph.edges self)
                    generating_set (Some a_star) in
      all_applicable_input_rows ← lift (applicable_indices generating_set src);
      found ← lift (scan_rows generating_set a_star tgt all_applicable_input_rows []);
      match found with
      | None => mret (None, self)
      | Some metapaths =>
          valid_metapaths ←
            foldlMM (λ valid_metapaths path,
              mp ← lift (Metapath.init (Some src) (Some tgt) path);
              ok ← is_metapath self mp;
              mret (if ok : bool then valid_metapaths ++ [mp] else valid_metapaths))
              [] (all_subsets metapaths);
          mret (Some valid_metapaths, self)
      end
  end.

(** ** Cut-sets and bridges *)

(** A Python sequence of edges passed as [edge_list]: a [list] or some other
    iterable, such as a tuple. *)
Inductive edge_seq : Type :=
| PyList (l : list Edge.t)
| PyTuple (l : list Edge.t).

Definition seq_items (s : edge_seq) : list Edge.t :=
  match s with PyList l | PyTuple l => l end.

Definition is_cutset (self : Metagraph.t) (edge_list : option edge_seq)
    (source target : option (gset element)) : M bool :=
  match edge_list, source, target with
  | None, _, _ => lift (raise_mg "edges" "value_null")
  | Some _, None, _ => lift (raise_mg "source" "value_null")
  | Some _, Some _, None => lift (raise_mg "target" "value_null")
  | Some edge_list, Some _, Some _ =>
      (* remove input edge list from original list *)
      let modified_edge_list :=
        filter (λ edge1,
          negb (existsb (λ edge2,
                  bool_decide (Edge.invertex edge1 = Edge.invertex edge2)
                  && bool_decide (Edge.outvertex edge1 = Edge.outvertex edge2))
                  (seq_items edge_list))) (Metagraph.edges self) in
      mg ← lift (Metagraph.init (Some (Metagraph.generating_set self)));
      mg ← lift (add_edges_from mg (Some modified_edge_list));
      r ← get_all_metapaths_from mg source target;
      match r.1 with
      | Some (_ :: _) => mret false
      | _ => mret true
      end
  end.

Definition is_bridge (self : Metagraph.t) (edge_list : option edge_seq)
    (source target : option (gset element)) : M bool :=
  match edge_list, source, target with
  | None, _, _ => lift (raise_mg "edge_list" "value_null")
  | Some _, None, _ => lift (raise_mg "source" "value_null")
  | Some _, Some _, None => lift (raise_mg "target" "value_null")
  | Some (PyTuple _), Some _, Some _ => lift (raise_mg "edge_list" "arguments_invalid")
  | Some (PyList _), Some _, Some _ => is_cutset self edge_list source target
  end.

(** ** Strings: the tokeniser used to validate logical expressions *)

(** [s.replace(c, new)] for a one-character [c]. *)
Fixpoint replace_char (c : ascii) (new : string) (s : string) : string :=
  match s with
  | EmptyString => EmptyString
  | String a s' =>
      if Ascii.eqb a c then new +:+ replace_char c new s'
      else String a (replace_char c new s')
  end.

(** [s.split(c)], with [cur] the token read so far. *)
Fixpoint split_from (c : ascii) (cur : string) (s : string) : list string :=
  match s with
  | EmptyString => [cur]
  | String a s' =>
      if Ascii.eqb a c then cur :: split_from c EmptyString s'
      else split_from c (cur +:+ String a EmptyString) s'
  end.

Definition split (c : ascii) (s : string) : list string := split_from c EmptyString s.

(** A [for] loop whose body may [return]: [Some v] leaves the function with
    [v]; when the loop runs out the function goes on ([None]). *)
Fixpoint for_return {A R} (body : A → result (option R)) (l : list A)
    : result (option R) :=
  match l with
  | [] => Ok None
  | x :: rest =>
      o ← body x;
      match o with
      | Some v => Ok (Some v)
      | None => for_return body rest
      end
  end.

(** ** ConditionalMetagraph *)

Module ConditionalMetagraph.
Record t : Type := mk {
  nodes : list Node.t;
  edges : list Edge.t;
  generating_set : gset element;
  a_star : option matrix;
  mg : option Metagraph.t;
  variables_set : gset element;
  propositions_set : gset element
}.

(** [ConditionalMetagraph.__init__] on two sets. *)
Definition init (variables_set propositions_set : gset element) : result t :=
  if bool_decide (0 < size (variables_set ∩ propositions_set))%nat
  then raise_mg "variables_and_propositions" "partition_invalid" else
  let generating_set := variables_set ∪ propositions_set in
  base ← Metagraph.init (Some generating_set);
  Ok (mk (Metagraph.nodes base) (Metagraph.edges base)
        (Metagraph.generating_set base) (Metagraph.a_star base)
        None variables_set propositions_set).

(** The checks of the first loop of [add_edges_from] for one edge. *)
Definition check_edge (self : t) (edge : Edge.t) : result unit :=
  if bool_decide (size (Edge.invertex edge ∪ Edge.outvertex edge) = 0%nat)
  then raise_mg "edge" "value_null" else
  (* if outvertex contains a proposition, the outvertex cannot contain any other element *)
  foldlM (λ _ proposition,
    if bool_decide (proposition ∈ Edge.outvertex edge)
       && bool_decide (1 < size (Edge.outvertex edge))%nat
    then raise_mg "edge" "value_invalid" else Ok tt)
    tt (elements (propositions_set self)).

Definition add_edges_from_step (self : t) (edge : Edge.t) : result t :=
  node1 ← Node.init (Some (Edge.invertex edge));
  node2 ← Node.init (Some (Edge.outvertex edge));
  Ok (mk (append_node (append_node (nodes self) node1) node2)
        (append_new (edges self) edge)
        (generating_set self) (a_star self) (mg self)
        (variables_set self) (propositions_set self)).

Definition add_edges_from (self : t) (edge_list : option (list Edge.t)) : result t :=
  match edge_list with
  | None => raise_mg "edge_list" "value_null"
  | Some l =>
      if bool_decide (length l = 0%nat) then raise_mg "edge_list" "value_null" else
      _ ← foldlM (λ _ edge, check_edge self edge) tt l;
      foldlM add_edges_from_step self l
  end.

(** [for proposition in props: if proposition not in self.propositions_set: raise ...] *)
Definition check_propositions (self : t) (argument : string) (props : list element)
    : result unit :=
  foldlM (λ _ proposition,
    if bool_decide (proposition ∈ propositions_set self) then Ok tt
    else raise_mg argument "range_invalid") tt props.

(** The body of [for edge in edges_copy] in [get_context].
    [edge.invertex.difference({proposition})] builds a new set and drops it:
    the edge is left as it was, so the two emptiness tests see the vertex
    that still holds the proposition. *)
Definition mark_edge (true_propositions false_propositions : list element)
    (edges_to_remove : list Edge.t) (edge : Edge.t) : list Edge.t :=
  let edges_to_remove :=
    fold_left (λ edges_to_remove proposition,
      let edges_to_remove :=
        if bool_decide (proposition ∈ Edge.invertex edge) then
          let _ := Edge.invertex edge ∖ {[proposition]} in
          (* remove if this results in an invertex that is null *)
          if bool_decide (size (Edge.invertex edge) = 0%nat)
             && negb (edge_in edge edges_to_remove)
          then edges_to_remove ++ [edge] else edges_to_remove
        else edges_to_remove in
      if bool_decide (proposition ∈ Edge.outvertex edge) then
        let _ := Edge.outvertex edge ∖ {[proposition]} in
        (* remove if this results in an outvertex that is null *)
        if bool_decide (size (Edge.outvertex edge) = 0%nat)
           && negb (edge_in edge edges_to_remove)
        then edges_to_remove ++ [edge] else edges_to_remove
      else edges_to_remove) true_propositions edges_to_remove in
  fold_left (λ edges_to_remove proposition,
    if bool_decide (proposition ∈ Edge.invertex edge)
       || bool_decide (proposition ∈ Edge.outvertex edge)
    then
      (* remove edge *)
      if negb (edge_in edge edges_to_remove) then edges_to_remove ++ [edge]
      else edges_to_remove
    else edges_to_remove) false_propositions edges_to_remove.

(** [get_context]; the two arguments are sets or lists, given by their items. *)
Definition get_context (self : t) (true_propositions false_propositions : option (list element))
    : result t :=
  match true_propositions, false_propositions with
  | None, _ => raise_mg "true_propositions" "value_null"
  | Some tp, None =>
      if bool_decide (length tp = 0%nat) then raise_mg "true_propositions" "value_null"
      else raise_mg "false_propositions" "value_null"
  | Some tp, Some fp =>
      if bool_decide (length tp = 0%nat) then raise_mg "true_propositions" "value_null" else
      if bool_decide (length fp = 0%nat) then raise_mg "false_propositions" "value_null" else
      _ ← check_propositions self "true_propositions" tp;
      _ ← check_propositions self "false_propositions" fp;
      let edges_copy := edges self in
      let edges_to_remove := fold_left (mark_edge tp fp) edges_copy [] in
      (* create new conditional metagraph describing context *)
      context ← init (variables_set self) (propositions_set self);
      let edges_copy :=
        fold_left (λ edges_copy edge,
          if edge_in edge edges_copy then remove_edge_obj edge edges_copy
          else edges_copy) edges_to_remove edges_copy in
      add_edges_from context (Some edges_copy)
  end.

(** The tokens of a logical expression: [.], [|] and [!] become blanks, [(]
    is deleted, the result of deleting [)] is dropped, and the string is
    split at blanks. *)
Definition expression_items (logical_expression : string) : list string :=
  let logical_expression_copy := logical_expression in
  let logical_expression_copy := replace_char "." " " logical_expression_copy in
  let logical_expression_copy := replace_char "|" " " logical_expression_copy in
  let logical_expression_copy := replace_char "!" " " logical_expression_copy in
  let logical_expression_copy := replace_char "(" "" logical_expression_copy in
  let _ := replace_char ")" "" logical_expression_copy in
  split " " logical_expression_copy.

(** check expressions are over X_p *)
Definition check_expressions (self : t) (logical_expressions : list string) : result unit :=
  foldlM (λ _ logical_expression,
    foldlM (λ _ item,
      let item := replace_char " " "" item in
      if negb (bool_decide (item = EmptyString))
         && negb (bool_decide (EStr item ∈ propositions_set self))
      then raise_mg "logical_expression" "arguments_invalid" else Ok tt)
      tt (expression_items logical_expression))
    tt logical_expressions.

(** The inner loop over one interpretation: the true and the false
    propositions, in order of appearance. *)
Definition split_interpretation (self : t) (interpretation : list (element * bool))
    : result (list element * list element) :=
  foldlM (λ props tuple_elt,
    let '(true_propositions, false_propositions) := props in
    if negb (bool_decide (tuple_elt.1 ∈ propositions_set self))
    then raise_mg "interpretations" "arguments_invalid" else
    if tuple_elt.2 && negb (bool_decide (tuple_elt.1 ∈ true_propositions))
    then Ok (true_propositions ++ [tuple_elt.1], false_propositions)
    else if negb (bool_decide (tuple_elt.1 ∈ true_propositions))
    then Ok (true_propositions, false_propositions ++ [tuple_elt.1])
    else Ok (true_propositions, false_propositions))
    ([], []) interpretation.

(** The edges of a context that have [x] in their outvertex. *)
Definition producers (context : t) (x : element) : list Edge.t :=
  fold_left (λ edge_list edge,
    if bool_decide (x ∈ Edge.outvertex edge) && negb (edge_in edge edge_list)
    then edge_list ++ [edge] else edge_list) (edges context) [].

(** The body of [for interpretation in interpretations] in
    [is_non_redundant]: both exits are [return] statements. *)
Definition check_interpretation (self : t) (interpretation : list (element * bool))
    : result (option bool) :=
  props ← split_interpretation self interpretation;
  (* compute context metagraph *)
  context ← get_context self (Some props.1) (Some props.2);
  if existsb (λ x, bool_decide (1 < length (producers context x))%nat)
       (elements (variables_set self))
  then Ok (Some false)
  else Ok (Some true).

(** [is_non_redundant]; [Ok None] would be Python's implicit [return None]. *)
Definition is_non_redundant (self : t) (logical_expressions : option (list string))
    (interpretations : option (list (list (element * bool)))) : result (option bool) :=
  match logical_expressions, interpretations with
  | None, _ => raise_mg "logical_expressions" "value_null"
  | Some les, None =>
      if bool_decide (length les = 0%nat) then raise_mg "logical_expressions" "value_null"
      else raise_mg "interpretations" "value_null"
  | Some les, Some ints =>
      if bool_decide (length les = 0%nat) then raise_mg "logical_expressions" "value_null" else
      if bool_decide (length ints = 0%nat) then raise_mg "interpretations" "value_null" else
      _ ← check_expressions self les;
      for_return (check_interpretation self) ints
  end.
End ConditionalMetagraph.

(** ** The closure iteration, step by step *)

(** One round of the loop of [get_closure] without its exit test: from
    the pair of [A^(n-1)] and the sum so far to the pair of [A^n] and the
    sum extended by [A^n]. *)
Definition closure_step (generating_set : gset element) (adjacency_matrix : matrix)
    (p : matrix * matrix) : M (matrix * matrix) :=
  a_next ← multiply_adjacency_matrices p.1 generating_set adjacency_matrix generating_set;
  a_star ← add_adjacency_matrices p.2 generating_set a_next generating_set;
  mret (a_next, a_star).

(** [n] rounds from [p]. *)
Fixpoint closure_iterates (generating_set : gset element) (adjacency_matrix : matrix)
    (n : nat) (p : matrix * matrix) : M (matrix * matrix) :=
  match n with
  | O => mret p
  | S n' =>
      p' ← closure_step generating_set adjacency_matrix p;
      closure_iterates generating_set adjacency_matrix n' p'
  end.

(** The exit test of the loop succeeds in round [k + 1] counted from [p]
    (allocation counter [s]): the product computed there compares equal to
    the matrix it was computed from. *)
Definition exit_test_holds (generating_set : gset element) (adjacency_matrix : matrix)
    (p : matrix * matrix) (s : nat) (k : nat) : Prop :=
  ∃ q s1 q' s2,
    closure_iterates generating_set adjacency_matrix k p s = Ok (q, s1) ∧
    closure_step generating_set adjacency_matrix q s1 = Ok (q', s2) ∧
    matrix_eq q'.1 q.1 = true.

(** Which cells of a matrix are not [None]. *)
Definition support (m : matrix) : list (list bool) :=
  map (map (λ c : cell, bool_decide (is_Some c))) m.

(** ** Concrete inputs *)

Definition ints (l : list Z) : gset element := list_to_set (EInt <$> l).
Definition props (l : list string) : list element := EStr <$> l.

(** [Edge({1}, {1})], [Edge({1}, {2})], [Edge({2}, {1})], [Edge({1}, {3})],
    [Edge({1, 2}, {2, 3})], [Edge({3}, {4})] *)
Definition edge_1_1 : Edge.t := Edge.mk 1 (ints [1]) (ints [1]) None None.
Definition edge_1_2 : Edge.t := Edge.mk 2 (ints [1]) (ints [2]) None None.
Definition edge_2_1 : Edge.t := Edge.mk 3 (ints [2]) (ints [1]) None None.
(** a second [Edge({1}, {2})], another object with the same contents *)
Definition edge_1_2_twin : Edge.t := Edge.mk 20 (ints [1]) (ints [2]) None None.
Definition edge_1_3 : Edge.t := Edge.mk 4 (ints [1]) (ints [3]) None None.
Definition edge_12_23 : Edge.t := Edge.mk 5 (ints [1; 2]) (ints [2; 3]) None None.
Definition edge_3_4 : Edge.t := Edge.mk 6 (ints [3]) (ints [4]) None None.

(** [Edge({1}, {2}, attributes=['p1'])] and [Edge({1}, {2}, attributes=['p2'])] *)
Definition edge_p1 : Edge.t :=
  Edge.mk 7 (ints [1] ∪ list_to_set (props ["p1"])) (ints [2]) (Some (props ["p1"])) None.
Definition edge_p2 : Edge.t :=
  Edge.mk 8 (ints [1] ∪ list_to_set (props ["p2"])) (ints [2]) (Some (props ["p2"])) None.

(** [Metagraph({1})] after [add_edges_from([Edge({1}, {1})])] *)
Definition mg_loop : Metagraph.t :=
  Metagraph.mk [Node.mk (ints [1])] [edge_1_1] (ints [1]) None.

(** [Metagraph({1, 2})]: empty, after [add_edges_from([Edge({1}, {2})])],
    and after [add_edges_from([Edge({1}, {2}), Edge({2}, {1})])] *)
Definition mg_12 : Metagraph.t := Metagraph.mk [] [] (ints [1; 2]) None.

Definition mg_forth : Metagraph.t :=
  Metagraph.mk [Node.mk (ints [1]); Node.mk (ints [2])] [edge_1_2] (ints [1; 2]) None.

Definition mg_cycle : Metagraph.t :=
  Metagraph.mk [Node.mk (ints [1]); Node.mk (ints [2])] [edge_1_2; edge_2_1]
    (ints [1; 2]) None.

(** [Metagraph({1, 2})] after
    [add_edges_from([Edge({1}, {2}), Edge({2}, {1, 2})])] *)
Definition edge_2_12 : Edge.t := Edge.mk 21 (ints [2]) (ints [1; 2]) None None.
Definition mg_back : Metagraph.t :=
  Metagraph.mk [Node.mk (ints [1]); Node.mk (ints [2]); Node.mk (ints [1; 2])]
    [edge_1_2; edge_2_12] (ints [1; 2]) None.

(** [ConditionalMetagraph({1, 2}, {'p1', 'p2'})] after
    [add_edges_from([Edge({1}, {2}, attributes=['p1'])])] *)
Definition cmg_one : ConditionalMetagraph.t :=
  ConditionalMetagraph.mk
    [Node.mk (Edge.invertex edge_p1); Node.mk (ints [2])] [edge_p1]
    (ints [1; 2] ∪ list_to_set (props ["p1"; "p2"])) None None
    (ints [1; 2]) (list_to_set (props ["p1"; "p2"])).

(** [ConditionalMetagraph({1, 2}, {'p1', 'p2', 'p3'})] after [add_edges_from]
    of the two conditioned edges *)
Definition cmg_two : ConditionalMetagraph.t :=
  ConditionalMetagraph.mk
    [Node.mk (Edge.invertex edge_p1); Node.mk (ints [2]); Node.mk (Edge.invertex edge_p2)]
    [edge_p1; edge_p2]
    (ints [1; 2] ∪ list_to_set (props ["p1"; "p2"; "p3"])) None None
    (ints [1; 2]) (list_to_set (props ["p1"; "p2"; "p3"])).

(** [[('p1', True), ('p2', False)]] and [[('p1', True), ('p2', True), ('p3', False)]] *)
Definition interp_one : list (element * bool) :=
  [(EStr "p1", true); (EStr "p2", false)].
Definition interp_both : list (element * bool) :=
  [(EStr "p1", true); (EStr "p2", true); (EStr "p3", false)].

(** [Triple({2}, {2}, Edge({1, 2}, {2, 3}))], the entry of the adjacency
    matrix from 1 to 3, and [Triple(None, None, Edge({3}, {4}))] *)
Definition triple_1_3 : Triple.t :=
  Triple.mk 10 (Some (ints [2])) (Some (ints [2])) (Item edge_12_23).
Definition triple_3_4 : Triple.t :=
  Triple.mk 11 None None (Item edge_3_4).

(** An argument of [get_context] that is [None] or has no items. *)
Definition absent_or_empty (o : option (list element)) : Prop :=
  o = None ∨ o = Some [].

(** The items of the edges component of a triple: a single edge counts as
    a one-item list. *)
Definition edge_items (edges : nested Edge.t) : list (nested Edge.t) :=
  match edges with
  | Item e => [Item e]
  | Nest l => l
  end.

(** The object [edge] itself is an item of [l]. *)
Definition same_object_in (edge : Edge.t) (l : list (nested Edge.t)) : bool :=
  existsb (λ x, match x with
                | Item e => bool_decide (Edge.id edge = Edge.id e)
                | Nest _ => false
                end) l.

(** [Metagraph({1, 2, 3, 4})] after
    [add_edges_from([Edge({1, 2}, {2, 3}), Edge({3}, {4})])] *)
Definition mg_chain : Metagraph.t :=
  Metagraph.mk
    [Node.mk (ints [1; 2]); Node.mk (ints [2; 3]); Node.mk (ints [3]); Node.mk (ints [4])]
    [edge_12_23; edge_3_4] (ints [1; 2; 3; 4]) None.

(** [mg_12] after the query [get_all_metapaths_from({1}, {2})]: the closure
    of the empty edge list is cached. *)
Definition mg_12_cached : Metagraph.t :=
  Metagraph.mk [] [] (ints [1; 2]) (Some [[None; None]; [None; None]]).

(** ** Shapes of the values that flow through the closure *)

Definition is_item {A} (x : nested A) : Prop := ∃ a, x = Item a.

(** A flat list of edges, as [multiply_triples] builds it. *)
Definition product_edges (edges : nested Edge.t) : Prop :=
  ∃ l, edges = Nest l ∧ Forall is_item l.

(** A single edge, as in an adjacency matrix, or a flat list of edges. *)
Definition plain_edges (edges : nested Edge.t) : Prop :=
  is_item edges ∨ product_edges edges.

(** Triples by the shape of their edges component. *)
Definition product_triple (t : Triple.t) : Prop := product_edges (Triple.edges t).
Definition plain_triple (t : Triple.t) : Prop := plain_edges (Triple.edges t).

(** A cell that is [None] or a flat list of triples that satisfy [P]. *)
Definition flat_cell (P : Triple.t → Prop) (c : cell) : Prop :=
  match c with
  | None => True
  | Some x => ∃ l, x = Nest l ∧ Forall (λ y, ∃ t, y = Item t ∧ P t) l
  end.

(** An [n] by [n] table whose cells satisfy [P]. *)
Definition square (n : nat) (P : cell → Prop) (m : matrix) : Prop :=
  length m = n ∧ Forall (λ row, length row = n ∧ Forall P row) m.

(** What a matrix holds, identities set aside: per cell the coinputs,
    cooutputs and edge identities of its triples. *)
Definition triple_summary (t : Triple.t)
    : option (gset element) * option (gset element) * list nat :=
  (Triple.coinputs t, Triple.cooutputs t,
   Edge.id <$> get_edge_list (edge_items (Triple.edges t))).

Definition summary (m : matrix)
    : list (list (option (list (option (gset element) * option (gset element) * list nat)))) :=
  map (map (λ c : cell,
         match c with
         | None => None
         | Some x => match get_triples x with
                     | Ok ts => Some (triple_summary <$> ts)
                     | Raise _ => None
                     end
         end)) m.

(** [Metagraph({1, 2})] after [add_edges_from([Edge({1}, {1})])] *)
Definition mg_self : Metagraph.t :=
  Metagraph.mk [Node.mk (ints [1])] [edge_1_1] (ints [1; 2]) None.

(** The metagraphs of the unit tests: [mg1] and [cmg1] of [setUp]. *)
Definition test_edge (id : nat) (invertex outvertex : list Z) : Edge.t :=
  Edge.mk id (ints invertex) (ints outvertex) None None.

Definition test_mg1 : result Metagraph.t :=
  mg ← Metagraph.init (Some (ints [1; 2; 3; 4; 5; 6; 7]));
  add_edges_from mg
    (Some [test_edge 1 [1] [2; 3]; test_edge 2 [1; 4] [5]; test_edge 3 [3] [6; 7]]).

Definition test_cmg1 : result ConditionalMetagraph.t :=
  cmg ← ConditionalMetagraph.init (ints [1; 2; 3; 4; 5; 6; 7])
          (list_to_set (props ["p1"; "p2"]));
  e1 ← Edge.init 1 (Some (ints [1; 2])) (Some (ints [3; 4])) (Some (props ["p1"])) None;
  e2 ← Edge.init 2 (Some (ints [2])) (Some (ints [4; 6])) (Some (props ["p2"])) None;
  e3 ← Edge.init 3 (Some (ints [3; 4])) (Some (ints [5])) (Some (props ["p1"; "p2"])) None;
  e4 ← Edge.init 4 (Some (ints [4; 6])) (Some (ints [5; 7])) (Some (props ["p1"])) None;
  ConditionalMetagraph.add_edges_from cmg (Some [e1; e2; e3; e4]).

(** ** Metagraph: nodes *)

Definition add_node (self : Metagraph.t) (node : Node.t) : result Metagraph.t :=
  (* each element in node must be in the generating set *)
  let not_found :=
    (λ element, negb (bool_decide (element ∈ Metagraph.generating_set self)))
      <$> elements (Node.element_set node) in
  if bool_decide (true ∈ not_found) then raise_mg "node" "range_invalid" else
  Ok (Metagraph.mk (append_node (Metagraph.nodes self) node) (Metagraph.edges self)
        (Metagraph.generating_set self) (Metagraph.a_star self)).

Definition add_nodes_from (self : Metagraph.t) (nodes_list : option (list Node.t))
    : result Metagraph.t :=
  match nodes_list with
  | None => raise_mg "nodes_list" "value_null"
  | Some l =>
      if bool_decide (length l = 0%nat) then raise_mg "nodes_list" "value_null" else
      Ok (Metagraph.mk (fold_left append_node l (Metagraph.nodes self))
            (Metagraph.edges self) (Metagraph.generating_set self)
            (Metagraph.a_star self))
  end.

(** What [remove_nodes_from] may find in its list: a [Node], or a [set]. *)
Inductive node_obj : Type :=
| PyNode (n : Node.t)
| PySet (s : gset element).

(** [are_nodes_equal] and [is_node_in_list] with such an object as first
    argument: a set fails the [isinstance(node1, Node)] test. *)
Definition are_nodes_equal_obj (node1 : node_obj) (node2 : Node.t) : result bool :=
  match node1 with
  | PyNode n => Ok (are_nodes_equal n node2)
  | PySet _ => raise_mg "node1" "format_invalid"
  end.

Fixpoint is_node_in_list_obj (node : node_obj) (node_list : list Node.t) : result bool :=
  match node_list with
  | [] => Ok false
  | element :: r =>
      result ← are_nodes_equal_obj node element;
      if result : bool then Ok true else is_node_in_list_obj node r
  end.

(** [remove_nodes_from]: the first loop wants sets, the membership test
    wants nodes.  In the second loop [self.nodes.remove] is given a set,
    which equals no [Node] of the list. *)
Definition remove_nodes_from (self : Metagraph.t) (nodes_list : option (list node_obj))
    : result Metagraph.t :=
  match nodes_list with
  | None => raise_mg "nodes_list" "value_null"
  | Some l =>
      if bool_decide (length l = 0%nat) then raise_mg "nodes_list" "value_null" else
      _ ← foldlM (λ _ node,
             match node with
             | PyNode _ => raise_mg "nodes_list" "format_invalid"
             | PySet _ =>
                 found ← is_node_in_list_obj node (Metagraph.nodes self);
                 if found : bool then Ok tt
                 else raise_mg "nodes_list" "value_not_found"
             end) tt l;
      foldlM (λ _ _, Raise (ValueError "list.remove(x): x not in list")) self l
  end.

(** ** Metagraph: removing several edges *)

(** [remove_edges_from]: the test is by edge equality, the removal by
    identity. *)
Definition remove_edges_from (self : Metagraph.t) (edge_list : option (list Edge.t))
    : result Metagraph.t :=
  match edge_list with
  | None => raise_mg "edge_list" "value_null"
  | Some l =>
      if bool_decide (length l = 0%nat) then raise_mg "edge_list" "value_null" else
      foldlM (λ self edge,
        found ← is_edge_in_list (Item edge) (Nest (Item <$> Metagraph.edges self));
        if found : bool then
          if edge_in edge (Metagraph.edges self) then
            Ok (Metagraph.mk (Metagraph.nodes self)
                  (remove_edge_obj edge (Metagraph.edges self))
                  (Metagraph.generating_set self) (Metagraph.a_star self))
          else Raise (ValueError "list.remove(x): x not in list")
        else Ok self) self l
  end.

(** ** MetagraphHelper: sets of elements drawn from edges and nodes *)

Definition get_generating_set (edge_list : option (list Edge.t)) : result (gset element) :=
  match edge_list with
  | None => raise_mg "edge_list" "value_null"
  | Some l =>
      if bool_decide (length l = 0%nat) then raise_mg "edge_list" "value_null" else
      Ok (list_to_set
            (fold_left (λ generating_set edge,
               fold_left append_elt (elements (Edge.outvertex edge))
                 (fold_left append_elt (elements (Edge.invertex edge)) generating_set))
               l []))
  end.

(** [get_netinputs]: all elements of the invertices, each once, through
    nested lists; an empty list at any depth is refused. *)
Fixpoint get_netinputs (edge_list : nested Edge.t) : result (list element) :=
  match edge_list with
  | Item _ => Raise (TypeError "object of type 'Edge' has no len()")
  | Nest [] => raise_mg "edge_list" "value_null"
  | Nest l =>
      (fix loop (l : list (nested Edge.t)) (all_inputs : list element)
           : result (list element) :=
         match l with
         | [] => Ok all_inputs
         | edge :: r =>
             match edge with
             | Item e =>
                 loop r (fold_left append_elt (elements (Edge.invertex e)) all_inputs)
             | Nest _ =>
                 temp ← get_netinputs edge;
                 loop r (fold_left append_elt temp all_inputs)
             end
         end) l []
  end.

Fixpoint get_netoutputs (edge_list : nested Edge.t) : result (list element) :=
  match edge_list with
  | Item _ => Raise (TypeError "object of type 'Edge' has no len()")
  | Nest [] => raise_mg "edge_list" "value_null"
  | Nest l =>
      (fix loop (l : list (nested Edge.t)) (all_outputs : list element)
           : result (list element) :=
         match l with
         | [] => Ok all_outputs
         | edge :: r =>
             match edge with
             | Item e =>
                 loop r (fold_left append_elt (elements (Edge.outvertex e)) all_outputs)
             | Nest _ =>
                 temp ← get_netoutputs edge;
                 loop r (fold_left append_elt temp all_outputs)
             end
         end) l []
  end.

(** [nodes_overlap]: [node1.get_element_set] names the method without
    calling it, and a bound method has no attribute [intersection]: the
    first pair of nodes raises. *)
Definition nodes_overlap (nodes_list1 nodes_list2 : list Node.t) : result bool :=
  o ← for_return (λ node1 : Node.t,
         for_return (λ node2 : Node.t,
           Raise (A := option bool)
             (AttributeError "'function' object has no attribute 'intersection'"))
           nodes_list2) nodes_list1;
  Ok (default false o).

(** [get_element_set]: [result.union(node.get_element_set)] is given the
    bound method, which is not iterable. *)
Definition get_element_set (nodes_list : option (list Node.t)) : result (gset element) :=
  match nodes_list with
  | Some (node :: rest) =>
      foldlM (λ _ _, Raise (TypeError "'instancemethod' object is not iterable"))
        ∅ (node :: rest)
  | _ => Ok ∅
  end.

(** [node_lists_overlap] *)
Definition node_lists_overlap (nodes_list1 nodes_list2 : list Node.t) : bool :=
  existsb (λ node1, is_node_in_list node1 nodes_list2) nodes_list1.

(** ** MetagraphHelper: matrices of numbers *)

(** [transpose_matrix] *)
Definition transpose_matrix {A} (matrix : option (list (list A))) : result (list (list A)) :=
  match matrix with
  | None => raise_mg "matrix" "value_null"
  | Some m =>
      row0 ← index m 0;
      let cols := length row0 in
      mapM (λ j, mapM (λ row, index row j) m) (range cols)
  end.

(** A Python set of [(sign, edge)] tuples, by its items; an [Edge] hashes
    by identity. *)
Definition same_tuple (t1 t2 : Z * Edge.t) : bool :=
  bool_decide (t1.1 = t2.1) && bool_decide (Edge.id t1.2 = Edge.id t2.2).

Definition tuple_union (s1 s2 : list (Z * Edge.t)) : list (Z * Edge.t) :=
  fold_left (λ acc t, if existsb (same_tuple t) acc then acc else acc ++ [t]) s2 s1.

Definition custom_add_matrix_elements (k : nat) (a_ik b_kj : option Z) (y : list Edge.t)
    : result (list (Z * Edge.t)) :=
  if bool_decide (length y < k + 1)%nat then raise_mg "k" "value_out_of_bounds" else
  if bool_decide (a_ik = Some 1) && bool_decide (b_kj = Some (-1))
  then y_k ← index y k; Ok [(1, y_k)]
  else if bool_decide (a_ik = Some (-1)) && bool_decide (b_kj = Some (-1))
  then y_k ← index y k; Ok [(-1, y_k)]
  else Ok [].

Definition custom_multiply_matrices (matrix1 matrix2 : list (list (option Z)))
    (edge_list : option (list Edge.t)) : result (list (list (list (Z * Edge.t)))) :=
  match edge_list with
  | None => raise_mg "edge_list" "value_null"
  | Some y =>
      if bool_decide (length y = 0%nat) then raise_mg "edge_list" "value_null" else
      row0 ← index matrix1 0;
      let matrix1_cols := length row0 in
      let matrix2_rows := length matrix2 in
      if negb (bool_decide (matrix1_cols = matrix2_rows))
      then raise_mg "matrix1, matrix2" "structures_incompatible" else
      col0 ← index matrix2 0;
      mapM (λ i,
        mapM (λ j,
          foldlM (λ intermediate_result k,
            row_i ← index matrix1 i;
            a_ik ← index row_i k;
            row_k ← index matrix2 k;
            b_kj ← index row_k j;
            temp ← custom_add_matrix_elements k a_ik b_kj y;
            Ok (tuple_union intermediate_result temp))
            [] (range (length row0)))
          (range (length col0)))
        (range (length matrix1))
  end.

(** ** MetagraphHelper: edge labels of the element-flow metagraph *)

Definition extract_edge_label_components (label : option string)
    : result (gset string * gset string * gset string) :=
  match label with
  | None => raise_mg "label" "value_null"
  | Some label =>
      if bool_decide (label = EmptyString) then raise_mg "label" "value_null" else
      let label := replace_char ">" "" label in
      let items := split "<" label in
      if bool_decide (length items < 2)%nat then raise_mg "label" "format_invalid" else
      items0 ← index items 0;
      items1 ← index items 1;
      let tuples := split ";" items1 in
      if bool_decide (length tuples < 2)%nat then raise_mg "label" "format_invalid" else
      tuples0 ← index tuples 0;
      tuples1 ← index tuples 1;
      Ok ({[items0]}, {[tuples0]}, {[tuples1]})
  end.

(** ** Notions used to state further properties *)

(** The boolean that [are_edges_equal] computes for two [Edge] objects. *)
Definition edges_equal (e1 e2 : Edge.t) : bool :=
  match Edge.attributes e1, Edge.attributes e2 with
  | Some a1, Some a2 =>
      bool_decide (Edge.invertex e1 = Edge.invertex e2)
      && bool_decide (Edge.outvertex e1 = Edge.outvertex e2)
      && bool_decide (list_to_set a1 =@{gset element} list_to_set a2)
      && bool_decide (Edge.label e1 = Edge.label e2)
  | _, _ =>
      bool_decide (Edge.invertex e1 = Edge.invertex e2)
      && bool_decide (Edge.outvertex e1 = Edge.outvertex e2)
      && bool_decide (Edge.label e1 = Edge.label e2)
  end.

(** No two entries of an edge list are equal edges. *)
Definition no_equal_edges (l : list Edge.t) : Prop :=
  ∀ i j x y, i ≠ j → l !! i = Some x → l !! j = Some y → edges_equal x y = false.

(** All nodes of a list lie within a set of elements. *)
Definition nodes_within (X : gset element) (nodes : list Node.t) : Prop :=
  Forall (λ node, Node.element_set node ⊆ X) nodes.

(** A table of [r] rows with [c] cells each. *)
Definition rectangular {A} (r c : nat) (m : list (list A)) : Prop :=
  length m = r ∧ Forall (λ row, length row = c) m.

(** A string holds a given character. *)
Fixpoint has_char (c : ascii) (s : string) : bool :=
  match s with
  | EmptyString => false
  | String a s' => Ascii.eqb a c || has_char c s'
  end.

(** The label that [get_efm] gives a flow composition,
    ['%s <%s; %s>' % (r, a, b)], for three strings. *)
Definition flow_label (r a b : string) : string :=
  r +:+ " <" +:+ a +:+ "; " +:+ b +:+ ">".

(** Cell [(i, j)] of a matrix, if the matrix has one. *)
Definition cell_at (m : matrix) (i j : nat) : option cell :=
  row ← m !! i; row !! j.

(** ** What a query reads from the closure matrix *)

(** The edges that the scan of [get_all_metapaths_from] collects from the
    matrix [a_star], over the rows of [source] and the columns of [target];
    [None] is its early [return None]. *)
Definition candidate_edges (generating_set : gset element) (a_star : matrix)
    (source target : gset element) : result (option (list Edge.t)) :=
  all_applicable_input_rows ← applicable_indices generating_set source;
  scan_rows generating_set a_star target all_applicable_input_rows [].

(** [edge] is among the edges of a triple that a cell of [a_star] holds. *)
Definition occurs_in (a_star : matrix) (edge : Edge.t) : Prop :=
  ∃ i j nested_triples triples triple,
    cell_at a_star i j = Some (Some nested_triples) ∧
    get_triples nested_triples = Ok triples ∧
    triple ∈ triples ∧
    edge ∈ get_edge_list (edge_items (Triple.edges triple)).

(** The answer [metapaths] was read from the matrix [a_star]: the scan of
    [a_star] ends, it gives up exactly when the answer is [None], the
    edges it collects are edges of triples of [a_star], and each metapath of
    the answer, from [source] to [target], is one of the selections of these
    edges. *)
Definition answers_from (generating_set : gset element) (a_star : matrix)
    (source target : gset element) (metapaths : option (list Metapath.t)) : Prop :=
  ∃ found,
    candidate_edges generating_set a_star source target = Ok found ∧
    match found, metapaths with
    | None, None => True
    | Some edges, Some valid_metapaths =>
        Forall (occurs_in a_star) edges ∧
        Forall (λ mp, Metapath.source mp = source ∧ Metapath.target mp = target ∧
                      Metapath.edge_list mp ∈ all_subsets edges) valid_metapaths
    | _, _ => False
    end.

(** ** Loops with [return] and [break] in a computation that allocates *)

(** A [for] loop whose body may [return], in [M]. *)
Fixpoint for_returnM {A R} (body : A → M (option R)) (l : list A) : M (option R) :=
  match l with
  | [] => mret None
  | x :: rest =>
      o ← body x;
      match o with
      | Some v => mret (Some v)
      | None => for_returnM body rest
      end
  end.

(** The same with a state that the rounds hand on. *)
Fixpoint for_return_state {A S R} (body : S → A → M (option R * S)) (st : S) (l : list A)
    : M (option R * S) :=
  match l with
  | [] => mret (None, st)
  | x :: rest =>
      body st x ≫= λ r : option R * S,
      match r.1 with
      | Some v => mret (Some v, r.2)
      | None => for_return_state body r.2 rest
      end
  end.

(** A [for] loop whose body may [break]: the body returns the new state and
    whether the loop is left. *)
Fixpoint for_break {A S} (body : S → A → M (S * bool)) (st : S) (l : list A) : M S :=
  match l with
  | [] => mret st
  | x :: rest =>
      body st x ≫= λ r : S * bool,
      if r.2 then mret r.1 else for_break body r.1 rest
  end.

(** ** Metagraph: redundant edges *)

(** [is_redundant_edge]: every round of the loop over the subsets of the
    target asks for the metapaths to the whole target.  The metagraph comes
    back with its closure cache filled. *)
Definition is_redundant_edge (self : Metagraph.t) (edge : option Edge.t)
    (metapath : option Metapath.t) (source target : option (gset element))
    : M (bool * Metagraph.t) :=
  match edge, metapath, source, target with
  | None, _, _, _ => lift (raise_mg "edge" "value_null")
  | Some _, None, _, _ => lift (raise_mg "metapath" "value_null")
  | Some _, Some _, None, _ => lift (raise_mg "source" "value_null")
  | Some _, Some _, Some _, None => lift (raise_mg "target" "value_null")
  | Some edge, Some metapath, Some source, Some target =>
      (* check input metapath is valid *)
      valid ← is_metapath self metapath;
      if negb valid then lift (raise_mg "metapath" "arguments_invalid") else
      (* get all metapaths from subset1 to proper subsets of subset2 *)
      r ← for_return_state (λ self subset,
             if bool_decide (length subset < size target)%nat then
               r ← get_all_metapaths_from self (Some source) (Some target);
               (* check if edges is in every metapath found *)
               match r.1 with
               | Some (mp :: mps) =>
                   redundant ←
                     lift (for_return (λ mp,
                       found ← is_edge_in_list (Item edge)
                                 (Nest (Item <$> Metapath.edge_list mp));
                       if negb found then Ok (Some true) else Ok None) (mp :: mps));
                   mret (Some (default false redundant), r.2)
               | _ => mret (None, r.2)
               end
             else mret (None, self)) self (all_subsets (elements target));
      mret (default false r.1, r.2)
  end.

(** ** ConditionalMetagraph: metapaths and connectivity *)

Module ConditionalQueries.

(** [ConditionalMetagraph.get_all_metapaths_from]: the plain metagraph
    [self.mg] is built when it is still [None], and queried.  The result
    carries the conditional metagraph with [self.mg] as the query left it. *)
Definition get_all_metapaths_from (self : ConditionalMetagraph.t)
    (source target : option (gset element))
    : M (option (list Metapath.t) * ConditionalMetagraph.t) :=
  match source, target with
  | None, _ => lift (raise_mg "subset1" "value_null")
  | Some src, None =>
      if bool_decide (size src = 0%nat) then lift (raise_mg "subset1" "value_null")
      else lift (raise_mg "subset2" "value_null")
  | Some src, Some tgt =>
      if bool_decide (size src = 0%nat) then lift (raise_mg "subset1" "value_null") else
      if bool_decide (size tgt = 0%nat) then lift (raise_mg "subset2" "value_null") else
      if negb (bool_decide (src ⊆ ConditionalMetagraph.generating_set self))
      then lift (raise_mg "subset1" "not_a_subset") else
      if negb (bool_decide (tgt ⊆ ConditionalMetagraph.generating_set self))
      then lift (raise_mg "subset2" "not_a_subset") else
      let generator_set :=
        ConditionalMetagraph.variables_set self ∪ ConditionalMetagraph.propositions_set self in
      mg ← match ConditionalMetagraph.mg self with
           | None =>
               mg ← lift (Metagraph.init (Some generator_set));
               lift (add_edges_from mg (Some (ConditionalMetagraph.edges self)))
           | Some mg => mret mg
           end;
      r ← get_all_metapaths_from mg (Some src) (Some tgt);
      mret (r.1,
            ConditionalMetagraph.mk
              (ConditionalMetagraph.nodes self) (ConditionalMetagraph.edges self)
              (ConditionalMetagraph.generating_set self) (ConditionalMetagraph.a_star self)
              (Some r.2)
              (ConditionalMetagraph.variables_set self)
              (ConditionalMetagraph.propositions_set self))
  end.

(** [get_all_metapaths].  [Node] defines no equality, so [subset1 != subset2]
    compares identities; every append to the node list is guarded by
    [is_node_in_list], so the list holds an object once and two entries are
    the same object exactly when their positions agree.  The metapaths that a
    query returns are new objects, so [mp not in all_metapaths] holds for each
    of them.  The state of the loops is the conditional metagraph, the
    metapaths collected so far and [cap_reached]. *)
Definition get_all_metapaths (self : ConditionalMetagraph.t)
    : M (list Metapath.t * ConditionalMetagraph.t) :=
  let all_subsets := imap (λ i node, (i, node)) (ConditionalMetagraph.nodes self) in
  st ← for_break (λ (st : ConditionalMetagraph.t * list Metapath.t * bool)
                    (subset1 : nat * Node.t),
          st ← for_break (λ (st : ConditionalMetagraph.t * list Metapath.t * bool)
                            (subset2 : nat * Node.t),
                  let '(self, all_metapaths, cap_reached) := st in
                  if negb (bool_decide (subset1.1 = subset2.1)) then
                    overlap ← lift (nodes_overlap [subset1.2] [subset2.2]);
                    if negb overlap then
                      source ← lift (get_element_set (Some [subset1.2]));
                      target ← lift (get_element_set (Some [subset2.2]));
                      r ← get_all_metapaths_from self (Some source) (Some target);
                      match r.1 with
                      | Some (mp :: mps) =>
                          let all_metapaths := all_metapaths ++ mp :: mps in
                          if bool_decide (10 ≤ length all_metapaths)%nat
                          then mret (r.2, all_metapaths, true, true)
                          else mret (r.2, all_metapaths, cap_reached, false)
                      | _ => mret (r.2, all_metapaths, cap_reached, false)
                      end
                    else mret (st, false)
                  else mret (st, false)) st all_subsets;
          mret (st, st.2))
        (self, [], false) all_subsets;
  mret (st.1.2, st.1.1).

(** The argument checks that [is_connected], [is_fully_connected] and
    [is_redundantly_connected] start with, in the same words. *)
Definition check_connection_arguments (self : ConditionalMetagraph.t)
    (source target : option (gset element)) (logical_expressions : option (list string))
    (interpretations : option (list (list (element * bool))))
    : result (gset element * gset element * list (list (element * bool))) :=
  match source with
  | None => raise_mg "source" "value_null"
  | Some src =>
  if bool_decide (size src = 0%nat) then raise_mg "source" "value_null" else
  match target with
  | None => raise_mg "target" "value_null"
  | Some tgt =>
  if bool_decide (size tgt = 0%nat) then raise_mg "target" "value_null" else
  match logical_expressions with
  | None => raise_mg "logical_expressions" "value_null"
  | Some les =>
  if bool_decide (length les = 0%nat) then raise_mg "logical_expressions" "value_null" else
  match interpretations with
  | None => raise_mg "interpretations" "value_null"
  | Some ints =>
  if bool_decide (length ints = 0%nat) then raise_mg "interpretations" "value_null" else
  if negb (bool_decide (src ⊆ ConditionalMetagraph.variables_set self))
  then raise_mg "source" "not_a_subset" else
  if negb (bool_decide (tgt ⊆ ConditionalMetagraph.variables_set self))
  then raise_mg "target" "not_a_subset" else
  (* check expressions are over X_p *)
  _ ← ConditionalMetagraph.check_expressions self les;
  Ok (src, tgt, ints)
  end end end end.

(** The start of the loop body of the three methods: the metapaths from
    source to target in the context of one interpretation. *)
Definition interpretation_metapaths (self : ConditionalMetagraph.t)
    (source target : gset element) (interpretation : list (element * bool))
    : M (option (list Metapath.t)) :=
  props ← lift (ConditionalMetagraph.split_interpretation self interpretation);
  (* compute context metagraph *)
  context ← lift (ConditionalMetagraph.get_context self (Some props.1) (Some props.2));
  r ← get_all_metapaths_from context (Some source) (Some target);
  mret r.1.

(** [metapaths is not None and len(metapaths) >= n] *)
Definition at_least (n : nat) (metapaths : option (list Metapath.t)) : bool :=
  match metapaths with
  | Some l => bool_decide (n ≤ length l)%nat
  | None => false
  end.

Definition is_connected (self : ConditionalMetagraph.t)
    (source target : option (gset element)) (logical_expressions : option (list string))
    (interpretations : option (list (list (element * bool)))) : M bool :=
  args ← lift (check_connection_arguments self source target logical_expressions
                 interpretations);
  (* check metapath exists for at least one interpretation *)
  o ← for_returnM (λ interpretation,
         metapaths ← interpretation_metapaths self args.1.1 args.1.2 interpretation;
         if at_least 1 metapaths then mret (Some true) else mret None) args.2;
  mret (default false o).

Definition is_fully_connected (self : ConditionalMetagraph.t)
    (source target : option (gset element)) (logical_expressions : option (list string))
    (interpretations : option (list (list (element * bool)))) : M bool :=
  args ← lift (check_connection_arguments self source target logical_expressions
                 interpretations);
  (* check metapath exists for every interpretation *)
  o ← for_returnM (λ interpretation,
         metapaths ← interpretation_metapaths self args.1.1 args.1.2 interpretation;
         if negb (at_least 1 metapaths) then mret (Some false) else mret None) args.2;
  mret (default true o).

Definition is_redundantly_connected (self : ConditionalMetagraph.t)
    (source target : option (gset element)) (logical_expressions : option (list string))
    (interpretations : option (list (list (element * bool)))) : M bool :=
  args ← lift (check_connection_arguments self source target logical_expressions
                 interpretations);
  (* check metapath exists for every interpretation *)
  o ← for_returnM (λ interpretation,
         metapaths ← interpretation_metapaths self args.1.1 args.1.2 interpretation;
         if at_least 2 metapaths then mret (Some false) else mret None) args.2;
  mret (default true o).
End ConditionalQueries.

(** [ConditionalMetagraph({1, 2}, {'p1', 'p2'})] after
    [add_edges_from([Edge({1}, {2})])], and the same object after the query
    [get_all_metapaths_from({1}, {2})] *)
Definition cmg_plain : ConditionalMetagraph.t :=
  ConditionalMetagraph.mk [Node.mk (ints [1]); Node.mk (ints [2])] [edge_1_2]
    (ints [1; 2] ∪ list_to_set (props ["p1"; "p2"])) None None
    (ints [1; 2]) (list_to_set (props ["p1"; "p2"])).

Definition cmg_plain_queried : ConditionalMetagraph.t :=
  match ConditionalQueries.get_all_metapaths_from cmg_plain
          (Some (ints [1])) (Some (ints [2])) 0%nat with
  | Ok (r, _) => r.2
  | Raise _ => cmg_plain
  end.

(** An edge mentions a proposition, in its invertex or its outvertex; an
    edge that mentions none of the false propositions. *)
Definition mentions (edge : Edge.t) (proposition : element) : bool :=
  bool_decide (proposition ∈ Edge.invertex edge)
  || bool_decide (proposition ∈ Edge.outvertex edge).

Definition kept_in_context (false_propositions : list element) (edge : Edge.t) : bool :=
  negb (existsb (mentions edge) false_propositions).

(** The call returned, it did not raise. *)
Definition returned {A} (r : result A) : bool :=
  match r with Ok _ => true | Raise _ => false end.

(** * Properties *)

Local Set Warnings "-clear-no-such-hyp".

(** Closed goals about concrete inputs are settled by evaluation. *)
Ltac by_eval :=
  lazymatch goal with |- _ = ?r => vm_cast_no_check (@eq_refl _ r) end.
Ltac decide_eval := apply (bool_decide_unpack _); vm_cast_no_check I.

(** ** The concrete inputs are what the constructors build *)

Example mg_loop_built :
  (mg ← Metagraph.init (Some (ints [1])); add_edges_from mg (Some [edge_1_1])) = Ok mg_loop.
Proof. by_eval. Qed.

Example mg_12_built : Metagraph.init (Some (ints [1; 2])) = Ok mg_12.
Proof. by_eval. Qed.

Example mg_forth_built : add_edges_from mg_12 (Some [edge_1_2]) = Ok mg_forth.
Proof. by_eval. Qed.

Example mg_cycle_built : add_edges_from mg_12 (Some [edge_1_2; edge_2_1]) = Ok mg_cycle.
Proof. by_eval. Qed.

Example mg_self_built :
  (mg ← Metagraph.init (Some (ints [1; 2])); add_edges_from mg (Some [edge_1_1]))
  = Ok mg_self.
Proof. by_eval. Qed.

Example mg_chain_built :
  (mg ← Metagraph.init (Some (ints [1; 2; 3; 4]));
   add_edges_from mg (Some [edge_12_23; edge_3_4])) = Ok mg_chain.
Proof. by_eval. Qed.

Example edge_p1_built :
  Edge.init 7 (Some (ints [1])) (Some (ints [2])) (Some (props ["p1"])) None = Ok edge_p1.
Proof. by_eval. Qed.

Example edge_p2_built :
  Edge.init 8 (Some (ints [1])) (Some (ints [2])) (Some (props ["p2"])) None = Ok edge_p2.
Proof. by_eval. Qed.

Example cmg_one_built :
  (cmg ← ConditionalMetagraph.init (ints [1; 2]) (list_to_set (props ["p1"; "p2"]));
   ConditionalMetagraph.add_edges_from cmg (Some [edge_p1])) = Ok cmg_one.
Proof. by_eval. Qed.

Example cmg_two_built :
  (cmg ← ConditionalMetagraph.init (ints [1; 2]) (list_to_set (props ["p1"; "p2"; "p3"]));
   ConditionalMetagraph.add_edges_from cmg (Some [edge_p1; edge_p2])) = Ok cmg_two.
Proof. by_eval. Qed.

(** ** Loops in the error monad *)

Lemma raise_mg_value_null {A} (argument : string) :
  raise_mg (A := A) argument "value_null" =
  Raise (MetagraphException argument "value cannot be null or empty").
Proof. by_eval. Qed.

Lemma mapM_ok {A B} (f : A → result B) (g : A → B) (l : list A) :
  (∀ x, x ∈ l → f x = Ok (g x)) → mapM f l = Ok (g <$> l).
Proof.
  induction l as [|x l IH]; intros Hf; [done|].
  cbn. rewrite Hf; [|left]. cbn. rewrite IH; [done|].
  intros y Hy. apply Hf. by right.
Qed.

Lemma index_middle {A} (pre l : list A) (x : A) :
  index (pre ++ x :: l) (length pre) = Ok x.
Proof. unfold index. by rewrite list_lookup_middle. Qed.

Lemma mapM_seq_index {A B} (f : A → result B) (pre l : list A) :
  mapM (λ i, x ← index (pre ++ l) i; f x) (seq (length pre) (length l)) = mapM f l.
Proof.
  revert pre. induction l as [|x l IH]; intros pre; [done|].
  cbn [length seq mapM]. rewrite index_middle. cbn.
  destruct (f x) as [y|e]; [|done]. cbn.
  specialize (IH (pre ++ [x])). rewrite length_app, <- app_assoc in IH.
  cbn in IH. replace (length pre + 1)%nat with (S (length pre)) in IH by lia.
  by rewrite IH.
Qed.

Lemma mapM_range_index {A B} (f : A → result B) (l : list A) :
  mapM (λ i, x ← index l i; f x) (range (length l)) = mapM f l.
Proof. apply (mapM_seq_index f [] l). Qed.

(** ** incidence_matrix *)

Lemma incidence_matrix_rows (self : Metagraph.t) :
  incidence_matrix self =
  Ok ((λ x_i, incidence_cell x_i <$> Metagraph.edges self)
        <$> elements (Metagraph.generating_set self)).
Proof.
  unfold incidence_matrix.
  change (size (Metagraph.generating_set self))
    with (length (elements (Metagraph.generating_set self))).
  rewrite (mapM_range_index
             (λ x_i, mapM (λ j, e_j ← index (Metagraph.edges self) j;
                                Ok (incidence_cell x_i e_j))
                       (range (length (Metagraph.edges self))))).
  apply mapM_ok. intros x_i _.
  rewrite (mapM_range_index (λ e_j, Ok (incidence_cell x_i e_j))).
  by apply mapM_ok.
Qed.

(** C3, as the code has it: [incidence_matrix] returns a table with one row
    per element of the generating set and one column per edge; the cell of
    element [x_i] and edge [e_j] is -1 when [x_i] is in the invertex of [e_j]
    (whether or not it is in the outvertex as well), +1 when it is in the
    outvertex only, and absent when it is in neither. *)
Theorem incidence_matrix_cells (self : Metagraph.t) :
  ∃ m, incidence_matrix self = Ok m ∧
    length m = size (Metagraph.generating_set self) ∧
    ∀ i x_i, elements (Metagraph.generating_set self) !! i = Some x_i →
      ∃ row, m !! i = Some row ∧
        length row = length (Metagraph.edges self) ∧
        ∀ j e_j, Metagraph.edges self !! j = Some e_j →
          ∃ c, row !! j = Some c ∧
            (x_i ∈ Edge.invertex e_j → c = Some (-1)) ∧
            (x_i ∉ Edge.invertex e_j → x_i ∈ Edge.outvertex e_j → c = Some 1) ∧
            (x_i ∉ Edge.invertex e_j → x_i ∉ Edge.outvertex e_j → c = None).
Proof.
  eexists. split; [apply incidence_matrix_rows|]. split.
  { by rewrite length_fmap. }
  intros i x_i Hi. eexists. split.
  { rewrite list_lookup_fmap, Hi. reflexivity. }
  split; [by rewrite length_fmap|].
  intros j e_j Hj. eexists. split.
  { rewrite list_lookup_fmap, Hj. reflexivity. }
  unfold incidence_cell. repeat case_bool_decide; naive_solver.
Qed.

(** The table of [mg_loop], whose single element is in both vertices of its
    single edge. *)
Lemma incidence_matrix_cells_witness :
  ∃ m, incidence_matrix mg_loop = Ok m ∧ m = [[Some (-1)]].
Proof.
  destruct (incidence_matrix_cells mg_loop) as (m & Hm & Hlen & Hcells).
  exists m. split; [done|].
  assert (incidence_matrix mg_loop = Ok [[Some (-1)]]) as Heq by by_eval.
  congruence.
Defined.

(** C3 as stated fails: an element in both the invertex and the outvertex
    of an edge does not get +1. *)
Lemma incidence_matrix_both_counterexample :
  ¬ (∀ (self : Metagraph.t) m i j x_i e_j row,
       incidence_matrix self = Ok m →
       elements (Metagraph.generating_set self) !! i = Some x_i →
       Metagraph.edges self !! j = Some e_j →
       x_i ∈ Edge.invertex e_j → x_i ∈ Edge.outvertex e_j →
       m !! i = Some row → row !! j = Some (Some 1)).
Proof.
  intros H.
  specialize (H mg_loop [[Some (-1)]] 0%nat 0%nat (EInt 1) edge_1_1 [Some (-1)]).
  discriminate H; try by_eval; try decide_eval; reflexivity.
Qed.

(** ** get_context: argument checks *)

(** C10: [get_context] raises a [MetagraphException] (for the argument
    found missing first) whenever the true propositions or the false
    propositions are [None] or empty; so the context with all propositions
    true, or all false, cannot be requested. *)
Theorem get_context_refuses_empty (self : ConditionalMetagraph.t)
    (true_propositions false_propositions : option (list element)) :
  absent_or_empty true_propositions ∨ absent_or_empty false_propositions →
  ∃ argument,
    ConditionalMetagraph.get_context self true_propositions false_propositions =
      Raise (MetagraphException argument "value cannot be null or empty") ∧
    (argument = "true_propositions" ∨ argument = "false_propositions").
Proof.
  intros Hempty. unfold ConditionalMetagraph.get_context.
  rewrite !raise_mg_value_null.
  destruct true_propositions as [[|p tp]|], false_propositions as [[|q fp]|];
    try (eexists; split; [reflexivity|]; tauto).
  exfalso. destruct Hempty as [[|]|[|]]; discriminate.
Qed.

Lemma get_context_refuses_empty_witness :
  ∃ argument,
    ConditionalMetagraph.get_context cmg_one (Some (props ["p1"; "p2"])) (Some []) =
      Raise (MetagraphException argument "value cannot be null or empty") ∧
    (argument = "true_propositions" ∨ argument = "false_propositions").
Proof. apply get_context_refuses_empty. right. by right. Defined.

(** ** ConditionalMetagraph.__init__: the partition check *)

(** C9, what the code does instead: when the two sets overlap, looking up
    [partition_invalid] in the message table fails, and the constructor
    leaves with that [KeyError]; no [MetagraphException] is raised. *)
Theorem init_overlap_key_error (variables_set propositions_set : gset element) :
  variables_set ∩ propositions_set ≠ ∅ →
  ConditionalMetagraph.init variables_set propositions_set =
    Raise (KeyError "partition_invalid").
Proof.
  intros Hne. unfold ConditionalMetagraph.init.
  rewrite bool_decide_eq_true_2.
  - by_eval.
  - assert (size (variables_set ∩ propositions_set) ≠ 0%nat); [|lia].
    apply size_non_empty_iff. intros Hempty. apply Hne. by apply leibniz_equiv.
Qed.

Lemma init_overlap_key_error_witness :
  ints [1] ∩ ints [1] ≠ ∅ ∧
  ConditionalMetagraph.init (ints [1]) (ints [1]) = Raise (KeyError "partition_invalid").
Proof.
  assert (ints [1] ∩ ints [1] ≠ ∅) as Hne by decide_eval.
  split; [exact Hne|]. apply init_overlap_key_error, Hne.
Defined.

(** ** is_bridge and is_cutset *)

(** C4: on a list of edges, [is_bridge] is [is_cutset]: the same boolean,
    or the same exception, from the same allocation state. *)
Theorem is_bridge_is_cutset (self : Metagraph.t) (edge_list : list Edge.t)
    (source target : option (gset element)) :
  is_bridge self (Some (PyList edge_list)) source target =
  is_cutset self (Some (PyList edge_list)) source target.
Proof. by destruct source, target. Qed.

(** The two differ only off lists: a tuple of edges is refused by
    [is_bridge] and accepted by [is_cutset]. *)
Lemma is_bridge_tuple (self : Metagraph.t) (edge_list : list Edge.t)
    (source target : gset element) (s : nat) :
  is_bridge self (Some (PyTuple edge_list)) (Some source) (Some target) s =
  Raise (MetagraphException "edge_list" "provided arguments are invalid").
Proof. by_eval. Qed.

Example is_cutset_forth :
  (r ← is_cutset mg_forth (Some (PyList [edge_2_1])) (Some (ints [1])) (Some (ints [2])) 0%nat;
   Ok r.1) = Ok false.
Proof. by_eval. Qed.

Example is_bridge_forth :
  (r ← is_bridge mg_forth (Some (PyList [edge_2_1])) (Some (ints [1])) (Some (ints [2])) 0%nat;
   Ok r.1) = Ok false.
Proof. by_eval. Qed.

Example is_cutset_cycle :
  (r ← is_cutset mg_cycle (Some (PyList [edge_1_2])) (Some (ints [1])) (Some (ints [2])) 0%nat;
   Ok r.1) = Ok true.
Proof. by_eval. Qed.

(** ** add_edge and the generating set *)

(** C6 at the failing input: [Metagraph({1, 2})] accepts [Edge({1}, {3})]
    through [add_edge] and through [add_edges_from], and then holds an edge
    whose outvertex is outside the generating set. *)
Theorem add_edge_outside_generating_set :
  (mg ← add_edge mg_12 edge_1_3;
   Ok (Metagraph.edges mg, Metagraph.generating_set mg)) = Ok ([edge_1_3], ints [1; 2]) ∧
  (mg ← add_edges_from mg_12 (Some [edge_1_3]);
   Ok (Metagraph.edges mg, Metagraph.generating_set mg)) = Ok ([edge_1_3], ints [1; 2]) ∧
  ¬ (Edge.invertex edge_1_3 ∪ Edge.outvertex edge_1_3 ⊆ ints [1; 2]).
Proof. split; [by_eval | split; [by_eval | decide_eval]]. Qed.

(** [add_node]'s membership test has no counterpart in [add_edge]: an edge
    with non-empty vertices is taken into an empty metagraph whatever its
    elements are. *)
Lemma add_edge_any_elements (generator_set : gset element) (edge : Edge.t) :
  Edge.invertex edge ≠ ∅ → Edge.outvertex edge ≠ ∅ →
  ∃ mg, add_edge (Metagraph.mk [] [] generator_set None) edge = Ok mg ∧
    Metagraph.edges mg = [edge] ∧ Metagraph.generating_set mg = generator_set.
Proof.
  intros Hi Ho. unfold add_edge, Node.init.
  assert (∀ X : gset element, X ≠ ∅ → bool_decide (size X = 0%nat) = false) as Hsize.
  { intros X HX. apply bool_decide_eq_false_2. apply size_non_empty_iff.
    intros Hempty. apply HX. by apply leibniz_equiv. }
  rewrite !Hsize by done. cbn. eauto.
Qed.

(** ** get_context: what becomes of the edges *)

Lemma append_new_elem (l : list Edge.t) (e x : Edge.t) :
  x ∈ append_new l e → x ∈ l ∨ x = e.
Proof.
  unfold append_new. destruct (edge_in e l); [by left|].
  rewrite elem_of_app, list_elem_of_singleton. tauto.
Qed.

Lemma remove_edge_obj_elem (e x : Edge.t) (l : list Edge.t) :
  x ∈ remove_edge_obj e l → x ∈ l.
Proof.
  induction l as [|y l IH]; cbn; [done|].
  destruct (bool_decide _); [by right|].
  rewrite !elem_of_cons. intros [->|Hx]; [by left|right; auto].
Qed.

Lemma raise_mg_not_ok {A} (argument key : string) (a : A) :
  raise_mg argument key ≠ Ok a.
Proof. unfold raise_mg. by destruct (resource key). Qed.

Lemma cmg_init_edges (variables_set propositions_set : gset element)
    (c : ConditionalMetagraph.t) :
  ConditionalMetagraph.init variables_set propositions_set = Ok c →
  ConditionalMetagraph.edges c = [] ∧
  ConditionalMetagraph.variables_set c = variables_set ∧
  ConditionalMetagraph.propositions_set c = propositions_set.
Proof.
  unfold ConditionalMetagraph.init, Metagraph.init.
  destruct (bool_decide (0 < _)%nat).
  { intros H. by apply raise_mg_not_ok in H. }
  destruct (bool_decide (_ = 0%nat)); cbn.
  - destruct (raise_mg (A := Metagraph.t) _ _) eqn:H; [|done].
    by apply raise_mg_not_ok in H.
  - by intros [= <-].
Qed.

Lemma cmg_step_edges (self self' : ConditionalMetagraph.t) (e : Edge.t) :
  ConditionalMetagraph.add_edges_from_step self e = Ok self' →
  ConditionalMetagraph.edges self' = append_new (ConditionalMetagraph.edges self) e.
Proof.
  unfold ConditionalMetagraph.add_edges_from_step.
  destruct (Node.init (Some (Edge.invertex e))) as [n1|]; [|done].
  destruct (Node.init (Some (Edge.outvertex e))) as [n2|]; [|done].
  by intros [= <-].
Qed.

Lemma cmg_add_edges_from_elem (l : list Edge.t) (self ctx : ConditionalMetagraph.t) :
  foldlM ConditionalMetagraph.add_edges_from_step self l = Ok ctx →
  ∀ x, x ∈ ConditionalMetagraph.edges ctx →
    x ∈ ConditionalMetagraph.edges self ∨ x ∈ l.
Proof.
  revert self. induction l as [|e l IH]; intros self; cbn [foldlM].
  { intros [= <-]. tauto. }
  destruct (ConditionalMetagraph.add_edges_from_step self e) as [self'|] eqn:Hstep;
    [|done].
  apply cmg_step_edges in Hstep.
  intros Hfold x Hx. destruct (IH _ Hfold x Hx) as [Hin|Hin].
  - rewrite Hstep in Hin. apply append_new_elem in Hin.
    rewrite elem_of_cons. tauto.
  - right. by right.
Qed.

(** Every edge of a context is one of the edges of the metagraph it was
    taken from, as it stands there: [get_context] rewrites no vertex. *)
Lemma get_context_edges_unchanged (self ctx : ConditionalMetagraph.t)
    (true_propositions false_propositions : option (list element)) :
  ConditionalMetagraph.get_context self true_propositions false_propositions = Ok ctx →
  ∀ e, e ∈ ConditionalMetagraph.edges ctx → e ∈ ConditionalMetagraph.edges self.
Proof.
  unfold ConditionalMetagraph.get_context.
  destruct true_propositions as [tp|], false_propositions as [fp|];
    rewrite ?raise_mg_value_null; try done.
  2: { by case_bool_decide. }
  do 2 (case_bool_decide; [done|]).
  destruct (ConditionalMetagraph.check_propositions self _ tp); [|done].
  destruct (ConditionalMetagraph.check_propositions self _ fp); [|done].
  cbn. destruct (ConditionalMetagraph.init _ _) as [context|] eqn:Hinit; [|done].
  cbn. apply cmg_init_edges in Hinit as (Hnil & _ & _).
  unfold ConditionalMetagraph.add_edges_from.
  case_bool_decide; [by rewrite raise_mg_value_null|].
  destruct (foldlM (λ _ edge, ConditionalMetagraph.check_edge context edge) _ _); [|done].
  cbn. intros Hfold e He.
  destruct (cmg_add_edges_from_elem _ _ _ Hfold e He) as [Hin|Hin].
  { rewrite Hnil in Hin. by apply elem_of_nil in Hin. }
  clear -Hin. revert Hin.
  generalize (fold_left
                (ConditionalMetagraph.mark_edge tp fp)
                (ConditionalMetagraph.edges self) []).
  intros removed.
  generalize (ConditionalMetagraph.edges self) as edges_copy.
  induction removed as [|r removed IH]; intros edges_copy; cbn; [done|].
  intros Hin. apply IH in Hin.
  destruct (edge_in r edges_copy); [by eapply remove_edge_obj_elem|done].
Qed.

(** C5 at the failing input: the context of [cmg_one] for [p1] true and
    [p2] false still holds the edge with [p1] in its invertex. *)
Theorem get_context_keeps_true_proposition :
  (ctx ← ConditionalMetagraph.get_context cmg_one (Some (props ["p1"])) (Some (props ["p2"]));
   Ok (ConditionalMetagraph.edges ctx)) = Ok [edge_p1] ∧
  EStr "p1" ∈ Edge.invertex edge_p1.
Proof. split; [by_eval | decide_eval]. Qed.

(** ** is_non_redundant *)

Lemma check_interpretation_returns (self : ConditionalMetagraph.t)
    (interpretation : list (element * bool)) :
  ConditionalMetagraph.check_interpretation self interpretation ≠ Ok None.
Proof.
  unfold ConditionalMetagraph.check_interpretation.
  destruct (ConditionalMetagraph.split_interpretation _ _) as [p|]; [|done].
  cbn [mbind result_bind].
  destruct (ConditionalMetagraph.get_context self (Some p.1) (Some p.2)); [|done].
  cbn [mbind result_bind].
  by destruct (existsb _ _).
Qed.

(** The loop over the interpretations is left in its first round: the
    interpretations after the first are never looked at. *)
Lemma is_non_redundant_first_only (self : ConditionalMetagraph.t)
    (logical_expressions : option (list string))
    (interpretation : list (element * bool)) (rest : list (list (element * bool))) :
  ConditionalMetagraph.is_non_redundant self logical_expressions
    (Some (interpretation :: rest)) =
  ConditionalMetagraph.is_non_redundant self logical_expressions (Some [interpretation]).
Proof.
  unfold ConditionalMetagraph.is_non_redundant.
  destruct logical_expressions as [les|]; [|done].
  case_bool_decide; [done|]. cbn [length bool_decide].
  destruct (ConditionalMetagraph.check_expressions self les); [|done]. cbn.
  pose proof (check_interpretation_returns self interpretation) as Hret.
  destruct (ConditionalMetagraph.check_interpretation self interpretation) as [[b|]|];
    done.
Qed.

(** C8 at the failing input: [cmg_two] is reported non-redundant for the
    interpretations [interp_one], [interp_both], although in the context of
    [interp_both] the variable 2 is in the outvertex of two edges. *)
Theorem is_non_redundant_ignores_later_interpretations :
  ConditionalMetagraph.is_non_redundant cmg_two (Some ["p1 | p2"%string])
    (Some [interp_one; interp_both]) = Ok (Some true) ∧
  (props ← ConditionalMetagraph.split_interpretation cmg_two interp_both;
   ctx ← ConditionalMetagraph.get_context cmg_two (Some props.1) (Some props.2);
   Ok (ConditionalMetagraph.producers ctx (EInt 2))) = Ok [edge_p1; edge_p2] ∧
  EInt 2 ∈ ConditionalMetagraph.variables_set cmg_two ∧
  ConditionalMetagraph.is_non_redundant cmg_two (Some ["p1 | p2"%string])
    (Some [interp_both; interp_one]) = Ok (Some false).
Proof. split; [by_eval | split; [by_eval | split; [decide_eval | by_eval]]]. Qed.

(** ** multiply_triples *)

Lemma py_in_item (edge : Edge.t) (l : list (nested Edge.t)) :
  py_in Edge.id (Item edge) l = same_object_in edge l.
Proof.
  unfold py_in, same_object_in. induction l as [|x l IH]; [done|].
  cbn [existsb]. rewrite IH. by destruct x.
Qed.

Lemma truncate_step_first (edges : nested Edge.t) :
  truncate_step [] edges = edge_items edges.
Proof. by destruct edges. Qed.

Lemma multiply_triples_run (t1 t2 : Triple.t) (x_i x_j x_k : element) (s : nat) :
  multiply_triples (Some t1) (Some t2) x_i x_j x_k s =
  Ok (Some
        (Triple.mk s
           match union_opt (Triple.coinputs t1) (Triple.coinputs t2), Triple.cooutputs t1 with
           | Some a, Some co1 => Some (a ∖ ({[x_i]} ∪ co1))
           | Some a, None => Some (a ∖ {[x_i]})
           | None, _ => None
           end
           (Some match union_opt (Triple.cooutputs t1) (Triple.cooutputs t2) with
                 | Some b => (b ∪ {[x_k]}) ∖ {[x_j]}
                 | None => {[x_k]} ∖ {[x_j]}
                 end)
           (Nest (truncate_step (truncate_step [] (Triple.edges t1)) (Triple.edges t2)))),
      S s).
Proof. reflexivity. Qed.

(** C1, as the code has it.  The product of [R1] and [R2] is a new triple,
    whatever the operands.  Its coinputs are absent exactly when both
    operands' coinputs are absent; otherwise they are the set
    (CI1 ∪ CI2) ∖ ({x_i} ∪ CO1), absent operands counting as empty, and that
    set is kept even when it is empty.  Its cooutputs are
    (CO1 ∪ CO2 ∪ {x_k}) ∖ {x_j}.  When [R2] carries a single edge, as every
    triple of an adjacency matrix does, its edges are those of [R1] followed
    by the edge of [R2], which is left out when that very object is among the
    edges of [R1] already. *)
Theorem multiply_triples_product (t1 t2 : Triple.t) (x_i x_j x_k : element) (s : nat) :
  ∃ t, multiply_triples (Some t1) (Some t2) x_i x_j x_k s = Ok (Some t, S s) ∧
    Triple.id t = s ∧
    Triple.coinputs t =
      match Triple.coinputs t1, Triple.coinputs t2 with
      | None, None => None
      | ci1, ci2 =>
          Some ((default ∅ ci1 ∪ default ∅ ci2)
                  ∖ ({[x_i]} ∪ default ∅ (Triple.cooutputs t1)))
      end ∧
    Triple.cooutputs t =
      Some ((default ∅ (Triple.cooutputs t1) ∪ default ∅ (Triple.cooutputs t2) ∪ {[x_k]})
              ∖ {[x_j]}) ∧
    ∀ e2 : Edge.t, Triple.edges t2 = Item e2 →
      Triple.edges t =
        Nest (edge_items (Triple.edges t1)
                ++ if same_object_in e2 (edge_items (Triple.edges t1)) then []
                   else [Item e2]).
Proof.
  eexists. split; [apply multiply_triples_run|].
  cbn [Triple.id Triple.coinputs Triple.cooutputs Triple.edges].
  split; [done|]. split; [|split].
  - destruct (Triple.coinputs t1) as [ci1|], (Triple.coinputs t2) as [ci2|],
      (Triple.cooutputs t1) as [co1|]; cbn; f_equal; set_solver.
  - destruct (Triple.cooutputs t1) as [co1|], (Triple.cooutputs t2) as [co2|];
      cbn; f_equal; set_solver.
  - intros e2 He2. rewrite truncate_step_first, He2. unfold truncate_step.
    rewrite py_in_item. destruct (same_object_in _ _); [|done].
    by rewrite app_nil_r.
Qed.

Lemma multiply_triples_product_witness :
  ∃ t, multiply_triples (Some triple_1_3) (Some triple_3_4) (EInt 1) (EInt 4) (EInt 3) 0%nat
         = Ok (Some t, 1%nat) ∧
    Triple.coinputs t = Some ((ints [2] ∪ ∅) ∖ ({[EInt 1]} ∪ ints [2])) ∧
    Triple.edges t = Nest [Item edge_12_23; Item edge_3_4].
Proof.
  destruct (multiply_triples_product triple_1_3 triple_3_4
              (EInt 1) (EInt 4) (EInt 3) 0%nat)
    as (t & Hrun & _ & Hci & _ & Hedges).
  exists t. split; [exact Hrun|]. split; [exact Hci|exact (Hedges edge_3_4 eq_refl)].
Defined.

(** C1 as stated fails: no element remains in the coinputs of this product,
    and yet they are not absent. *)
Lemma multiply_triples_empty_coinputs_counterexample :
  (ints [2] ∪ ∅) ∖ ({[EInt 1]} ∪ ints [2]) = (∅ : gset element) ∧
  (r ← multiply_triples (Some triple_1_3) (Some triple_3_4) (EInt 1) (EInt 4) (EInt 3) 0%nat;
   Ok (option_map Triple.coinputs (fst r))) = Ok (Some (Some ∅)) ∧
  Some (Some (∅ : gset element)) ≠ Some None.
Proof. split; [by_eval | split; [by_eval | done]]. Qed.

(** When [R2] carries a list of edges, the edges of [R1] are lost: the
    list of [R2] replaces what was collected. *)
Lemma multiply_triples_list_replaces (t1 t2 : Triple.t) (l2 : list (nested Edge.t))
    (x_i x_j x_k : element) (s : nat) :
  Triple.edges t2 = Nest l2 →
  py_in Edge.id (Nest l2) (edge_items (Triple.edges t1)) = false →
  ∃ t, multiply_triples (Some t1) (Some t2) x_i x_j x_k s = Ok (Some t, S s) ∧
    Triple.edges t = Nest l2.
Proof.
  intros He2 Hin. eexists. split; [apply multiply_triples_run|].
  cbn [Triple.edges].
  by rewrite truncate_step_first, He2; unfold truncate_step; rewrite Hin.
Qed.

(** Such a product arises in a closure: in the square of the adjacency
    matrix of [mg_chain], the entry from 1 to 4 is the product of the entries
    from 1 to 3 and from 3 to 4, and its coinputs are the empty set. *)
Example closure_chain_empty_coinputs :
  (r ← adjacency_matrix mg_chain 0%nat;
   p1 ← closure_step (ints [1; 2; 3; 4]) (fst r) (fst r, fst r) (snd r);
   i1 ← list_index (EInt 1) (elements (ints [1; 2; 3; 4]));
   i3 ← list_index (EInt 3) (elements (ints [1; 2; 3; 4]));
   i4 ← list_index (EInt 4) (elements (ints [1; 2; 3; 4]));
   row ← index (summary (fst r)) i1; a_13 ← index row i3;
   row ← index (summary (fst r)) i3; a_34 ← index row i4;
   row ← index (summary (fst (fst p1))) i1; b_14 ← index row i4;
   Ok (a_13, a_34, b_14))
  = Ok (Some [triple_summary triple_1_3], Some [triple_summary triple_3_4],
        Some [(Some ∅, Some (ints [2; 3]), [5%nat; 6%nat])]).
Proof. by_eval. Qed.

(** The edges of a product are compared as objects: two edges that
    [are_edges_equal] accepts as equal are both kept. *)
Example multiply_triples_keeps_equal_edges :
  are_edges_equal (Item edge_1_2) (Item edge_1_2_twin) = Ok true ∧
  (r ← multiply_triples (Some (Triple.mk 10 None None (Item edge_1_2)))
         (Some (Triple.mk 11 None None (Item edge_1_2_twin)))
         (EInt 1) (EInt 2) (EInt 2) 0%nat;
   Ok (option_map Triple.edges (fst r)))
  = Ok (Some (Nest [Item edge_1_2; Item edge_1_2_twin])).
Proof. split; by_eval. Qed.

(** ** Reasoning in the two monads *)

Lemma result_bind_ok {A B} (m : result A) (f : A → result B) (b : B) :
  m ≫= f = Ok b → ∃ a, m = Ok a ∧ f a = Ok b.
Proof. destruct m as [a|e]; [|done]. intros H. by exists a. Qed.

Lemma M_bind_ok {A B} (m : M A) (f : A → M B) (s s' : nat) (b : B) :
  (m ≫= f) s = Ok (b, s') → ∃ a s1, m s = Ok (a, s1) ∧ f a s1 = Ok (b, s').
Proof.
  unfold mbind, M_bind. destruct (m s) as [[a s1]|e]; [|done].
  intros H. by exists a, s1.
Qed.

Lemma lift_ok {A} (r : result A) (s s' : nat) (a : A) :
  lift r s = Ok (a, s') → r = Ok a ∧ s' = s.
Proof. unfold lift. destruct r; [|done]. by intros [= -> ->]. Qed.

Lemma mret_ok {A} (a b : A) (s s' : nat) :
  mret (M := M) a s = Ok (b, s') → b = a ∧ s' = s.
Proof. by intros [= -> ->]. Qed.

Lemma foldlM_invariant {A B} (P : A → Prop) (f : A → B → result A) (l : list B) (a r : A) :
  (∀ x y b, P x → f x b = Ok y → P y) → P a → foldlM f a l = Ok r → P r.
Proof.
  intros Hf. revert a. induction l as [|b l IH]; intros a Ha; cbn [foldlM].
  { by intros [= <-]. }
  intros (a' & Hstep & Hrest)%result_bind_ok. eauto.
Qed.

(** ** The closure cache *)

Lemma add_edge_a_star (self mg : Metagraph.t) (edge : Edge.t) :
  add_edge self edge = Ok mg → Metagraph.a_star mg = Metagraph.a_star self.
Proof.
  unfold add_edge.
  intros (n1 & _ & (n2 & _ & (found & _ & [= <-])%result_bind_ok)%result_bind_ok)%result_bind_ok.
  done.
Qed.

Lemma add_edges_from_step_a_star (self mg : Metagraph.t) (edge : Edge.t) :
  add_edges_from_step self edge = Ok mg → Metagraph.a_star mg = Metagraph.a_star self.
Proof.
  unfold add_edges_from_step.
  intros (n1 & _ & (n2 & _ & [= <-])%result_bind_ok)%result_bind_ok.
  done.
Qed.

Lemma add_non_edges_a_star (self mg : Metagraph.t) (objs : list (nested Triple.t)) :
  add_non_edges self objs = Ok mg → Metagraph.a_star mg = Metagraph.a_star self.
Proof.
  unfold add_non_edges.
  apply (foldlM_invariant (λ m, Metagraph.a_star m = Metagraph.a_star self));
    [|done].
  intros x y b _ H. by apply raise_mg_not_ok in H.
Qed.

Lemma foldlMM_invariant {A B} (P : A → Prop) (f : A → B → M A) (l : list B)
    (a r : A) (s s' : nat) :
  (∀ x y b s0 s1, P x → b ∈ l → f x b s0 = Ok (y, s1) → P y) → P a →
  foldlMM f a l s = Ok (r, s') → P r.
Proof.
  revert a s. induction l as [|b l IH]; intros a s Hf Ha; cbn [foldlMM].
  { by intros [= <- _]. }
  intros (a' & s1 & Hstep & Hrest)%M_bind_ok.
  apply (IH a' s1); [|by eapply Hf; [|left|]|done].
  intros x y b' s0 s2 Hx Hb'. apply Hf; [done|by right].
Qed.

Lemma fold_left_invariant {A B} (P : A → Prop) (f : A → B → A) (l : list B) (a : A) :
  (∀ x b, P x → b ∈ l → P (f x b)) → P a → P (fold_left f l a).
Proof.
  revert a. induction l as [|b l IH]; intros a Hf Ha; cbn [fold_left]; [done|].
  apply IH.
  - intros x b' Hx Hb'. apply Hf; [done|by right].
  - apply Hf; [done|by left].
Qed.

(** ** What a query reads from the matrix *)

Lemma fold_append_new_elem (edges acc : list Edge.t) (e : Edge.t) :
  e ∈ fold_left append_new edges acc → e ∈ acc ∨ e ∈ edges.
Proof.
  revert acc. induction edges as [|x edges IH]; intros acc; cbn [fold_left]; [by left|].
  intros [H|H]%IH; [|right; by right].
  unfold append_new in H. destruct (edge_in x acc); [by left|].
  apply elem_of_app in H as [H|H%list_elem_of_singleton]; [by left|].
  right. subst. by left.
Qed.

Lemma fold_append_new_occurs (a : matrix) (edges acc : list Edge.t) :
  Forall (occurs_in a) acc → Forall (occurs_in a) edges →
  Forall (occurs_in a) (fold_left append_new edges acc).
Proof.
  intros Hacc Hedges. apply Forall_forall. intros e [He|He]%fold_append_new_elem.
  - by eapply (proj1 (Forall_forall _ _) Hacc).
  - by eapply (proj1 (Forall_forall _ _) Hedges).
Qed.

Lemma scan_target_reads (X : gset element) (a : matrix) (i : nat) (x_j : element)
    (st st' : bool * list (element + gset element) * list Edge.t) :
  scan_target X a i st x_j = Ok st' →
  Forall (occurs_in a) st.2 → Forall (occurs_in a) st'.2.
Proof.
  destruct st as [[metapath_exist cumulative_output] cumulative_edges].
  unfold scan_target.
  intros (j & _ & (row & Hrow & (c & Hc & H)%result_bind_ok)%result_bind_ok)%result_bind_ok.
  destruct c as [nested_triples|]; [|by injection H as <-].
  apply result_bind_ok in H as (triples & Htriples & [= <-]).
  intros Hst. cbn [snd] in Hst.
  assert (cell_at a i j = Some (Some nested_triples)) as Hcell.
  { unfold index in Hrow, Hc. unfold cell_at.
    destruct (a !! i) as [row'|]; [|done]. injection Hrow as ->. cbn.
    destruct (row !! j) as [c|]; [|done]. by injection Hc as ->. }
  apply (fold_left_invariant (λ st, Forall (occurs_in a) st.2)); [|done].
  intros [[m co] ce] triple Hce Htriple. cbn [snd] in Hce |- *.
  apply fold_append_new_occurs; [done|].
  apply Forall_forall. intros e He.
  exists i, j, nested_triples, triples, triple. repeat split; [done|done|done|].
  by destruct (Triple.edges triple).
Qed.

Lemma scan_rows_reads (X : gset element) (a : matrix) (tgt : gset element)
    (rows : list nat) (acc edges : list Edge.t) :
  scan_rows X a tgt rows acc = Ok (Some edges) →
  Forall (occurs_in a) acc → Forall (occurs_in a) edges.
Proof.
  revert acc. induction rows as [|i rows IH]; intros acc; cbn [scan_rows].
  { by intros [= <-]. }
  intros (st & Hst & H)%result_bind_ok Hacc.
  destruct st as [[metapath_exist cumulative_output] cumulative_edges].
  destruct metapath_exist; cbn [negb] in H; [|done].
  assert (Forall (occurs_in a) cumulative_edges) as Hce.
  { apply (foldlM_invariant (λ st, Forall (occurs_in a) st.2) _ _ _ _
             (λ x y b Hx Hstep, scan_target_reads X a i b x y Hstep Hx)) in Hst; [done|].
    constructor. }
  apply (IH _ H). destruct (forallb _ _); [|done].
  by apply fold_append_new_occurs.
Qed.

Lemma Metapath_init_ok (src tgt : gset element) (path : list Edge.t) (mp : Metapath.t) :
  Metapath.init (Some src) (Some tgt) path = Ok mp →
  Metapath.source mp = src ∧ Metapath.target mp = tgt ∧ Metapath.edge_list mp = path.
Proof.
  unfold Metapath.init.
  destruct (bool_decide _); [by intros H; apply raise_mg_not_ok in H|].
  destruct (bool_decide _); [by intros H; apply raise_mg_not_ok in H|].
  by intros [= <-].
Qed.

(** A query that returns has read one matrix: the cache when there is one,
    the closure it computes otherwise.  That matrix is the cache afterwards,
    and the answer is drawn from it. *)
Lemma get_all_metapaths_from_reads (self mg : Metagraph.t) (src tgt : gset element)
    (metapaths : option (list Metapath.t)) (s s' : nat) :
  get_all_metapaths_from self (Some src) (Some tgt) s = Ok ((metapaths, mg), s') →
  ∃ a s1,
    match Metagraph.a_star self with
    | None => get_closure self s = Ok (a, s1)
    | Some cached => a = cached ∧ s1 = s
    end ∧
    Metagraph.a_star mg = Some a ∧
    answers_from (Metagraph.generating_set self) a src tgt metapaths.
Proof.
  unfold get_all_metapaths_from.
  repeat (destruct (bool_decide _); cbn [negb];
          [by intros [H _]%lift_ok; apply raise_mg_not_ok in H|]).
  cbn [negb].
  repeat (destruct (bool_decide _); cbn [negb];
          [|by intros [H _]%lift_ok; apply raise_mg_not_ok in H]).
  intros (a & s1 & Ha & (rows & s2 & [Hrows ->]%lift_ok &
            (found & s3 & [Hfound ->]%lift_ok & H)%M_bind_ok)%M_bind_ok)%M_bind_ok.
  exists a, s1. split.
  { destruct (Metagraph.a_star self); [by apply mret_ok in Ha|done]. }
  assert (candidate_edges (Metagraph.generating_set self) a src tgt = Ok found) as Hcand.
  { unfold candidate_edges. by rewrite Hrows. }
  destruct found as [edges|].
  - apply M_bind_ok in H as (valid & s4 & Hvalid & [[= -> ->] _]%mret_ok).
    split; [done|]. exists (Some edges). split; [done|]. split.
    + eapply scan_rows_reads; [done|constructor].
    + revert Hvalid. apply foldlMM_invariant; [|constructor].
      intros x y path s0 s5 Hx Hpath
        (mp & s6 & [Hmp ->]%lift_ok & (ok & s7 & Hok & [-> _]%mret_ok)%M_bind_ok)%M_bind_ok.
      destruct ok; [|done]. apply Forall_app. split; [done|].
      constructor; [|constructor].
      by apply Metapath_init_ok in Hmp as (-> & -> & ->).
  - apply mret_ok in H as [[= -> ->] _]. split; [done|]. by exists None.
Qed.

Lemma combinations_In {A} (l : list A) (r : nat) (p : list A) (x : A) :
  In p (combinations l r) → In x p → In x l.
Proof.
  revert r p. induction l as [|y l IH]; intros [|r] p; cbn [combinations].
  - by intros [<-|[]].
  - by intros [].
  - by intros [<-|[]].
  - intros [(q & <- & Hq)%in_map_iff|Hp]%in_app_or Hx.
    + destruct Hx as [->|Hx]; [by left|right; by eapply IH].
    + right. by eapply IH.
Qed.

Lemma all_subsets_elem {A} (l p : list A) (x : A) :
  p ∈ all_subsets l → x ∈ p → x ∈ l.
Proof.
  unfold all_subsets. rewrite !list_elem_of_In.
  intros (c & (r & <- & _)%in_map_iff & Hp)%in_concat Hx.
  by eapply combinations_In.
Qed.

(** C7, as the code has it: no mutation touches the cached closure.
    [add_edge], [add_edges_from], [remove_edge], [add_metagraph] and
    [multiply_metagraph] hand the cache on as they found it, and
    [get_all_metapaths_from] computes a closure only when the cache is empty
    (and then stores it).  A cache that is present is kept as it is and is
    what the query reads, whatever has happened to the edges since: the
    scan of the cached matrix decides whether the answer is [None], every
    metapath of the answer is a selection of the edges that this scan
    collects, and every edge of such a metapath is an edge of a triple of
    the cached matrix. *)
Theorem mutations_keep_cache (self : Metagraph.t) :
  (∀ edge mg, add_edge self edge = Ok mg →
     Metagraph.a_star mg = Metagraph.a_star self) ∧
  (∀ edge_list mg, add_edges_from self edge_list = Ok mg →
     Metagraph.a_star mg = Metagraph.a_star self) ∧
  (∀ edge mg, remove_edge self edge = Ok mg →
     Metagraph.a_star mg = Metagraph.a_star self) ∧
  (∀ metagraph2 mg, add_metagraph self metagraph2 = Ok mg →
     Metagraph.a_star mg = Metagraph.a_star self) ∧
  (∀ metagraph2 mg s s', multiply_metagraph self metagraph2 s = Ok (mg, s') →
     Metagraph.a_star mg = Metagraph.a_star self) ∧
  (∀ cached source target metapaths mg s s',
     Metagraph.a_star self = Some cached →
     get_all_metapaths_from self source target s = Ok ((metapaths, mg), s') →
     Metagraph.a_star mg = Some cached) ∧
  (∀ source target metapaths mg s s',
     Metagraph.a_star self = None →
     get_all_metapaths_from self source target s = Ok ((metapaths, mg), s') →
     ∃ closure s1, get_closure self s = Ok (closure, s1) ∧
       Metagraph.a_star mg = Some closure) ∧
  (∀ cached src tgt metapaths mg s s',
     Metagraph.a_star self = Some cached →
     get_all_metapaths_from self (Some src) (Some tgt) s = Ok ((metapaths, mg), s') →
     answers_from (Metagraph.generating_set self) cached src tgt metapaths ∧
     ∀ valid_metapaths mp e,
       metapaths = Some valid_metapaths → mp ∈ valid_metapaths →
       e ∈ Metapath.edge_list mp → occurs_in cached e) ∧
  (∀ src tgt metapaths mg s s',
     Metagraph.a_star self = None →
     get_all_metapaths_from self (Some src) (Some tgt) s = Ok ((metapaths, mg), s') →
     ∃ closure s1, get_closure self s = Ok (closure, s1) ∧
       answers_from (Metagraph.generating_set self) closure src tgt metapaths).
Proof.
  assert (∀ a src tgt metapaths,
            answers_from (Metagraph.generating_set self) a src tgt metapaths →
            ∀ valid_metapaths mp e,
              metapaths = Some valid_metapaths → mp ∈ valid_metapaths →
              e ∈ Metapath.edge_list mp → occurs_in a e) as Hedges.
  { intros a src tgt metapaths (found & _ & Hfound) valid mp e -> Hmp He.
    destruct found as [edges|]; [|done]. destruct Hfound as [Hocc Hsel].
    destruct (proj1 (Forall_forall _ _) Hsel mp Hmp) as (_ & _ & Hpath).
    apply (proj1 (Forall_forall _ _) Hocc). by eapply all_subsets_elem. }
  assert (∀ source target metapaths mg s s',
            get_all_metapaths_from self source target s = Ok ((metapaths, mg), s') →
            ∃ src tgt, source = Some src ∧ target = Some tgt) as Hargs.
  { intros [src|] [tgt|] metapaths mg s s'; cbn [get_all_metapaths_from].
    - by exists src, tgt.
    - destruct (bool_decide _); by intros [H _]%lift_ok; apply raise_mg_not_ok in H.
    - by intros [H _]%lift_ok; apply raise_mg_not_ok in H.
    - by intros [H _]%lift_ok; apply raise_mg_not_ok in H. }
  split; [|split; [|split; [|split; [|split; [|split; [|split; [|split]]]]]]].
  - intros edge mg. apply add_edge_a_star.
  - intros [l|] mg; cbn; [|by intros H; apply raise_mg_not_ok in H].
    destruct (bool_decide _); [by intros H; apply raise_mg_not_ok in H|].
    apply (foldlM_invariant (λ m, Metagraph.a_star m = Metagraph.a_star self));
      [|done].
    intros x y e Hx Hstep. apply add_edges_from_step_a_star in Hstep. congruence.
  - intros edge mg [= <-]. done.
  - intros metagraph2 mg. unfold add_metagraph.
    destruct (bool_decide _); [by intros H; apply raise_mg_not_ok in H|].
    apply (foldlM_invariant (λ m, Metagraph.a_star m = Metagraph.a_star self));
      [|done].
    intros x y e Hx. destruct (edge_in e (Metagraph.edges x)).
    + by intros [= <-].
    + intros Hstep%add_edge_a_star. congruence.
  - intros metagraph2 mg s s'. unfold multiply_metagraph.
    destruct (bool_decide _); [by intros [H _]%lift_ok; apply raise_mg_not_ok in H|].
    destruct (negb _); [by intros [H _]%lift_ok; apply raise_mg_not_ok in H|].
    intros (a1 & s1 & _ & (a2 & s2 & _ & (m & s3 & _ & (l & s4 & _ & H)%M_bind_ok
      )%M_bind_ok)%M_bind_ok)%M_bind_ok.
    destruct (bool_decide _).
    + apply lift_ok in H as [H _]. by apply add_non_edges_a_star in H.
    + by apply mret_ok in H as [-> _].
  - intros cached source target metapaths mg s s' Hcached Hrun.
    destruct (Hargs _ _ _ _ _ _ Hrun) as (src & tgt & -> & ->).
    apply get_all_metapaths_from_reads in Hrun as (a & s1 & Ha & Hmg & _).
    rewrite Hcached in Ha. destruct Ha as [-> _]. done.
  - intros source target metapaths mg s s' Hnone Hrun.
    destruct (Hargs _ _ _ _ _ _ Hrun) as (src & tgt & -> & ->).
    apply get_all_metapaths_from_reads in Hrun as (a & s1 & Ha & Hmg & _).
    rewrite Hnone in Ha. by exists a, s1.
  - intros cached src tgt metapaths mg s s' Hcached Hrun.
    apply get_all_metapaths_from_reads in Hrun as (a & s1 & Ha & _ & Hanswer).
    rewrite Hcached in Ha. destruct Ha as [-> _].
    split; [done|]. by eapply Hedges.
  - intros src tgt metapaths mg s s' Hnone Hrun.
    apply get_all_metapaths_from_reads in Hrun as (a & s1 & Ha & _ & Hanswer).
    rewrite Hnone in Ha. by exists a, s1.
Qed.

(** [mg_12_cached] is [mg_12] after a first query, which fills the cache
    with the closure of the empty edge list. *)
Example mg_12_cached_built :
  (r ← get_all_metapaths_from mg_12 (Some (ints [1])) (Some (ints [2])) 0%nat;
   Ok (fst r)) = Ok (None, mg_12_cached).
Proof. by_eval. Qed.

Lemma mutations_keep_cache_witness :
  ∃ mg, add_edge mg_12_cached edge_1_2 = Ok mg ∧
    Metagraph.a_star mg = Metagraph.a_star mg_12_cached ∧
    Metagraph.edges mg = [edge_1_2] ∧
    answers_from (ints [1; 2]) [[None; None]; [None; None]] (ints [1]) (ints [2]) None.
Proof.
  set (mg := Metagraph.mk (Metagraph.nodes mg_forth) [edge_1_2] (ints [1; 2])
               (Metagraph.a_star mg_12_cached)).
  assert (add_edge mg_12_cached edge_1_2 = Ok mg) as Hadd by by_eval.
  assert (get_all_metapaths_from mg (Some (ints [1])) (Some (ints [2])) 0%nat
          = Ok ((None, mg), 0%nat)) as Hquery by by_eval.
  exists mg. split; [exact Hadd|].
  split; [exact (proj1 (mutations_keep_cache mg_12_cached) _ _ Hadd)|].
  split; [reflexivity|].
  destruct (mutations_keep_cache mg) as (_ & _ & _ & _ & _ & _ & _ & Hcached & _).
  exact (proj1 (Hcached _ _ _ _ _ _ _ eq_refl Hquery)).
Defined.

(** C7 as stated fails.  After [add_edge] the cache of [mg_12_cached] is
    still there, it is not the closure of the edges now held (which has an
    entry from 1 to 2), and the next query answers from it: no metapath from
    1 to 2, where a metagraph built with the same edge finds one. *)
Lemma cache_not_invalidated_counterexample :
  (mg ← add_edge mg_12_cached edge_1_2;
   Ok (Metagraph.edges mg, Metagraph.a_star mg))
    = Ok ([edge_1_2], Some [[None; None]; [None; None]]) ∧
  (mg ← add_edge mg_12_cached edge_1_2;
   c ← get_closure mg 0%nat;
   i ← list_index (EInt 1) (elements (ints [1; 2]));
   j ← list_index (EInt 2) (elements (ints [1; 2]));
   row ← index (support (fst c)) i;
   index row j) = Ok true ∧
  (mg ← add_edge mg_12_cached edge_1_2;
   r ← get_all_metapaths_from mg (Some (ints [1])) (Some (ints [2])) 0%nat;
   Ok (fst (fst r))) = Ok None ∧
  (r ← get_all_metapaths_from mg_forth (Some (ints [1])) (Some (ints [2])) 0%nat;
   Ok (option_map (map Metapath.edge_list) (fst (fst r)))) = Ok (Some [[edge_1_2]]).
Proof. split; [by_eval | split; [by_eval | split; by_eval]]. Qed.

(** ** The closure never raises: totality of the matrix operations *)

Lemma M_bind_run {A B} (m : M A) (f : A → M B) (s s1 : nat) (a : A) :
  m s = Ok (a, s1) → (m ≫= f) s = f a s1.
Proof. intros H. unfold mbind, M_bind. by rewrite H. Qed.


Lemma lift_run {A} (a : A) (s : nat) : lift (Ok a) s = Ok (a, s).
Proof. done. Qed.

Lemma foldlMM_total {A B} (P : A → Prop) (Q : B → Prop) (f : A → B → M A)
    (l : list B) (a : A) (s : nat) :
  Forall Q l → P a →
  (∀ a b s, P a → Q b → ∃ a' s', f a b s = Ok (a', s') ∧ P a') →
  ∃ r s', foldlMM f a l s = Ok (r, s') ∧ P r.
Proof.
  intros Hl Ha Hf. revert a s Ha.
  induction Hl as [|b l Hb Hl IH]; intros a s Ha; cbn [foldlMM].
  { by exists a, s. }
  destruct (Hf a b s Ha Hb) as (a' & s' & Hrun & Ha').
  rewrite (M_bind_run _ _ _ _ _ Hrun). by apply IH.
Qed.

Lemma mapMM_total {A B} (Q : A → Prop) (R : B → Prop) (f : A → M B)
    (l : list A) (s : nat) :
  Forall Q l →
  (∀ a s, Q a → ∃ b s', f a s = Ok (b, s') ∧ R b) →
  ∃ r s', mapMM f l s = Ok (r, s') ∧ length r = length l ∧ Forall R r.
Proof.
  intros Hl Hf. revert s.
  induction Hl as [|a l Ha Hl IH]; intros s; cbn [mapMM].
  { by exists [], s. }
  destruct (Hf a s Ha) as (b & s1 & Hrun & Hb).
  rewrite (M_bind_run _ _ _ _ _ Hrun).
  destruct (IH s1) as (r & s2 & Hrest & Hlen & Hr).
  rewrite (M_bind_run _ _ _ _ _ Hrest).
  exists (b :: r), s2. cbn. by rewrite Hlen; auto.
Qed.

Lemma range_lt (n : nat) : Forall (λ i, i < n)%nat (range n).
Proof. apply Forall_forall. intros i Hi. unfold range in Hi. apply elem_of_seq in Hi. lia. Qed.

Lemma fill_matrix_total (n : nat) (P : cell → Prop) (f : nat → nat → M cell) (s : nat) :
  (∀ i j s, (i < n)%nat → (j < n)%nat → ∃ c s', f i j s = Ok (c, s') ∧ P c) →
  ∃ m s', fill_matrix n n f s = Ok (m, s') ∧ square n P m.
Proof.
  intros Hf. unfold fill_matrix.
  destruct (mapMM_total (λ i, i < n)%nat (λ row, length row = n ∧ Forall P row)
              (λ i, mapMM (λ j, f i j) (range n)) (range n) s (range_lt n))
    as (m & s' & Hrun & Hlen & Hrows).
  - intros i s0 Hi.
    destruct (mapMM_total (λ j, j < n)%nat P (λ j, f i j) (range n) s0 (range_lt n))
      as (row & s1 & Hrow & Hlen & Hcells); [by auto|].
    exists row, s1. unfold range in Hlen. by rewrite length_seq in Hlen.
  - exists m, s'. split; [done|]. split; [|done].
    unfold range in Hlen. by rewrite length_seq in Hlen.
Qed.

Lemma square_index (n : nat) (P : cell → Prop) (m : matrix) (i j : nat) :
  square n P m → (i < n)%nat → (j < n)%nat →
  ∃ row c, index m i = Ok row ∧ index row j = Ok c ∧ P c.
Proof.
  intros [Hlen Hrows] Hi Hj.
  destruct (lookup_lt_is_Some_2 m i) as [row Hrow]; [lia|].
  destruct (proj1 (Forall_forall _ _) Hrows row) as [Hrlen Hcells].
  { by eapply list_elem_of_lookup_2. }
  destruct (lookup_lt_is_Some_2 row j) as [c Hc]; [lia|].
  exists row, c. unfold index. rewrite Hrow, Hc. repeat split.
  eapply (proj1 (Forall_forall _ _) Hcells). by eapply list_elem_of_lookup_2.
Qed.

Lemma square_weaken (n : nat) (P Q : cell → Prop) (m : matrix) :
  (∀ c, P c → Q c) → square n P m → square n Q m.
Proof.
  intros HPQ [Hlen Hrows]. split; [done|].
  eapply Forall_impl; [exact Hrows|]. intros row [Hrlen Hcells]. split; [done|].
  by eapply Forall_impl.
Qed.

Lemma elements_index (X : gset element) (i : nat) :
  (i < size X)%nat → ∃ x, index (elements X) i = Ok x.
Proof.
  intros Hi. destruct (lookup_lt_is_Some_2 (elements X) i) as [x Hx]; [done|].
  exists x. unfold index. by rewrite Hx.
Qed.

Lemma are_edges_equal_items (e1 e2 : Edge.t) :
  ∃ b, are_edges_equal (Item e1) (Item e2) = Ok b.
Proof.
  unfold are_edges_equal.
  destruct (Edge.attributes e1), (Edge.attributes e2); eauto.
Qed.

Lemma is_edge_in_list_cons (edge x : nested Edge.t) (l : list (nested Edge.t)) :
  is_edge_in_list edge (Nest (x :: l)) =
  (result ← is_edge_in_list edge x;
   if result : bool then Ok true else is_edge_in_list edge (Nest l)).
Proof. reflexivity. Qed.

Lemma is_triple_in_list_cons (triple : Triple.t) (x : nested Triple.t)
    (l : list (nested Triple.t)) :
  is_triple_in_list triple (Nest (x :: l)) =
  (result ← is_triple_in_list triple x;
   if result : bool then Ok true else is_triple_in_list triple (Nest l)).
Proof. reflexivity. Qed.

Lemma is_edge_in_list_items (e : Edge.t) (l : list (nested Edge.t)) :
  Forall is_item l → ∃ b, is_edge_in_list (Item e) (Nest l) = Ok b.
Proof.
  induction 1 as [|x l [e' ->] Hl [b IH]]; [by exists false|].
  rewrite is_edge_in_list_cons. cbn [is_edge_in_list].
  destruct (are_edges_equal_items e e') as [[] ->]; cbn [mbind result_bind]; eauto.
Qed.

Lemma edges_all_in_items (l1 l2 : list (nested Edge.t)) :
  Forall is_item l1 → Forall is_item l2 →
  ∃ b, edges_all_in l1 (Nest l2) = Ok b.
Proof.
  intros Hl1 Hl2. induction Hl1 as [|x l1 [e ->] Hl1 IH]; [by exists true|].
  cbn [edges_all_in].
  destruct (is_edge_in_list_items e l2 Hl2) as [[] ->]; cbn; eauto.
Qed.

Lemma are_triples_equal_products (t1 t2 : Triple.t) :
  product_edges (Triple.edges t1) → product_edges (Triple.edges t2) →
  ∃ b, are_triples_equal t1 t2 = Ok b.
Proof.
  intros (l1 & H1 & Hl1) (l2 & H2 & Hl2). unfold are_triples_equal.
  rewrite H1, H2. cbn [iter_edges mbind result_bind].
  destruct (edges_all_in_items l1 l2 Hl1 Hl2) as [b1 ->].
  destruct (edges_all_in_items l2 l1 Hl2 Hl1) as [b2 ->].
  cbn. eauto.
Qed.

Lemma is_triple_in_list_products (t : Triple.t) (ts : list Triple.t) :
  product_triple t → Forall product_triple ts →
  ∃ b, is_triple_in_list t (Nest (Item <$> ts)) = Ok b.
Proof.
  intros Ht. induction 1 as [|t' ts Ht' Hts [b IH]]; [by exists false|].
  rewrite fmap_cons, is_triple_in_list_cons. cbn [is_triple_in_list].
  destruct (are_triples_equal_products t t' Ht Ht') as [[] ->];
    cbn [mbind result_bind]; eauto.
Qed.

Lemma append_triple_products (result : list Triple.t) (t : Triple.t) (s : nat) :
  Forall product_triple result → product_triple t →
  ∃ result', append_triple result t s = Ok (result', s) ∧
    Forall product_triple result'.
Proof.
  intros Hres Ht. unfold append_triple.
  destruct (is_triple_in_list_products t result Ht Hres) as [b Hb].
  unfold mbind, M_bind. rewrite Hb. cbn.
  destruct b; eexists; (split; [reflexivity|]); [done|].
  apply Forall_app. auto.
Qed.

Lemma edge_items_plain (edges : nested Edge.t) :
  plain_edges edges → Forall is_item (edge_items edges).
Proof.
  intros [[e ->]|(l & -> & Hl)]; cbn; [|done].
  constructor; [by exists e|constructor].
Qed.

Lemma truncate_step_items (truncated : list (nested Edge.t)) (edges : nested Edge.t) :
  Forall is_item truncated → plain_edges edges →
  Forall is_item (truncate_step truncated edges).
Proof.
  intros Htr Hplain. unfold truncate_step.
  destruct (py_in Edge.id edges truncated); [done|].
  destruct Hplain as [[e ->]|(l & -> & Hl)]; [|done].
  apply Forall_app. split; [done|]. constructor; [by exists e|constructor].
Qed.

Lemma multiply_triples_plain (t1 t2 : Triple.t) (x_i x_j x_k : element) (s : nat) :
  plain_triple t1 → plain_triple t2 →
  ∃ t, multiply_triples (Some t1) (Some t2) x_i x_j x_k s = Ok (Some t, S s) ∧
    product_triple t.
Proof.
  intros H1 H2. eexists. split; [apply multiply_triples_run|].
  eexists. split; [reflexivity|].
  apply truncate_step_items; [|done].
  rewrite truncate_step_first. by apply edge_items_plain.
Qed.

Lemma multiply_triple_lists_plain (c1 c2 : cell) (x_i x_j x_k : element) (s : nat) :
  flat_cell plain_triple c1 → flat_cell plain_triple c2 →
  ∃ r s', multiply_triple_lists c1 c2 x_i x_j x_k s = Ok (r, s') ∧
    from_option (Forall product_triple) True r.
Proof.
  intros H1 H2. unfold multiply_triple_lists.
  destruct c1 as [x1|]; [|by exists None, s].
  destruct c2 as [x2|]; [|by exists None, s].
  destruct H1 as (l1 & -> & Hl1), H2 as (l2 & -> & Hl2).
  cbn [iter_triples]. rewrite (M_bind_run _ _ _ _ _ (lift_run l1 s)).
  match goal with |- ∃ r s', (foldlMM ?f [] l1 ≫= _) s = _ ∧ _ =>
    destruct (foldlMM_total (Forall product_triple)
                (λ y, ∃ t, y = Item t ∧ plain_triple t) f l1 [] s Hl1)
      as (r & s' & Hrun & Hr)
  end.
  - constructor.
  - intros result y1 s0 Hres (t1 & -> & Ht1).
    rewrite (M_bind_run _ _ _ _ _ (lift_run l2 s0)).
    apply (foldlMM_total (Forall product_triple)
             (λ y, ∃ t, y = Item t ∧ plain_triple t)); [done|done|].
    intros result' y2 s1 Hres' (t2 & -> & Ht2).
    destruct (multiply_triples_plain t1 t2 x_i x_j x_k s1 Ht1 Ht2)
      as (t & Hmul & Ht).
    rewrite (M_bind_run _ _ _ _ _ Hmul).
    destruct (append_triple_products result' t (S s1) Hres' Ht)
      as (result'' & Happ & Hres'').
    eauto.
  - rewrite (M_bind_run _ _ _ _ _ Hrun). by exists (Some r), s'.
Qed.

Lemma product_plain (t : Triple.t) : product_triple t → plain_triple t.
Proof. intros H. by right. Qed.

Lemma flat_cell_of_list (P : Triple.t → Prop) (ts : list Triple.t) :
  Forall P ts → flat_cell P (Some (Nest (Item <$> ts))).
Proof.
  intros Hts. eexists. split; [reflexivity|].
  apply Forall_fmap. eapply Forall_impl; [exact Hts|]. intros t Ht. by exists t.
Qed.

Lemma multiply_components_plain (adjacency_matrix1 adjacency_matrix2 : matrix)
    (X : gset element) (i j : nat) (s : nat) :
  square (size X) (flat_cell plain_triple) adjacency_matrix1 →
  square (size X) (flat_cell plain_triple) adjacency_matrix2 →
  (i < size X)%nat → (j < size X)%nat →
  ∃ c s', multiply_components adjacency_matrix1 adjacency_matrix2 X i j (size X) s
            = Ok (c, s') ∧ flat_cell plain_triple c.
Proof.
  intros H1 H2 Hi Hj. unfold multiply_components.
  rewrite bool_decide_eq_false_2 by lia.
  match goal with |- ∃ c s', (foldlMM ?f [] _ ≫= _) s = _ ∧ _ =>
    destruct (foldlMM_total (Forall product_triple) (λ k, k < size X)%nat f
                (range (size X)) [] s (range_lt _))
      as (r & s' & Hrun & Hr)
  end.
  - constructor.
  - intros result k s0 Hres Hk.
    destruct (square_index _ _ _ i k H1 Hi Hk) as (row_i & a_ik & -> & Ha & Hca).
    rewrite (M_bind_run _ _ _ _ _ (lift_run _ _)). rewrite Ha.
    rewrite (M_bind_run _ _ _ _ _ (lift_run _ _)).
    destruct (square_index _ _ _ k j H2 Hk Hj) as (row_k & b_kj & -> & Hb & Hcb).
    rewrite (M_bind_run _ _ _ _ _ (lift_run _ _)). rewrite Hb.
    rewrite (M_bind_run _ _ _ _ _ (lift_run _ _)).
    destruct (elements_index X i Hi) as [x_i ->].
    rewrite (M_bind_run _ _ _ _ _ (lift_run _ _)).
    destruct (elements_index X j Hj) as [x_j ->].
    rewrite (M_bind_run _ _ _ _ _ (lift_run _ _)).
    destruct (elements_index X k Hk) as [x_k ->].
    rewrite (M_bind_run _ _ _ _ _ (lift_run _ _)).
    destruct (multiply_triple_lists_plain a_ik b_kj x_i x_j x_k s0 Hca Hcb)
      as (temp & s1 & Hmul & Htemp).
    rewrite (M_bind_run _ _ _ _ _ Hmul).
    destruct temp as [l|]; [|by exists result, s1].
    apply (foldlMM_total (Forall product_triple) product_triple); [done|done|].
    intros result' t s2 Hres' Ht.
    destruct (append_triple_products result' t s2 Hres' Ht) as (r' & Happ & Hr').
    eauto.
  - rewrite (M_bind_run _ _ _ _ _ Hrun). eexists _, s'. split; [reflexivity|].
    destruct (bool_decide _); [done|].
    apply flat_cell_of_list. eapply Forall_impl; [exact Hr|]. apply product_plain.
Qed.

Lemma same_set_test (X : gset element) :
  bool_decide (size (X ∖ X) = 0%nat) && bool_decide (size (X ∖ X) = 0%nat) = true.
Proof.
  replace (X ∖ X) with (∅ : gset element) by set_solver.
  by rewrite size_empty.
Qed.

Lemma multiply_adjacency_matrices_plain (a adjacency_matrix : matrix)
    (X : gset element) (s : nat) :
  square (size X) (flat_cell plain_triple) a →
  square (size X) (flat_cell plain_triple) adjacency_matrix →
  ∃ m s', multiply_adjacency_matrices a X adjacency_matrix X s = Ok (m, s') ∧
    square (size X) (flat_cell plain_triple) m.
Proof.
  intros Ha HA. unfold multiply_adjacency_matrices.
  rewrite same_set_test. cbn [negb].
  apply fill_matrix_total. intros i j s0 Hi Hj.
  by apply multiply_components_plain.
Qed.

Lemma add_adjacency_matrices_square (P Q : cell → Prop) (a_star a : matrix)
    (X : gset element) (s : nat) :
  square (size X) P a_star → square (size X) Q a →
  ∃ m s', add_adjacency_matrices a_star X a X s = Ok (m, s') ∧
    square (size X) (λ _, True) m.
Proof.
  intros Hstar Ha. unfold add_adjacency_matrices. rewrite same_set_test.
  apply fill_matrix_total. intros i j s0 Hi Hj.
  destruct (square_index _ _ _ i j Hstar Hi Hj) as (row1 & c1 & -> & H1 & _).
  rewrite (M_bind_run _ _ _ _ _ (lift_run _ _)). rewrite H1.
  rewrite (M_bind_run _ _ _ _ _ (lift_run _ _)).
  destruct (square_index _ _ _ i j Ha Hi Hj) as (row2 & c2 & -> & H2 & _).
  rewrite (M_bind_run _ _ _ _ _ (lift_run _ _)). rewrite H2.
  rewrite (M_bind_run _ _ _ _ _ (lift_run _ _)).
  by eexists _, s0.
Qed.

Lemma adjacency_table_plain (self : Metagraph.t) (s : nat) :
  ∃ m s', adjacency_table self s = Ok (m, s') ∧
    square (size (Metagraph.generating_set self)) (flat_cell plain_triple) m.
Proof.
  unfold adjacency_table. apply fill_matrix_total. intros i j s0 Hi Hj.
  destruct (elements_index _ i Hi) as [x_i ->].
  rewrite (M_bind_run _ _ _ _ _ (lift_run _ _)).
  destruct (elements_index _ j Hj) as [x_j ->].
  rewrite (M_bind_run _ _ _ _ _ (lift_run _ _)).
  destruct (bool_decide _); [|by exists None, s0].
  match goal with |- ∃ c s', (foldlMM ?f [] ?l ≫= _) s0 = _ ∧ _ =>
    destruct (foldlMM_total (Forall plain_triple) (λ _, True) f l [] s0)
      as (r & s' & Hrun & Hr)
  end.
  - by apply Forall_true.
  - constructor.
  - intros triples_list edge s1 Hts _. eexists _, (S s1). split; [reflexivity|].
    cbn [Triple.id]. destruct (triple_in _ _); [done|].
    apply Forall_app. split; [done|]. constructor; [|constructor].
    left. by eexists.
  - rewrite (M_bind_run _ _ _ _ _ Hrun). eexists _, s'. split; [reflexivity|].
    by apply flat_cell_of_list.
Qed.

(** [matrix(rows)] either raises or hands the rows on; a table without a
    row becomes one row without a cell. *)
Lemma numpy_matrix_ok (rows m : matrix) :
  numpy_matrix rows = Ok m → rows ≠ [] → m = rows.
Proof.
  unfold numpy_matrix. destruct rows as [|row rows]; [done|].
  destruct (one_length _); [done|]. by intros [= <-].
Qed.

Lemma numpy_matrix_square (n : nat) (P : cell → Prop) (rows m : matrix) :
  numpy_matrix rows = Ok m → square n P rows → (0 < n)%nat → square n P m.
Proof.
  intros Hm Hsq Hn. rewrite (numpy_matrix_ok rows m Hm); [done|].
  destruct Hsq as [Hlen _]. destruct rows; [cbn in Hlen; lia|done].
Qed.

Lemma adjacency_matrix_run (self : Metagraph.t) (s s0 : nat) (table : matrix) :
  adjacency_table self s = Ok (table, s0) →
  adjacency_matrix self s = lift (numpy_matrix table) s0.
Proof. intros Htable. unfold adjacency_matrix. by rewrite (M_bind_run _ _ _ _ _ Htable). Qed.

Lemma adjacency_matrix_ok (self : Metagraph.t) (s s0 : nat) (a : matrix) :
  adjacency_matrix self s = Ok (a, s0) →
  ∃ table, adjacency_table self s = Ok (table, s0) ∧ numpy_matrix table = Ok a.
Proof.
  destruct (adjacency_table_plain self s) as (table & s1 & Htable & _).
  rewrite (adjacency_matrix_run _ _ _ _ Htable).
  intros [Hnp ->]%lift_ok. by exists table.
Qed.

(** One round of the closure loop goes through on well-formed matrices,
    and its outcome is well formed again. *)
Lemma closure_step_total (X : gset element) (adjacency_matrix : matrix)
    (p : matrix * matrix) (s : nat) :
  square (size X) (flat_cell plain_triple) adjacency_matrix →
  square (size X) (flat_cell plain_triple) p.1 →
  square (size X) (λ _, True) p.2 →
  ∃ p' s', closure_step X adjacency_matrix p s = Ok (p', s') ∧
    square (size X) (flat_cell plain_triple) p'.1 ∧
    square (size X) (λ _, True) p'.2.
Proof.
  intros HA Ha Hstar. unfold closure_step.
  destruct (multiply_adjacency_matrices_plain p.1 adjacency_matrix X s Ha HA)
    as (a_next & s1 & Hmul & Hnext).
  rewrite (M_bind_run _ _ _ _ _ Hmul).
  destruct (add_adjacency_matrices_square _ _ p.2 a_next X s1 Hstar Hnext)
    as (a_star & s2 & Hadd & Hstar').
  rewrite (M_bind_run _ _ _ _ _ Hadd).
  by exists (a_next, a_star), s2.
Qed.

(** ** get_closure *)

Lemma closure_loop_round (X : gset element) (adjacency_matrix : matrix) (i : nat)
    (rest : list nat) (p p' : matrix * matrix) (s s1 : nat) :
  closure_step X adjacency_matrix p s = Ok (p', s1) →
  closure_loop X adjacency_matrix (i :: rest) p.1 p.2 s =
  if matrix_eq p'.1 p.1 then Ok (p'.2, s1)
  else closure_loop X adjacency_matrix rest p'.1 p'.2 s1.
Proof.
  unfold closure_step. cbn [closure_loop].
  intros (a_next & s2 & Hmul & (a_star & s3 & Hadd & [-> ->]%mret_ok)%M_bind_ok)%M_bind_ok.
  rewrite (M_bind_run _ _ _ _ _ Hmul), (M_bind_run _ _ _ _ _ Hadd). cbn [fst snd].
  by destruct (matrix_eq a_next p.1).
Qed.

Lemma closure_iterates_succ (X : gset element) (adjacency_matrix : matrix) (n : nat)
    (p p' : matrix * matrix) (s s1 : nat) :
  closure_step X adjacency_matrix p s = Ok (p', s1) →
  closure_iterates X adjacency_matrix (S n) p s =
  closure_iterates X adjacency_matrix n p' s1.
Proof. intros Hstep. cbn [closure_iterates]. by rewrite (M_bind_run _ _ _ _ _ Hstep). Qed.

Lemma exit_test_holds_first (X : gset element) (adjacency_matrix : matrix)
    (p p' : matrix * matrix) (s s1 : nat) :
  closure_step X adjacency_matrix p s = Ok (p', s1) →
  exit_test_holds X adjacency_matrix p s 0 ↔ matrix_eq p'.1 p.1 = true.
Proof.
  intros Hstep. split.
  - intros (q & s2 & q' & s3 & [= <- <-] & Hq & Heq).
    rewrite Hstep in Hq. by injection Hq as <- <-.
  - intros Heq. by exists p, s, p', s1.
Qed.

Lemma exit_test_holds_succ (X : gset element) (adjacency_matrix : matrix)
    (p p' : matrix * matrix) (s s1 : nat) (k : nat) :
  closure_step X adjacency_matrix p s = Ok (p', s1) →
  exit_test_holds X adjacency_matrix p s (S k) ↔
  exit_test_holds X adjacency_matrix p' s1 k.
Proof.
  intros Hstep. unfold exit_test_holds.
  by setoid_rewrite (closure_iterates_succ _ _ _ _ _ _ _ Hstep).
Qed.

Lemma closure_loop_rounds (X : gset element) (adjacency_matrix : matrix)
    (iters : list nat) (p : matrix * matrix) (s : nat) :
  square (size X) (flat_cell plain_triple) adjacency_matrix →
  square (size X) (flat_cell plain_triple) p.1 →
  square (size X) (λ _, True) p.2 →
  ∃ n q s',
    (n ≤ length iters)%nat ∧
    closure_iterates X adjacency_matrix n p s = Ok (q, s') ∧
    closure_loop X adjacency_matrix iters p.1 p.2 s = Ok (q.2, s') ∧
    (∀ k, (S k < n)%nat → ¬ exit_test_holds X adjacency_matrix p s k) ∧
    ((n < length iters)%nat →
     ∃ k, n = S k ∧ exit_test_holds X adjacency_matrix p s k).
Proof.
  intros HA. revert p s.
  induction iters as [|i rest IH]; intros p s Ha Hstar.
  { exists 0%nat, p, s. cbn. repeat split; [lia|lia|lia]. }
  destruct (closure_step_total X adjacency_matrix p s HA Ha Hstar)
    as (p' & s1 & Hstep & Ha' & Hstar').
  rewrite (closure_loop_round _ _ _ _ _ _ _ _ Hstep).
  destruct (matrix_eq p'.1 p.1) eqn:Heq.
  - exists 1%nat, p', s1. rewrite (closure_iterates_succ _ _ _ _ _ _ _ Hstep).
    cbn [length closure_iterates]. repeat split; [lia|lia|].
    intros _. exists 0%nat. split; [done|].
    by apply (exit_test_holds_first _ _ _ _ _ _ Hstep).
  - destruct (IH p' s1 Ha' Hstar') as (n & q & s' & Hn & Hiter & Hloop & Hno & Hlast).
    exists (S n), q, s'. rewrite (closure_iterates_succ _ _ _ _ _ _ _ Hstep).
    cbn [length]. repeat split; [lia|done|done| |].
    + intros [|k] Hk.
      * rewrite (exit_test_holds_first _ _ _ _ _ _ Hstep). congruence.
      * rewrite (exit_test_holds_succ _ _ _ _ _ _ _ Hstep). apply Hno. lia.
    + intros Hlt. destruct Hlast as (k & -> & Hk); [lia|].
      exists (S k). split; [done|].
      by apply (exit_test_holds_succ _ _ _ _ _ _ _ Hstep).
Qed.




(** [numpy.matrix] refuses a table in which every cell is a list and all
    these lists have one length.  The adjacency table of [mg_loop] is a
    single cell with one triple.  In [mg_back], with the edges 1 → 2 and
    2 → {1, 2}, the adjacency table has an empty cell and is accepted, and
    the rounds go through; the sum they leave has no empty cell and lists
    of one length, and [get_closure] ends in the error of [numpy.matrix]. *)
Example mg_back_built : add_edges_from mg_12 (Some [edge_1_2; edge_2_12]) = Ok mg_back.
Proof. by_eval. Qed.

Example adjacency_matrix_refused :
  adjacency_matrix mg_loop 0%nat = Raise (ValueError "matrix must be 2-dimensional").
Proof. by_eval. Qed.

Example get_closure_refused :
  (r ← adjacency_matrix mg_back 0%nat; Ok (support r.1, one_length (concat r.1)))
    = Ok ([[true; true]; [true; false]], false) ∧
  (r ← adjacency_matrix mg_back 0%nat;
   q ← closure_iterates (ints [1; 2]) r.1 2 (r.1, r.1) r.2;
   Ok (support q.1.2, one_length (concat q.1.2)))
    = Ok ([[true; true]; [true; true]], true) ∧
  get_closure mg_back 0%nat = Raise (ValueError "matrix must be 2-dimensional").
Proof. split; [by_eval | split; by_eval]. Qed.

(** The exit test compares triples by identity.  In [mg_self], the second
    and third power of the adjacency matrix hold the same values, and yet
    they do not compare equal: every product is a new object. *)
Example closure_exit_test_by_identity :
  (r ← adjacency_matrix mg_self 0%nat;
   p1 ← closure_step (ints [1; 2]) (fst r) (fst r, fst r) (snd r);
   p2 ← closure_step (ints [1; 2]) (fst r) (fst p1) (snd p1);
   Ok (matrix_eq (fst (fst p2)) (fst (fst p1)),
       bool_decide (summary (fst (fst p2)) = summary (fst (fst p1)))))
  = Ok (false, true).
Proof. by_eval. Qed.

(** ** The scenarios of the unit tests, replayed on the embedding *)

Example test_mg_creation :
  (mg ← test_mg1; Ok (length (Metagraph.edges mg), length (Metagraph.nodes mg)))
  = Ok (3%nat, 6%nat).
Proof. by_eval. Qed.

Example test_mg_incidence_matrix :
  (mg ← test_mg1; m ← incidence_matrix mg;
   i ← list_index (EInt 1) (elements (Metagraph.generating_set mg));
   row ← index m i;
   Ok (length m, row)) = Ok (7%nat, [Some (-1); Some (-1); None]).
Proof. by_eval. Qed.

Example test_mg_closure :
  (mg ← test_mg1; r ← get_closure mg 0%nat;
   i ← list_index (EInt 1) (elements (Metagraph.generating_set mg));
   j4 ← list_index (EInt 4) (elements (Metagraph.generating_set mg));
   j5 ← list_index (EInt 5) (elements (Metagraph.generating_set mg));
   row ← index (summary (fst r)) i;
   c4 ← index row j4; c5 ← index row j5;
   Ok (length (fst r), length row, c4, c5))
  = Ok (7%nat, 7%nat, None, Some [(Some (ints [4]), None, [2%nat])]).
Proof. by_eval. Qed.

Example test_mg_metapaths :
  (mg ← test_mg1;
   r ← get_all_metapaths_from mg (Some (ints [1])) (Some (ints [7])) 0%nat;
   Ok (option_map (map (λ mp, (Metapath.source mp, Metapath.target mp,
                               Edge.id <$> Metapath.edge_list mp))) (fst (fst r))))
  = Ok (Some [(ints [1], ints [7], [1%nat; 3%nat])]).
Proof. by_eval. Qed.

Example test_edge_properties :
  (mg ← test_mg1;
   c ← is_cutset mg (Some (PyList [test_edge 9 [1] [2; 3]]))
         (Some (ints [1])) (Some (ints [7])) 0%nat;
   b ← is_bridge mg (Some (PyList [test_edge 9 [1] [2; 3]]))
         (Some (ints [1])) (Some (ints [7])) 0%nat;
   Ok (fst c, fst b)) = Ok (true, true).
Proof. by_eval. Qed.

Example test_cmg_creation :
  (cmg ← test_cmg1;
   Ok (length (ConditionalMetagraph.edges cmg), length (ConditionalMetagraph.nodes cmg)))
  = Ok (4%nat, 8%nat).
Proof. by_eval. Qed.

Example test_cmg_context :
  (cmg ← test_cmg1;
   ctx ← ConditionalMetagraph.get_context cmg (Some (props ["p1"])) (Some (props ["p2"]));
   Ok (length (ConditionalMetagraph.edges ctx), length (ConditionalMetagraph.nodes ctx)))
  = Ok (2%nat, 4%nat).
Proof. by_eval. Qed.

Example test_cmg_properties :
  (cmg ← test_cmg1;
   ConditionalMetagraph.is_non_redundant cmg (Some ["p1 | p2"%string])
     (Some [[(EStr "p1", true); (EStr "p2", false)]])) = Ok (Some true).
Proof. by_eval. Qed.

(** * Further properties of the library *)

(** ** Metapath.dominates *)

(** X1: domination between metapaths is reflexive and transitive. *)
Theorem metapath_dominates_preorder :
  (∀ mp, Metapath.dominates mp (Some mp) = Ok true) ∧
  (∀ a b c,
     Metapath.dominates a (Some b) = Ok true →
     Metapath.dominates b (Some c) = Ok true →
     Metapath.dominates a (Some c) = Ok true).
Proof.
  split.
  - intros mp. unfold Metapath.dominates.
    by rewrite !bool_decide_eq_true_2.
  - intros a b c. unfold Metapath.dominates.
    intros [= [H1 H2]%andb_prop] [= [H3 H4]%andb_prop].
    apply bool_decide_eq_true_1 in H1, H2, H3, H4.
    rewrite !bool_decide_eq_true_2; [done|set_solver|set_solver].
Qed.

Lemma metapath_dominates_preorder_witness :
  Metapath.dominates (Metapath.mk (ints [1]) (ints [7; 8]) [])
    (Some (Metapath.mk (ints [1; 3; 4]) (ints [7]) [])) = Ok true.
Proof.
  apply (proj2 metapath_dominates_preorder _
           (Metapath.mk (ints [1; 3]) (ints [7]) [])); by_eval.
Defined.

(** ** Nodes *)

Lemma not_found_iff (X S : gset element) :
  bool_decide (true ∈ (λ element, negb (bool_decide (element ∈ X))) <$> elements S)
  = negb (bool_decide (S ⊆ X)).
Proof.
  apply eq_true_iff_eq. rewrite negb_true_iff, bool_decide_eq_true, bool_decide_eq_false.
  rewrite list_elem_of_fmap. split.
  - intros (x & Hx & Hin) Hsub. symmetry in Hx.
    apply negb_true_iff, bool_decide_eq_false in Hx.
    apply elem_of_elements in Hin. set_solver.
  - intros Hsub.
    destruct (decide (Forall (λ x, x ∈ X) (elements S))) as [Hall|Hnot].
    + exfalso. apply Hsub. intros x Hx.
      by apply (proj1 (Forall_forall _ _) Hall), elem_of_elements.
    + apply not_Forall_Exists in Hnot; [|apply _].
      apply Exists_exists in Hnot as (x & Hin & Hx).
      exists x. split; [|done].
      symmetry. by apply negb_true_iff, bool_decide_eq_false.
Qed.

Lemma is_node_in_list_append (nodes : list Node.t) (node : Node.t) :
  is_node_in_list node (append_node nodes node) = true.
Proof.
  unfold append_node. destruct (is_node_in_list node nodes) eqn:Hin; [done|].
  unfold is_node_in_list. rewrite existsb_app. cbn.
  unfold are_nodes_equal. rewrite bool_decide_eq_true_2 by done.
  by rewrite orb_true_r.
Qed.

(** X2: [add_node] guards the generating set.  It succeeds exactly for a
    node within the generating set; the node is then in the list, nodes
    that were within the generating set still are, and adding the node once
    more changes nothing.  For a node with an element outside, the lookup of
    the message [range_invalid] fails and a [KeyError] leaves the method. *)
Theorem add_node_guards_generating_set (self : Metagraph.t) (node : Node.t) :
  match add_node self node with
  | Ok mg =>
      Node.element_set node ⊆ Metagraph.generating_set self ∧
      is_node_in_list node (Metagraph.nodes mg) = true ∧
      (nodes_within (Metagraph.generating_set self) (Metagraph.nodes self) →
       nodes_within (Metagraph.generating_set mg) (Metagraph.nodes mg)) ∧
      Metagraph.edges mg = Metagraph.edges self ∧
      add_node mg node = Ok mg
  | Raise e =>
      e = KeyError "range_invalid" ∧
      ¬ Node.element_set node ⊆ Metagraph.generating_set self
  end.
Proof.
  unfold add_node at 1. rewrite not_found_iff.
  destruct (bool_decide (Node.element_set node ⊆ _)) eqn:Hsub; cbn [negb].
  - apply bool_decide_eq_true_1 in Hsub. cbn [Metagraph.nodes Metagraph.edges
      Metagraph.generating_set Metagraph.a_star].
    split; [done|]. split; [apply is_node_in_list_append|]. split; [|split; [done|]].
    + intros Hwithin. unfold append_node.
      destruct (is_node_in_list node _); [done|].
      apply Forall_app. split; [done|]. by constructor.
    + unfold add_node. rewrite not_found_iff.
      cbn [Metagraph.nodes Metagraph.edges Metagraph.generating_set Metagraph.a_star].
      rewrite bool_decide_eq_true_2 by done. cbn [negb].
      unfold append_node at 1. by rewrite is_node_in_list_append.
  - apply bool_decide_eq_false_1 in Hsub. split; [by_eval|done].
Qed.

Lemma add_node_guards_generating_set_witness :
  add_node mg_12 (Node.mk (ints [1; 3])) = Raise (KeyError "range_invalid") ∧
  ∃ mg, add_node mg_12 (Node.mk (ints [1; 2])) = Ok mg.
Proof.
  pose proof (add_node_guards_generating_set mg_12 (Node.mk (ints [1; 3]))) as H1.
  pose proof (add_node_guards_generating_set mg_12 (Node.mk (ints [1; 2]))) as H2.
  destruct (add_node mg_12 (Node.mk (ints [1; 3]))) as [mg|e].
  { exfalso. destruct H1 as [H1 _]. revert H1. apply (bool_decide_unpack _).
    vm_cast_no_check I. }
  destruct H1 as [-> _]. split; [done|].
  destruct (add_node mg_12 (Node.mk (ints [1; 2]))) as [mg|e']; [by exists mg|].
  exfalso. destruct H2 as [_ H2]. apply H2. apply (bool_decide_unpack _).
  vm_cast_no_check I.
Defined.

Lemma raise_mg_known {A} (argument key message : string) :
  resources !! key = Some message →
  raise_mg (A := A) argument key = Raise (MetagraphException argument message).
Proof. intros H. unfold raise_mg, resource. by rewrite H. Qed.

(** X3: [remove_nodes_from] never removes anything: whatever list it is
    given, it raises a [MetagraphException].  A list of nodes fails the test
    for sets, and a set fails the membership test, which wants a node. *)
Theorem remove_nodes_from_always_raises (self : Metagraph.t)
    (nodes_list : option (list node_obj)) :
  ∃ argument message,
    remove_nodes_from self nodes_list = Raise (MetagraphException argument message).
Proof.
  assert (∀ A arg, raise_mg (A := A) arg "value_null"
            = Raise (MetagraphException arg "value cannot be null or empty")) as Hnull
    by (intros; by_eval).
  assert (∀ A arg, raise_mg (A := A) arg "format_invalid"
            = Raise (MetagraphException arg "provided format is invalid")) as Hfmt
    by (intros; by_eval).
  assert (∀ A arg, raise_mg (A := A) arg "value_not_found"
            = Raise (MetagraphException arg "value not found")) as Hnf
    by (intros; by_eval).
  unfold remove_nodes_from. destruct nodes_list as [[|node l]|].
  - rewrite Hnull. cbn. eauto.
  - cbn [length bool_decide]. rewrite bool_decide_eq_false_2 by done.
    cbn [foldlM]. destruct node as [n|s].
    + rewrite Hfmt. cbn. eauto.
    + destruct (Metagraph.nodes self) as [|element r].
      * cbn [is_node_in_list_obj mbind result_bind]. rewrite Hnf. cbn. eauto.
      * cbn [is_node_in_list_obj are_nodes_equal_obj]. rewrite Hfmt. cbn. eauto.
  - rewrite Hnull. eauto.
Qed.

(** ** Edges of a metagraph *)

Lemma are_edges_equal_flat (e1 e2 : Edge.t) :
  are_edges_equal (Item e1) (Item e2) = Ok (edges_equal e1 e2).
Proof.
  unfold are_edges_equal, edges_equal.
  by destruct (Edge.attributes e1), (Edge.attributes e2).
Qed.

Lemma is_edge_in_list_flat (e : Edge.t) (l : list Edge.t) :
  is_edge_in_list (Item e) (Nest (Item <$> l)) = Ok (existsb (edges_equal e) l).
Proof.
  induction l as [|x l IH]; [done|].
  rewrite fmap_cons, is_edge_in_list_cons, IH.
  change (is_edge_in_list (Item e) (Item x)) with (are_edges_equal (Item e) (Item x)).
  rewrite are_edges_equal_flat. cbn [mbind result_bind existsb].
  by destruct (edges_equal e x).
Qed.

Lemma edges_equal_refl (e : Edge.t) : edges_equal e e = true.
Proof.
  unfold edges_equal. destruct (Edge.attributes e);
    by rewrite !bool_decide_eq_true_2.
Qed.

Lemma edges_equal_sym (e1 e2 : Edge.t) : edges_equal e1 e2 = edges_equal e2 e1.
Proof.
  unfold edges_equal.
  rewrite (bool_decide_ext (Edge.invertex e1 = Edge.invertex e2)
             (Edge.invertex e2 = Edge.invertex e1)) by done.
  rewrite (bool_decide_ext (Edge.outvertex e1 = Edge.outvertex e2)
             (Edge.outvertex e2 = Edge.outvertex e1)) by done.
  rewrite (bool_decide_ext (Edge.label e1 = Edge.label e2)
             (Edge.label e2 = Edge.label e1)) by done.
  destruct (Edge.attributes e1) as [a1|], (Edge.attributes e2) as [a2|]; try done.
  by rewrite (bool_decide_ext (list_to_set a1 =@{gset element} list_to_set a2)
             (list_to_set a2 =@{gset element} list_to_set a1)).
Qed.

Lemma node_init_ok (s : gset element) :
  s ≠ ∅ → Node.init (Some s) = Ok (Node.mk s).
Proof.
  intros Hs. unfold Node.init. rewrite bool_decide_eq_false_2; [done|].
  intros Hsize. by apply size_empty_iff, leibniz_equiv in Hsize.
Qed.

Lemma node_init_inv (s : gset element) (node : Node.t) :
  Node.init (Some s) = Ok node → node = Node.mk s ∧ s ≠ ∅.
Proof.
  unfold Node.init. destruct (bool_decide (size s = 0%nat)) eqn:Hsize.
  - intros H. exfalso. revert H. apply raise_mg_not_ok.
  - intros [= <-]. split; [done|]. intros ->.
    apply bool_decide_eq_false_1 in Hsize. by apply Hsize.
Qed.

Lemma append_node_keeps (nodes : list Node.t) (node other : Node.t) :
  is_node_in_list other nodes = true →
  is_node_in_list other (append_node nodes node) = true.
Proof.
  intros H. unfold append_node. destruct (is_node_in_list node nodes); [done|].
  unfold is_node_in_list in *. rewrite existsb_app, H. done.
Qed.

Lemma append_node_present (nodes : list Node.t) (node : Node.t) :
  is_node_in_list node nodes = true → append_node nodes node = nodes.
Proof. intros H. unfold append_node. by rewrite H. Qed.

Lemma no_equal_edges_snoc (l : list Edge.t) (e : Edge.t) :
  no_equal_edges l → existsb (edges_equal e) l = false → no_equal_edges (l ++ [e]).
Proof.
  intros Hl Hnew i j x y Hij Hi Hj.
  assert (∀ z, z ∈ l → edges_equal e z = false) as Hall.
  { intros z Hz. destruct (edges_equal e z) eqn:Heq; [|done].
    rewrite <- Hnew. symmetry. apply existsb_exists. exists z.
    split; [by apply list_elem_of_In|done]. }
  apply lookup_app_Some in Hi as [Hi|[Hil Hi]];
    apply lookup_app_Some in Hj as [Hj|[Hjl Hj]].
  - eauto.
  - apply list_lookup_singleton_Some in Hj as [_ <-].
    rewrite edges_equal_sym. apply Hall. by eapply list_elem_of_lookup_2.
  - apply list_lookup_singleton_Some in Hi as [_ <-].
    apply Hall. by eapply list_elem_of_lookup_2.
  - apply list_lookup_singleton_Some in Hi as [Hi _].
    apply list_lookup_singleton_Some in Hj as [Hj _]. lia.
Qed.

(** X4: [add_edge] never stores two equal edges.  If no two edges of the
    metagraph are equal (same invertex, outvertex, label and, when both
    carry attributes, same attribute set), this still holds after
    [add_edge]; an edge equal to the given one is then in the list, and
    adding the edge a second time changes nothing. *)
Theorem add_edge_keeps_edges_distinct (self mg : Metagraph.t) (edge : Edge.t) :
  add_edge self edge = Ok mg →
  no_equal_edges (Metagraph.edges self) →
  no_equal_edges (Metagraph.edges mg) ∧
  existsb (edges_equal edge) (Metagraph.edges mg) = true ∧
  add_edge mg edge = Ok mg.
Proof.
  unfold add_edge at 1. rewrite is_edge_in_list_flat.
  intros (n1 & [-> Hn1]%node_init_inv & (n2 & [-> Hn2]%node_init_inv & H)%result_bind_ok)%result_bind_ok.
  cbn [mbind result_bind] in H. injection H as <-. intros Hdistinct.
  cbn [Metagraph.edges].
  assert (existsb (edges_equal edge)
            (if existsb (edges_equal edge) (Metagraph.edges self)
             then Metagraph.edges self else Metagraph.edges self ++ [edge]) = true) as Hin.
  { destruct (existsb _ (Metagraph.edges self)) eqn:Hfound; [done|].
    by rewrite existsb_app; cbn; rewrite edges_equal_refl, orb_true_r. }
  split; [|split; [done|]].
  - destruct (existsb _ (Metagraph.edges self)) eqn:Hfound; [done|].
    by apply no_equal_edges_snoc.
  - unfold add_edge. rewrite !node_init_ok by done. cbn [mbind result_bind].
    rewrite is_edge_in_list_flat. cbn [mbind result_bind Metagraph.edges Metagraph.nodes
      Metagraph.generating_set Metagraph.a_star]. rewrite Hin.
    rewrite (append_node_present _ (Node.mk (Edge.invertex edge)))
      by apply append_node_keeps, is_node_in_list_append.
    rewrite (append_node_present _ (Node.mk (Edge.outvertex edge)))
      by apply is_node_in_list_append.
    done.
Qed.

Lemma add_edge_keeps_edges_distinct_witness :
  no_equal_edges
    [edge_1_2] ∧
  existsb (edges_equal edge_1_2_twin) [edge_1_2] = true.
Proof.
  assert (add_edge mg_forth edge_1_2_twin = Ok mg_forth) as Hadd by by_eval.
  assert (no_equal_edges (Metagraph.edges mg_forth)) as Hdistinct.
  { intros [|i] [|j] x y Hij Hi Hj; try done; by destruct i || by destruct j. }
  destruct (add_edge_keeps_edges_distinct mg_forth mg_forth edge_1_2_twin Hadd Hdistinct)
    as (H1 & H2 & _).
  split; [exact H1|exact H2].
Defined.

Lemma remove_edge_obj_snoc (l : list Edge.t) (e : Edge.t) :
  edge_in e l = false → remove_edge_obj e (l ++ [e]) = l.
Proof.
  induction l as [|x l IH]; cbn.
  - by rewrite bool_decide_eq_true_2.
  - intros [Hx Hl]%orb_false_elim. rewrite Hx. by rewrite IH.
Qed.

Lemma edge_in_snoc (l : list Edge.t) (e : Edge.t) : edge_in e (l ++ [e]) = true.
Proof.
  unfold edge_in. rewrite existsb_app. cbn.
  by rewrite bool_decide_eq_true_2, orb_true_r.
Qed.

(** X5: adding an edge object the metagraph does not hold with
    [add_edges_from] and removing it with [remove_edge] gives back the edge
    list as it was.  The nodes that came with the edge stay. *)
Theorem add_then_remove_edge_restores_edges (self : Metagraph.t) (edge : Edge.t) :
  edge_in edge (Metagraph.edges self) = false →
  Edge.invertex edge ≠ ∅ →
  Edge.outvertex edge ≠ ∅ →
  ∃ mg mg',
    add_edges_from self (Some [edge]) = Ok mg ∧
    edge_in edge (Metagraph.edges mg) = true ∧
    remove_edge mg edge = Ok mg' ∧
    Metagraph.edges mg' = Metagraph.edges self ∧
    Metagraph.nodes mg' =
      append_node (append_node (Metagraph.nodes self) (Node.mk (Edge.invertex edge)))
        (Node.mk (Edge.outvertex edge)).
Proof.
  intros Hnew Hin Hout.
  unfold add_edges_from, add_edges_from_step. cbn [length bool_decide foldlM].
  rewrite bool_decide_eq_false_2 by done.
  rewrite !node_init_ok by done. cbn [mbind result_bind].
  unfold append_new. rewrite Hnew.
  eexists _, _. split; [reflexivity|].
  unfold remove_edge. cbn [Metagraph.edges Metagraph.nodes].
  rewrite edge_in_snoc. split; [done|]. split; [reflexivity|].
  cbn [Metagraph.edges Metagraph.nodes]. by rewrite remove_edge_obj_snoc.
Qed.

Lemma add_then_remove_edge_restores_edges_witness :
  ∃ mg mg',
    add_edges_from mg_forth (Some [edge_2_1]) = Ok mg ∧
    edge_in edge_2_1 (Metagraph.edges mg) = true ∧
    remove_edge mg edge_2_1 = Ok mg' ∧
    Metagraph.edges mg' = [edge_1_2] ∧
    Metagraph.nodes mg' =
      append_node (append_node (Metagraph.nodes mg_forth) (Node.mk (Edge.invertex edge_2_1)))
        (Node.mk (Edge.outvertex edge_2_1)).
Proof.
  apply (add_then_remove_edge_restores_edges mg_forth edge_2_1);
    [by_eval|decide_eval|decide_eval].
Defined.

(** X6: [remove_edges_from] looks an edge up by equality and removes it by
    identity.  Given an edge object that the metagraph does not hold, but
    that equals one it holds, the lookup succeeds and [list.remove] raises
    [ValueError]; [remove_edge], which tests identity, leaves the metagraph
    as it is. *)
Theorem remove_edges_from_equal_edge_raises (self : Metagraph.t) (edge : Edge.t)
    (rest : list Edge.t) :
  edge_in edge (Metagraph.edges self) = false →
  existsb (edges_equal edge) (Metagraph.edges self) = true →
  remove_edges_from self (Some (edge :: rest))
    = Raise (ValueError "list.remove(x): x not in list") ∧
  remove_edge self edge = Ok self.
Proof.
  intros Hid Heq. split.
  - unfold remove_edges_from. cbn [length]. rewrite bool_decide_eq_false_2 by done.
    cbn [foldlM]. rewrite is_edge_in_list_flat. cbn [mbind result_bind].
    by rewrite Heq, Hid.
  - unfold remove_edge. rewrite Hid. by destruct self.
Qed.

Lemma remove_edges_from_equal_edge_raises_witness :
  remove_edges_from mg_forth (Some [edge_1_2_twin])
    = Raise (ValueError "list.remove(x): x not in list") ∧
  remove_edge mg_forth edge_1_2_twin = Ok mg_forth.
Proof.
  apply (remove_edges_from_equal_edge_raises mg_forth edge_1_2_twin []); by_eval.
Defined.

Lemma get_edges_fold (x_i x_j : element) (l acc : list Edge.t) :
  let f := λ (result : list Edge.t) edge,
    if bool_decide (x_i ∈ Edge.invertex edge)
       && bool_decide (x_j ∈ Edge.outvertex edge)
       && negb (edge_in edge result)
    then result ++ [edge] else result in
  (∀ e, e ∈ fold_left f l acc →
     e ∈ acc ∨ (e ∈ l ∧ x_i ∈ Edge.invertex e ∧ x_j ∈ Edge.outvertex e)) ∧
  (∀ e, edge_in e acc = true ∨
        (e ∈ l ∧ x_i ∈ Edge.invertex e ∧ x_j ∈ Edge.outvertex e) →
     edge_in e (fold_left f l acc) = true) ∧
  (NoDup (Edge.id <$> acc) → NoDup (Edge.id <$> fold_left f l acc)).
Proof.
  intros f. revert acc. induction l as [|x l IH]; intros acc; cbn [fold_left].
  { split; [intros e He; by left|]. split; [|done].
    intros e [He|(He & _)]; [done|]. by apply elem_of_nil in He. }
  destruct (IH (f acc x)) as (IH1 & IH2 & IH3).
  assert (∀ e, edge_in e acc = true → edge_in e (f acc x) = true) as Hmono.
  { intros e He. unfold f. destruct (_ && _); [|done].
    unfold edge_in in *. by rewrite existsb_app, He. }
  split; [|split].
  - intros e He. apply IH1 in He as [He|(He & Hi & Hj)].
    + unfold f in He.
      destruct (bool_decide (x_i ∈ _)) eqn:Hi; cbn [andb] in He; [|by left].
      destruct (bool_decide (x_j ∈ _)) eqn:Hj; cbn [andb] in He; [|by left].
      destruct (negb _); [|by left].
      apply elem_of_app in He as [He|He]; [by left|].
      apply list_elem_of_singleton in He as ->. right.
      apply bool_decide_eq_true_1 in Hi, Hj. split; [left|done].
    + right. split; [by right|done].
  - intros e [He|(He & Hi & Hj)]; apply IH2.
    + left. by apply Hmono.
    + apply elem_of_cons in He as [->|He]; [|right; done].
      left. unfold f. rewrite !bool_decide_eq_true_2 by done. cbn [andb].
      destruct (edge_in x acc) eqn:Hx; [done|]. cbn [negb]. apply edge_in_snoc.
  - intros Hacc. apply IH3. unfold f.
    destruct (bool_decide (x_i ∈ _) && bool_decide (x_j ∈ _)); cbn [andb]; [|done].
    destruct (edge_in x acc) eqn:Hx; [done|]. cbn [negb].
    rewrite fmap_app. apply NoDup_app. split; [done|]. split; [|apply NoDup_singleton].
    intros i Hi [->|[]%elem_of_nil]%elem_of_cons.
    apply list_elem_of_fmap in Hi as (y & Hid & Hy).
    assert (edge_in x acc = true) as Htrue; [|congruence].
    apply existsb_exists. exists y. split; [by apply list_elem_of_In|].
    by apply bool_decide_eq_true_2.
Qed.

(** X7: [get_edges(x_i, x_j)] returns edges of the metagraph that have
    [x_i] in the invertex and [x_j] in the outvertex, it misses none of
    them, and it lists no edge object twice. *)
Theorem get_edges_selects (self : Metagraph.t) (x_i x_j : element) :
  (∀ e, e ∈ get_edges self x_i x_j →
     e ∈ Metagraph.edges self ∧ x_i ∈ Edge.invertex e ∧ x_j ∈ Edge.outvertex e) ∧
  (∀ e, e ∈ Metagraph.edges self → x_i ∈ Edge.invertex e → x_j ∈ Edge.outvertex e →
     edge_in e (get_edges self x_i x_j) = true) ∧
  NoDup (Edge.id <$> get_edges self x_i x_j).
Proof.
  destruct (get_edges_fold x_i x_j (Metagraph.edges self) []) as (H1 & H2 & H3).
  split; [|split].
  - intros e He. apply H1 in He as [[]%elem_of_nil|He]. done.
  - intros e He Hi Hj. apply H2. by right.
  - apply H3. constructor.
Qed.

Lemma get_edges_selects_witness :
  edge_in edge_1_2 (get_edges mg_cycle (EInt 1) (EInt 2)) = true.
Proof.
  apply (proj1 (proj2 (get_edges_selects mg_cycle (EInt 1) (EInt 2)))).
  - unfold mg_cycle. cbn. left.
  - decide_eval.
  - decide_eval.
Defined.

(** ** get_generating_set *)

Lemma fold_append_elt (l acc : list element) (x : element) :
  x ∈ fold_left append_elt l acc ↔ x ∈ acc ∨ x ∈ l.
Proof.
  revert acc. induction l as [|y l IH]; intros acc; cbn [fold_left].
  { rewrite elem_of_nil. tauto. }
  rewrite IH, elem_of_cons. unfold append_elt.
  destruct (bool_decide (y ∈ acc)) eqn:Hy.
  - apply bool_decide_eq_true_1 in Hy. split; [tauto|].
    intros [H|[->|H]]; tauto.
  - rewrite elem_of_app, list_elem_of_singleton. tauto.
Qed.

Lemma generating_list_elem (l : list Edge.t) (acc : list element) (x : element) :
  x ∈ fold_left (λ generating_set edge,
        fold_left append_elt (elements (Edge.outvertex edge))
          (fold_left append_elt (elements (Edge.invertex edge)) generating_set)) l acc
  ↔ x ∈ acc ∨ ∃ e, e ∈ l ∧ (x ∈ Edge.invertex e ∨ x ∈ Edge.outvertex e).
Proof.
  revert acc. induction l as [|y l IH]; intros acc; cbn [fold_left].
  { split; [by left|]. intros [H|(e & []%elem_of_nil & _)]. done. }
  rewrite IH, !fold_append_elt, !elem_of_elements. split.
  - intros [[[H|H]|H]|(e & He & H)].
    + by left.
    + right. exists y. split; [left|by left].
    + right. exists y. split; [left|by right].
    + right. exists e. split; [by right|done].
  - intros [H|(e & [->|He]%elem_of_cons & H)].
    + by left; left; left.
    + left. destruct H; [left; by right|by right].
    + right. by exists e.
Qed.

Lemma add_edges_from_step_inv (self mg : Metagraph.t) (edge : Edge.t) :
  add_edges_from_step self edge = Ok mg →
  Edge.invertex edge ≠ ∅ ∧ Edge.outvertex edge ≠ ∅ ∧
  mg = Metagraph.mk
         (append_node (append_node (Metagraph.nodes self) (Node.mk (Edge.invertex edge)))
            (Node.mk (Edge.outvertex edge)))
         (append_new (Metagraph.edges self) edge)
         (Metagraph.generating_set self) (Metagraph.a_star self).
Proof.
  unfold add_edges_from_step.
  intros (n1 & [-> Hn1]%node_init_inv & (n2 & [-> Hn2]%node_init_inv & [= <-])%result_bind_ok)%result_bind_ok.
  done.
Qed.

Lemma add_edges_from_step_ok (self : Metagraph.t) (edge : Edge.t) :
  Edge.invertex edge ≠ ∅ → Edge.outvertex edge ≠ ∅ →
  add_edges_from_step self edge =
  Ok (Metagraph.mk
         (append_node (append_node (Metagraph.nodes self) (Node.mk (Edge.invertex edge)))
            (Node.mk (Edge.outvertex edge)))
         (append_new (Metagraph.edges self) edge)
         (Metagraph.generating_set self) (Metagraph.a_star self)).
Proof.
  intros Hi Ho. unfold add_edges_from_step. by rewrite !node_init_ok.
Qed.

Lemma foldlM_total {A B} (P : B → Prop) (f : A → B → result A) (l : list B) (a : A) :
  (∀ x b, P b → ∃ y, f x b = Ok y) → Forall P l → ∃ r, foldlM f a l = Ok r.
Proof.
  intros Hf Hl. revert a. induction Hl as [|b l Hb Hl IH]; intros a; cbn [foldlM].
  { by exists a. }
  destruct (Hf a b Hb) as (y & ->). cbn. apply IH.
Qed.

Lemma nodes_within_append (X : gset element) (nodes : list Node.t) (node : Node.t) :
  nodes_within X nodes → Node.element_set node ⊆ X →
  nodes_within X (append_node nodes node).
Proof.
  intros Hn Hs. unfold append_node. destruct (is_node_in_list node nodes); [done|].
  apply Forall_app. split; [done|]. by constructor.
Qed.

(** X8: the set that [get_generating_set] computes from a non-empty list of
    edges holds exactly the elements of their invertices and outvertices.
    A metagraph created over this set and given the edges with
    [add_edges_from], as [get_inverse] and [get_efm] do, has all its edges
    and nodes within its generating set. *)
Theorem get_generating_set_covers (edge_list : list Edge.t) :
  edge_list ≠ [] →
  Forall (λ e, Edge.invertex e ≠ ∅ ∧ Edge.outvertex e ≠ ∅) edge_list →
  ∃ X mg,
    get_generating_set (Some edge_list) = Ok X ∧
    (∀ x, x ∈ X ↔ ∃ e, e ∈ edge_list ∧ (x ∈ Edge.invertex e ∨ x ∈ Edge.outvertex e)) ∧
    (m ← Metagraph.init (Some X); add_edges_from m (Some edge_list)) = Ok mg ∧
    Metagraph.generating_set mg = X ∧
    (∀ e, e ∈ Metagraph.edges mg →
       e ∈ edge_list ∧ Edge.invertex e ∪ Edge.outvertex e ⊆ X) ∧
    nodes_within X (Metagraph.nodes mg).
Proof.
  intros Hne Hall. unfold get_generating_set.
  rewrite bool_decide_eq_false_2 by by destruct edge_list.
  set (X := list_to_set _ : gset element).
  assert (∀ x, x ∈ X ↔ ∃ e, e ∈ edge_list ∧ (x ∈ Edge.invertex e ∨ x ∈ Edge.outvertex e))
    as HX.
  { intros x. unfold X. rewrite elem_of_list_to_set, generating_list_elem, elem_of_nil.
    tauto. }
  assert (X ≠ ∅) as HXne.
  { destruct edge_list as [|e l]; [done|].
    apply Forall_cons in Hall as [[Hi _] _].
    apply set_choose_L in Hi as (x & Hx). intros Hempty.
    assert (x ∈ X) as Hin; [|set_solver].
    apply HX. exists e. split; [left|by left]. }
  assert (Metagraph.init (Some X) = Ok (Metagraph.mk [] [] X None)) as Hinit.
  { unfold Metagraph.init. rewrite bool_decide_eq_false_2; [done|].
    intros Hsize. by apply size_empty_iff, leibniz_equiv in Hsize. }
  destruct (foldlM_total (λ e, Edge.invertex e ≠ ∅ ∧ Edge.outvertex e ≠ ∅)
              add_edges_from_step edge_list (Metagraph.mk [] [] X None)) as (mg & Hmg).
  { intros x b [Hi Ho]. rewrite add_edges_from_step_ok by done. eauto. }
  { done. }
  exists X, mg. split; [done|]. split; [done|]. split.
  { rewrite Hinit. cbn [mbind result_bind]. unfold add_edges_from.
    by rewrite bool_decide_eq_false_2 by by destruct edge_list. }
  pose (P := λ m : Metagraph.t,
          Metagraph.generating_set m = X ∧
          (∀ e, e ∈ Metagraph.edges m → e ∈ edge_list) ∧
          nodes_within X (Metagraph.nodes m)).
  assert (∀ k a r, (∀ e, e ∈ k → e ∈ edge_list) → P a →
            foldlM add_edges_from_step a k = Ok r → P r) as Hinv.
  { induction k as [|b k IH]; intros a r Hk Ha; cbn [foldlM].
    { by intros [= <-]. }
    intros (a' & Hstep & Hrest)%result_bind_ok. apply (IH a' r); [|clear IH|done].
    { intros e He. apply Hk. by right. }
    apply add_edges_from_step_inv in Hstep as (Hi & Ho & ->).
    destruct Ha as (Hgs & Hedges & Hnodes).
    assert (b ∈ edge_list) as Hb by (apply Hk; left).
    split; [done|]. split; cbn [Metagraph.edges Metagraph.nodes].
    - intros e [He| ->]%append_new_elem; auto.
    - apply nodes_within_append; [apply nodes_within_append; [done|]|]; cbn;
        intros x Hx; apply HX; exists b; split; auto. }
  destruct (Hinv edge_list (Metagraph.mk [] [] X None) mg (λ e He, He))
    as (Hgs & Hedges & Hnodes); [|done|].
  { split; [done|]. split; [by intros e []%elem_of_nil|constructor]. }
  split; [done|]. split; [|done].
  intros e He. split; [auto|].
  intros x [Hx|Hx]%elem_of_union; apply HX; exists e; split; auto.
Qed.

Lemma get_generating_set_covers_witness :
  ∃ X mg,
    get_generating_set (Some [edge_1_3; edge_3_4]) = Ok X ∧
    (∀ x, x ∈ X ↔ ∃ e, e ∈ [edge_1_3; edge_3_4]
                        ∧ (x ∈ Edge.invertex e ∨ x ∈ Edge.outvertex e)) ∧
    (m ← Metagraph.init (Some X); add_edges_from m (Some [edge_1_3; edge_3_4])) = Ok mg ∧
    Metagraph.generating_set mg = X ∧
    (∀ e, e ∈ Metagraph.edges mg →
       e ∈ [edge_1_3; edge_3_4] ∧ Edge.invertex e ∪ Edge.outvertex e ⊆ X) ∧
    nodes_within X (Metagraph.nodes mg).
Proof.
  apply (get_generating_set_covers [edge_1_3; edge_3_4]); [done|].
  repeat constructor; decide_eval.
Defined.

(** ** transpose_matrix *)

Lemma mapM_Forall2 {A B} (f : A → result B) (l : list A) (ys : list B) :
  mapM f l = Ok ys ↔ Forall2 (λ x y, f x = Ok y) l ys.
Proof.
  revert ys. induction l as [|x l IH]; intros ys; cbn [mapM].
  { split; [intros [= <-]; constructor|]. intros H. by inversion H. }
  split.
  - intros (y & Hy & (ys' & Hys & [= <-])%result_bind_ok)%result_bind_ok.
    constructor; [done|]. by apply IH.
  - intros H. inversion H as [|? y ? ys' Hy Hys]; subst.
    rewrite Hy. cbn. apply IH in Hys. by rewrite Hys.
Qed.

Lemma mapM_total {A B} (f : A → result B) (l : list A) :
  (∀ x, x ∈ l → ∃ y, f x = Ok y) → ∃ ys, mapM f l = Ok ys.
Proof.
  induction l as [|x l IH]; intros Hf; cbn [mapM]; [by eexists|].
  destruct (Hf x) as (y & ->); [left|].
  destruct IH as (ys & ->); [intros z Hz; apply Hf; by right|].
  by eexists.
Qed.

Lemma index_ok {A} (l : list A) (i : nat) (x : A) :
  index l i = Ok x ↔ l !! i = Some x.
Proof. unfold index. destruct (l !! i); split; congruence. Qed.

Lemma range_lookup (n i x : nat) : range n !! i = Some x ↔ x = i ∧ (i < n)%nat.
Proof. unfold range. rewrite lookup_seq. by cbn. Qed.

Lemma range_elem (n i : nat) : i ∈ range n ↔ (i < n)%nat.
Proof. unfold range. rewrite elem_of_seq. lia. Qed.

(** X9: on a table of [r ≥ 1] rows with [c] cells each, [transpose_matrix]
    returns a table of [c] rows with [r] cells each that holds cell [(i, j)]
    of the argument at [(j, i)]; when [c ≥ 1], transposing the result gives
    the argument back. *)
Theorem transpose_matrix_involution {A} (r c : nat) (m : list (list A)) :
  (0 < r)%nat → rectangular r c m →
  ∃ t, transpose_matrix (Some m) = Ok t ∧
       rectangular c r t ∧
       (∀ i j row x, m !! i = Some row → row !! j = Some x →
          ∃ col, t !! j = Some col ∧ col !! i = Some x) ∧
       ((0 < c)%nat → transpose_matrix (Some t) = Ok m).
Proof.
  intros Hr [Hrows Hcols].
  assert (∀ row, row ∈ m → length row = c) as Hlen
    by (intros row; by apply (proj1 (Forall_forall _ _) Hcols)).
  destruct m as [|row0 m']; [cbn in Hrows; lia|].
  set (m := row0 :: m') in *.
  assert (length row0 = c) as Hrow0 by (apply Hlen; left).
  destruct (mapM_total (λ j, mapM (λ row : list A, index row j) m) (range c))
    as (t & Ht).
  { intros j Hj%range_elem. apply mapM_total. intros row Hrow.
    destruct (lookup_lt_is_Some_2 row j) as (x & Hx); [rewrite (Hlen row Hrow); lia|].
    exists x. by apply index_ok. }
  pose proof (proj1 (mapM_Forall2 _ _ _) Ht) as Hcolumns.
  assert (length t = c) as Htlen.
  { apply Forall2_length in Hcolumns. unfold range in Hcolumns.
    by rewrite length_seq in Hcolumns. }
  assert (∀ j col, t !! j = Some col →
            Forall2 (λ (row : list A) x, index row j = Ok x) m col) as Hcol.
  { intros j col Hj.
    destruct (Forall2_lookup_r _ _ _ _ _ Hcolumns Hj) as (j' & Hj' & Hmap).
    apply range_lookup in Hj' as [-> _]. by apply mapM_Forall2. }
  assert (∀ i j row x, m !! i = Some row → row !! j = Some x →
            ∃ col, t !! j = Some col ∧ col !! i = Some x) as Hcells.
  { intros i j row x Hi Hj.
    assert (j < c)%nat as Hjc.
    { rewrite <- (Hlen row) by by eapply list_elem_of_lookup_2.
      by eapply lookup_lt_Some. }
    destruct (lookup_lt_is_Some_2 t j) as (col & Hcolj); [lia|].
    exists col. split; [done|].
    destruct (Forall2_lookup_l _ _ _ _ _ (Hcol j col Hcolj) Hi) as (x' & Hx' & Heq).
    apply index_ok in Heq. congruence. }
  exists t. split; [|split; [|split; [done|]]].
  - unfold transpose_matrix. cbn [index m lookup list_lookup mbind result_bind].
    by rewrite Hrow0.
  - split; [done|]. apply Forall_forall. intros col Hin.
    apply list_elem_of_lookup_1 in Hin as (j & Hj).
    apply Hcol, Forall2_length in Hj. lia.
  - intros Hc. unfold transpose_matrix.
    destruct t as [|col0 t']; [cbn in Htlen; lia|].
    cbn [index lookup list_lookup mbind result_bind].
    assert (length col0 = r) as ->.
    { specialize (Hcol 0%nat col0 eq_refl). apply Forall2_length in Hcol. lia. }
    apply mapM_Forall2, Forall2_same_length_lookup_2.
    { unfold range. rewrite length_seq. lia. }
    intros i i' row [-> Hi]%range_lookup Hrow.
    apply mapM_Forall2, Forall2_same_length_lookup_2.
    { rewrite Htlen. symmetry. apply Hlen. by eapply list_elem_of_lookup_2. }
    intros j col x Hcolj Hx. apply index_ok.
    destruct (Hcells i j row x Hrow Hx) as (col' & Hcol' & Hcell). congruence.
Qed.

Lemma transpose_matrix_involution_witness :
  ∃ t, transpose_matrix (Some [[1; 2; 3]; [4; 5; 6]]) = Ok t ∧
       rectangular 3 2 t ∧
       (∀ i j row x, [[1; 2; 3]; [4; 5; 6]] !! i = Some row → row !! j = Some x →
          ∃ col, t !! j = Some col ∧ col !! i = Some x) ∧
       ((0 < 3)%nat → transpose_matrix (Some t) = Ok [[1; 2; 3]; [4; 5; 6]]).
Proof.
  apply (transpose_matrix_involution 2 3 [[1; 2; 3]; [4; 5; 6]]); [lia|].
  split; [done|]. by repeat constructor.
Defined.

(** ** custom_multiply_matrices *)

Lemma custom_add_matrix_elements_spec (k : nat) (a b : option Z) (y : list Edge.t)
    (e : Edge.t) :
  y !! k = Some e →
  ∃ temp, custom_add_matrix_elements k a b y = Ok temp ∧
    ∀ t, t ∈ temp ↔
      ∃ sign, t = (sign, e) ∧ a = Some sign ∧ b = Some (-1) ∧ (sign = 1 ∨ sign = -1).
Proof.
  intros Hk. unfold custom_add_matrix_elements.
  rewrite bool_decide_eq_false_2 by (apply lookup_lt_Some in Hk; lia).
  unfold index. rewrite Hk. cbn [mbind result_bind].
  destruct (bool_decide (b = Some (-1))) eqn:Hb; rewrite ?andb_false_r, ?andb_true_r.
  - apply bool_decide_eq_true_1 in Hb as ->.
    destruct (bool_decide (a = Some 1)) eqn:Ha1.
    { apply bool_decide_eq_true_1 in Ha1 as ->. eexists. split; [done|].
      intros t. rewrite list_elem_of_singleton. split.
      - intros ->. exists 1. auto.
      - intros (sign & -> & [= <-] & _). done. }
    destruct (bool_decide (a = Some (-1))) eqn:Ha2.
    { apply bool_decide_eq_true_1 in Ha2 as ->. eexists. split; [done|].
      intros t. rewrite list_elem_of_singleton. split.
      - intros ->. exists (-1). auto.
      - intros (sign & -> & [= <-] & _). done. }
    apply bool_decide_eq_false_1 in Ha1, Ha2. eexists. split; [done|].
    intros t. rewrite elem_of_nil. split; [done|].
    intros (sign & _ & -> & _ & [->| ->]); done.
  - apply bool_decide_eq_false_1 in Hb. eexists. split; [done|].
    intros t. rewrite elem_of_nil. split; [done|].
    intros (sign & _ & _ & -> & _). done.
Qed.

Lemma same_tuple_refl (t : Z * Edge.t) : same_tuple t t = true.
Proof. unfold same_tuple. by rewrite !bool_decide_eq_true_2. Qed.

Lemma tuple_union_spec (s2 s1 : list (Z * Edge.t)) :
  (∀ t, t ∈ tuple_union s1 s2 → t ∈ s1 ∨ t ∈ s2) ∧
  (∀ t, existsb (same_tuple t) s1 = true ∨ t ∈ s2 →
        existsb (same_tuple t) (tuple_union s1 s2) = true).
Proof.
  unfold tuple_union. revert s1. induction s2 as [|x s2 IH]; intros s1; cbn [fold_left].
  { split; [by left|]. intros t [H|[]%elem_of_nil]. done. }
  destruct (IH (if existsb (same_tuple x) s1 then s1 else s1 ++ [x])) as [IH1 IH2].
  split.
  - intros t [Ht|Ht]%IH1; [|right; by right].
    destruct (existsb (same_tuple x) s1); [by left|].
    apply elem_of_app in Ht as [Ht|Ht%list_elem_of_singleton]; [by left|].
    right. subst. left.
  - intros t Ht. apply IH2.
    destruct Ht as [Ht|[->|Ht]%elem_of_cons]; [| |by right]; left.
    + destruct (existsb (same_tuple x) s1); [done|].
      by rewrite existsb_app, Ht.
    + destruct (existsb (same_tuple x) s1) eqn:Hx; [done|].
      rewrite existsb_app. cbn. by rewrite same_tuple_refl, orb_true_r.
Qed.

(** X10: [custom_multiply_matrices] on an [r × n] and an [n × c] table of
    numbers, with at least [n] edges, returns an [r × c] table of sets.  Cell
    [(i, j)] holds a tuple [(sign, edge)] only if, for some [k], [edge] is
    edge [k] of the list, the second table has [-1] at [(k, j)] and the
    first has [sign], which is [1] or [-1], at [(i, k)]; and every such
    tuple is in the cell. *)
Theorem custom_multiply_matrices_cells (r n c : nat)
    (matrix1 matrix2 : list (list (option Z))) (y : list Edge.t) :
  (0 < r)%nat → (0 < n)%nat →
  rectangular r n matrix1 → rectangular n c matrix2 →
  (n ≤ length y)%nat →
  ∃ result,
    custom_multiply_matrices matrix1 matrix2 (Some y) = Ok result ∧
    rectangular r c result ∧
    ∀ i j row cell, result !! i = Some row → row !! j = Some cell →
      (∀ sign e, (sign, e) ∈ cell →
         ∃ k row_i row_k,
           y !! k = Some e ∧
           matrix1 !! i = Some row_i ∧ row_i !! k = Some (Some sign) ∧
           matrix2 !! k = Some row_k ∧ row_k !! j = Some (Some (-1)) ∧
           (sign = 1 ∨ sign = -1)) ∧
      (∀ sign e k row_i row_k,
         y !! k = Some e →
         matrix1 !! i = Some row_i → row_i !! k = Some (Some sign) →
         matrix2 !! k = Some row_k → row_k !! j = Some (Some (-1)) →
         sign = 1 ∨ sign = -1 →
         existsb (same_tuple (sign, e)) cell = true).
Proof.
  intros Hr Hn [Hrows1 Hcols1] [Hrows2 Hcols2] Hy.
  assert (∀ row, row ∈ matrix1 → length row = n) as Hlen1
    by (intros row; by apply (proj1 (Forall_forall _ _) Hcols1)).
  assert (∀ row, row ∈ matrix2 → length row = c) as Hlen2
    by (intros row; by apply (proj1 (Forall_forall _ _) Hcols2)).
  pose (contributes := λ (i j k : nat) (t : Z * Edge.t),
    ∃ row_i row_k,
      y !! k = Some t.2 ∧
      matrix1 !! i = Some row_i ∧ row_i !! k = Some (Some t.1) ∧
      matrix2 !! k = Some row_k ∧ row_k !! j = Some (Some (-1)) ∧
      (t.1 = 1 ∨ t.1 = -1)).
  pose (body := λ (i j : nat) (intermediate_result : list (Z * Edge.t)) (k : nat),
    row_i ← index matrix1 i;
    a_ik ← index row_i k;
    row_k ← index matrix2 k;
    b_kj ← index row_k j;
    temp ← custom_add_matrix_elements k a_ik b_kj y;
    Ok (tuple_union intermediate_result temp)).
  assert (∀ i j, (i < r)%nat → (j < c)%nat → ∀ ks acc,
            (∀ k, k ∈ ks → (k < n)%nat) →
            ∃ cell, foldlM (body i j) acc ks = Ok cell ∧
              (∀ t, t ∈ cell → t ∈ acc ∨ ∃ k, k ∈ ks ∧ contributes i j k t) ∧
              (∀ t, existsb (same_tuple t) acc = true ∨ (∃ k, k ∈ ks ∧ contributes i j k t) →
                    existsb (same_tuple t) cell = true)) as Hcell.
  { intros i j Hi Hj. induction ks as [|k ks IH]; intros acc Hks; cbn [foldlM].
    { exists acc. split; [done|]. split; [by left|].
      intros t [H|(k & []%elem_of_nil & _)]. done. }
    assert (k < n)%nat as Hk by (apply Hks; left).
    destruct (lookup_lt_is_Some_2 matrix1 i) as (row_i & Hrow_i); [lia|].
    destruct (lookup_lt_is_Some_2 row_i k) as (a_ik & Ha).
    { rewrite (Hlen1 row_i); [lia|]. by eapply list_elem_of_lookup_2. }
    destruct (lookup_lt_is_Some_2 matrix2 k) as (row_k & Hrow_k); [lia|].
    destruct (lookup_lt_is_Some_2 row_k j) as (b_kj & Hb).
    { rewrite (Hlen2 row_k); [lia|]. by eapply list_elem_of_lookup_2. }
    destruct (lookup_lt_is_Some_2 y k) as (e & He); [lia|].
    destruct (custom_add_matrix_elements_spec k a_ik b_kj y e He) as (temp & Htemp & Hspec).
    assert (body i j acc k = Ok (tuple_union acc temp)) as Hstep.
    { unfold body, index. rewrite Hrow_i. cbn [mbind result_bind].
      rewrite Ha. cbn [mbind result_bind]. rewrite Hrow_k. cbn [mbind result_bind].
      rewrite Hb. cbn [mbind result_bind]. by rewrite Htemp. }
    rewrite Hstep. cbn [mbind result_bind].
    destruct (IH (tuple_union acc temp)) as (cell & -> & Hsound & Hcomplete).
    { intros k' Hk'. apply Hks. by right. }
    destruct (tuple_union_spec temp acc) as [Hu1 Hu2].
    assert (∀ t, t ∈ temp ↔ contributes i j k t) as Hcontrib.
    { intros t. rewrite Hspec. unfold contributes. split.
      - intros (sign & -> & -> & -> & Hsign). exists row_i, row_k. cbn. auto 10.
      - intros (row_i' & row_k' & Hy' & H1 & H2 & H3 & H4 & Hsign).
        exists t.1. destruct t as [sign e']. cbn in *.
        assert (row_i' = row_i) as -> by congruence.
        assert (row_k' = row_k) as -> by congruence.
        split; [f_equal; congruence|]. split; [congruence|]. split; [congruence|done]. }
    exists cell. split; [done|]. split.
    - intros t [[Ht|Ht]%Hu1|(k' & Hk' & Ht)]%Hsound.
      + by left.
      + right. exists k. split; [left|by apply Hcontrib].
      + right. exists k'. split; [by right|done].
    - intros t Ht. apply Hcomplete.
      destruct Ht as [Ht|(k' & [->|Hk']%elem_of_cons & Ht)].
      + left. apply Hu2. by left.
      + left. apply Hu2. right. by apply Hcontrib.
      + right. by exists k'. }
  destruct matrix1 as [|row0 m1']; [cbn in Hrows1; lia|].
  set (matrix1 := row0 :: m1') in *.
  assert (length row0 = n) as Hrow0 by (apply Hlen1; left).
  destruct matrix2 as [|col0 m2']; [cbn in Hrows2; lia|].
  set (matrix2 := col0 :: m2') in *.
  assert (length col0 = c) as Hcol0 by (apply Hlen2; left).
  destruct (mapM_total (λ i, mapM (λ j, foldlM (body i j) [] (range n)) (range c))
              (range r)) as (result & Hresult).
  { intros i Hi%range_elem. apply mapM_total. intros j Hj%range_elem.
    destruct (Hcell i j Hi Hj (range n) []) as (cell & Hc & _).
    { intros k. by rewrite range_elem. }
    by exists cell. }
  exists result. split; [|split].
  - unfold custom_multiply_matrices.
    rewrite bool_decide_eq_false_2 by lia.
    cbn [index matrix1 matrix2 lookup list_lookup mbind result_bind].
    rewrite bool_decide_eq_true_2 by congruence. cbn [negb].
    rewrite Hrow0, Hcol0, Hrows1. exact Hresult.
  - apply mapM_Forall2 in Hresult. split.
    { apply Forall2_length in Hresult. unfold range in Hresult.
      by rewrite length_seq in Hresult. }
    apply Forall_forall. intros row Hin.
    apply list_elem_of_lookup_1 in Hin as (i & Hi).
    destruct (Forall2_lookup_r _ _ _ _ _ Hresult Hi) as (i' & _ & Hrow).
    apply mapM_Forall2, Forall2_length in Hrow. unfold range in Hrow.
    by rewrite length_seq in Hrow.
  - intros i j row cell Hi Hj.
    apply mapM_Forall2 in Hresult.
    destruct (Forall2_lookup_r _ _ _ _ _ Hresult Hi) as (i' & [-> Hir]%range_lookup & Hrow).
    apply mapM_Forall2 in Hrow.
    destruct (Forall2_lookup_r _ _ _ _ _ Hrow Hj) as (j' & [-> Hjc]%range_lookup & Hfold).
    destruct (Hcell i j Hir Hjc (range n) []) as (cell' & Hc & Hsound & Hcomplete).
    { intros k. by rewrite range_elem. }
    assert (cell' = cell) as -> by congruence.
    split.
    + intros sign e [[]%elem_of_nil|(k & _ & (row_i & row_k & H))]%Hsound.
      exists k, row_i, row_k. exact H.
    + intros sign e k row_i row_k He H1 H2 H3 H4 Hsign. apply Hcomplete. right.
      exists k. split.
      { apply range_elem. rewrite <- (Hlen1 row_i) by by eapply list_elem_of_lookup_2.
        by eapply lookup_lt_Some. }
      exists row_i, row_k. cbn. auto 10.
Qed.

Lemma custom_multiply_matrices_cells_witness :
  ∃ result,
    custom_multiply_matrices [[Some 1; Some (-1)]] [[Some (-1)]; [None]]
      (Some [edge_1_2; edge_2_1]) = Ok result ∧
    rectangular 1 1 result.
Proof.
  destruct (custom_multiply_matrices_cells 1 2 1 [[Some 1; Some (-1)]] [[Some (-1)]; [None]]
              [edge_1_2; edge_2_1]) as (result & H1 & H2 & _).
  - lia.
  - lia.
  - split; [done|]. by repeat constructor.
  - split; [done|]. by repeat constructor.
  - cbn. lia.
  - by exists result.
Defined.

(** ** extract_edge_label_components *)

Lemma append_cons (x : ascii) (a b : string) : String x a +:+ b = String x (a +:+ b).
Proof. reflexivity. Qed.

Lemma append_empty_l (a : string) : EmptyString +:+ a = a.
Proof. reflexivity. Qed.

Lemma append_assoc (a b c : string) : (a +:+ b) +:+ c = a +:+ (b +:+ c).
Proof.
  induction a as [|x a IH]; [done|]. by rewrite !append_cons, IH.
Qed.

Lemma append_empty_r (a : string) : a +:+ EmptyString = a.
Proof. induction a as [|x a IH]; [done|]. by rewrite append_cons, IH. Qed.

Lemma has_char_app (c : ascii) (a b : string) :
  has_char c (a +:+ b) = has_char c a || has_char c b.
Proof.
  induction a as [|x a IH]; [done|].
  rewrite append_cons. cbn [has_char]. by rewrite IH, orb_assoc.
Qed.

Lemma replace_char_app (c : ascii) (new a b : string) :
  replace_char c new (a +:+ b) = replace_char c new a +:+ replace_char c new b.
Proof.
  induction a as [|x a IH]; [done|].
  rewrite append_cons. cbn [replace_char]. rewrite IH.
  destruct (Ascii.eqb x c); [by rewrite append_assoc|done].
Qed.

Lemma replace_char_absent (c : ascii) (new s : string) :
  has_char c s = false → replace_char c new s = s.
Proof.
  induction s as [|x s IH]; cbn [has_char replace_char]; [done|].
  intros [-> Hs]%orb_false_elim. by rewrite IH.
Qed.

Lemma split_from_absent (c : ascii) (cur s : string) :
  has_char c s = false → split_from c cur s = [cur +:+ s].
Proof.
  revert cur. induction s as [|x s IH]; intros cur; cbn [has_char split_from].
  { by rewrite append_empty_r. }
  intros [-> Hs]%orb_false_elim. rewrite IH by done.
  by rewrite append_assoc.
Qed.

Lemma split_from_sep (c : ascii) (cur s rest : string) :
  has_char c s = false →
  split_from c cur (s +:+ String c rest) = (cur +:+ s) :: split_from c EmptyString rest.
Proof.
  revert cur. induction s as [|x s IH]; intros cur.
  { intros _. rewrite append_empty_l. cbn [split_from].
    by rewrite Ascii.eqb_refl, append_empty_r. }
  rewrite append_cons. cbn [has_char split_from].
  intros [-> Hs]%orb_false_elim. rewrite IH by done.
  by rewrite append_assoc.
Qed.

(** X11: [extract_edge_label_components] takes apart a label that [get_efm]
    composed from three strings free of [<], [>] and [;].  The blank before
    [<] stays at the end of the first component and the blank after [;] at
    the start of the third. *)
Theorem extract_edge_label_components_flow_label (r a b : string) :
  has_char "<" r = false → has_char ">" r = false →
  has_char "<" a = false → has_char ">" a = false → has_char ";" a = false →
  has_char "<" b = false → has_char ">" b = false → has_char ";" b = false →
  extract_edge_label_components (Some (flow_label r a b))
  = Ok ({[r +:+ " "]}, {[a]}, {[" " +:+ b]}).
Proof.
  intros Hr1 Hr2 Ha1 Ha2 Ha3 Hb1 Hb2 Hb3.
  unfold extract_edge_label_components.
  rewrite bool_decide_eq_false_2; last first.
  { unfold flow_label. intros H. destruct r; discriminate H. }
  assert (replace_char ">" "" (flow_label r a b)
          = (r +:+ " ") +:+ String "<" (a +:+ String ";" (" " +:+ b))) as ->.
  { unfold flow_label. rewrite !replace_char_app.
    rewrite !replace_char_absent by done.
    change (replace_char ">" "" " <") with " <".
    change (replace_char ">" "" "; ") with "; ".
    change (replace_char ">" "" ">") with EmptyString.
    by rewrite append_assoc, append_empty_r. }
  unfold split.
  rewrite (split_from_sep "<" EmptyString (r +:+ " ") (a +:+ String ";" (" " +:+ b)))
    by (rewrite has_char_app, Hr1; done).
  rewrite (split_from_absent "<" EmptyString (a +:+ String ";" (" " +:+ b))); last first.
  { rewrite has_char_app, Ha1. cbn [has_char orb Ascii.eqb].
    rewrite has_char_app, Hb1. done. }
  rewrite !append_empty_l.
  cbn [length index lookup list_lookup mbind result_bind].
  rewrite bool_decide_eq_false_2 by lia. cbn [mbind result_bind].
  rewrite (split_from_sep ";" EmptyString a (" " +:+ b)) by done.
  rewrite (split_from_absent ";" EmptyString (" " +:+ b)); last first.
  { rewrite has_char_app, Hb3. done. }
  rewrite !append_empty_l.
  cbn [length index lookup list_lookup mbind result_bind].
  rewrite bool_decide_eq_false_2 by lia.
  done.
Qed.

Lemma extract_edge_label_components_flow_label_witness :
  extract_edge_label_components (Some (flow_label "x3" "e1" "e2"))
  = Ok ({["x3" +:+ " "]}, {["e1"]}, {[" " +:+ "e2"]}).
Proof.
  apply (extract_edge_label_components_flow_label "x3" "e1" "e2"); reflexivity.
Defined.

(** ** Matrices of triples *)

Lemma mapMM_pure {A B} (f : A → M B) (g : A → B) (l : list A) (s : nat) :
  (∀ a, a ∈ l → f a s = Ok (g a, s)) → mapMM f l s = Ok (g <$> l, s).
Proof.
  induction l as [|x l IH]; intros Hf; [done|].
  cbn [mapMM]. rewrite (M_bind_run _ _ _ _ _ (Hf x ltac:(left))).
  rewrite (M_bind_run _ _ _ _ _ (IH (λ a Ha, Hf a ltac:(by right)))). done.
Qed.

Lemma foldlMM_idle {A B} (f : A → B → M A) (l : list B) (a : A) (s : nat) :
  (∀ b, b ∈ l → f a b s = Ok (a, s)) → foldlMM f a l s = Ok (a, s).
Proof.
  induction l as [|x l IH]; intros Hf; [done|].
  cbn [foldlMM]. rewrite (M_bind_run _ _ _ _ _ (Hf x ltac:(left))).
  apply IH. intros b Hb. apply Hf. by right.
Qed.

Lemma fill_matrix_pure (n : nat) (f : nat → nat → M cell) (g : nat → nat → cell)
    (s : nat) :
  (∀ i j, (i < n)%nat → (j < n)%nat → f i j s = Ok (g i j, s)) →
  fill_matrix n n f s = Ok ((λ i, g i <$> range n) <$> range n, s).
Proof.
  intros Hf. unfold fill_matrix. apply mapMM_pure. intros i Hi%range_elem.
  apply mapMM_pure. intros j Hj%range_elem. by apply Hf.
Qed.

Lemma square_cell_at (n : nat) (P : cell → Prop) (m : matrix) (i j : nat) :
  square n P m → (i < n)%nat → (j < n)%nat →
  ∃ row c, m !! i = Some row ∧ row !! j = Some c ∧ cell_at m i j = Some c ∧ P c.
Proof.
  intros [Hlen Hrows] Hi Hj.
  destruct (lookup_lt_is_Some_2 m i) as (row & Hrow); [lia|].
  pose proof (proj1 (Forall_forall _ _) Hrows row (list_elem_of_lookup_2 _ _ _ Hrow))
    as [Hrlen Hcells].
  destruct (lookup_lt_is_Some_2 row j) as (c & Hc); [lia|].
  exists row, c. split; [done|]. split; [done|]. split.
  - unfold cell_at. rewrite Hrow. done.
  - by apply (proj1 (Forall_forall _ _) Hcells c), list_elem_of_lookup_2 with j.
Qed.

Lemma square_tabulate (n : nat) (P : cell → Prop) (m : matrix) :
  square n P m →
  m = (λ i, (λ j, default None (cell_at m i j)) <$> range n) <$> range n.
Proof.
  intros Hm. pose proof Hm as [Hlen Hrows].
  apply list_eq_same_length with n;
    [unfold range; by rewrite length_fmap, length_seq|done|].
  intros i row row' Hi Hrow Hrow'.
  apply list_lookup_fmap_Some in Hrow' as (i' & -> & [-> _]%range_lookup).
  pose proof (proj1 (Forall_forall _ _) Hrows row (list_elem_of_lookup_2 _ _ _ Hrow))
    as [Hrlen _].
  apply list_eq_same_length with n;
    [unfold range; by rewrite length_fmap, length_seq|done|].
  intros j c c' Hj Hc Hc'.
  apply list_lookup_fmap_Some in Hc' as (j' & -> & [-> _]%range_lookup).
  unfold cell_at. rewrite Hrow. cbn. by rewrite Hc.
Qed.

Lemma null_matrix_square (n : nat) (P : cell → Prop) :
  P None → square n P (get_null_matrix n n).
Proof.
  intros HP. unfold get_null_matrix, range. split; [by rewrite length_map, length_seq|].
  apply Forall_forall. intros row (i & <- & _)%list_elem_of_In%in_map_iff.
  split; [by rewrite length_map, length_seq|].
  apply Forall_forall. by intros c (j & <- & _)%list_elem_of_In%in_map_iff.
Qed.

Lemma null_matrix_cell_at (n i j : nat) :
  (i < n)%nat → (j < n)%nat → cell_at (get_null_matrix n n) i j = Some None.
Proof.
  intros Hi Hj.
  destruct (square_cell_at n (λ c, c = None) (get_null_matrix n n) i j)
    as (row & c & _ & _ & -> & ->); auto using null_matrix_square.
Qed.

Lemma same_sets_test (X : gset element) :
  bool_decide (size (X ∖ X) = 0%nat) && bool_decide (size (X ∖ X) = 0%nat) = true.
Proof.
  assert (X ∖ X = ∅) as -> by set_solver. by rewrite size_empty.
Qed.

Lemma index_lookup {A} (l : list A) (i : nat) (x : A) :
  l !! i = Some x → index l i = Ok x.
Proof. by intros ->%index_ok. Qed.

(** The cells of a sum over one generating set: the table is filled cell by
    cell with [add_cells], and nothing is allocated. *)
Lemma add_adjacency_matrices_cells (P Q : cell → Prop) (a b : matrix)
    (X : gset element) (s : nat) :
  square (size X) P a → square (size X) Q b →
  add_adjacency_matrices a X b X s =
  Ok ((λ i, (λ j, add_cells (default None (cell_at a i j)) (default None (cell_at b i j)))
              <$> range (size X)) <$> range (size X), s).
Proof.
  intros Ha Hb. unfold add_adjacency_matrices. rewrite same_sets_test.
  apply fill_matrix_pure. intros i j Hi Hj.
  destruct (square_cell_at _ _ a i j Ha Hi Hj) as (row1 & c1 & Hr1 & Hc1 & -> & _).
  destruct (square_cell_at _ _ b i j Hb Hi Hj) as (row2 & c2 & Hr2 & Hc2 & -> & _).
  rewrite (M_bind_run _ _ _ _ _ (f_equal (λ r, lift r s) (index_lookup _ _ _ Hr1))).
  rewrite (M_bind_run _ _ _ _ _ (f_equal (λ r, lift r s) (index_lookup _ _ _ Hc1))).
  rewrite (M_bind_run _ _ _ _ _ (f_equal (λ r, lift r s) (index_lookup _ _ _ Hr2))).
  rewrite (M_bind_run _ _ _ _ _ (f_equal (λ r, lift r s) (index_lookup _ _ _ Hc2))).
  done.
Qed.

Lemma tabulate_ext (n : nat) (g g' : nat → nat → cell) :
  (∀ i j, (i < n)%nat → (j < n)%nat → g i j = g' i j) →
  (λ i, g i <$> range n) <$> range n = (λ i, g' i <$> range n) <$> range n.
Proof.
  intros Hg. apply list_fmap_ext. intros k i [-> Hi]%range_lookup.
  apply list_fmap_ext. intros k' j [-> Hj]%range_lookup. by apply Hg.
Qed.

(** X12: the null matrix is neutral for [add_adjacency_matrices]: added to
    a square matrix over the same generating set, on either side, it gives
    that matrix back, and no object is created. *)
Theorem add_adjacency_matrices_null_neutral (m : matrix) (X : gset element) (s : nat) :
  square (size X) (λ _, True) m →
  add_adjacency_matrices m X (get_null_matrix (size X) (size X)) X s = Ok (m, s) ∧
  add_adjacency_matrices (get_null_matrix (size X) (size X)) X m X s = Ok (m, s).
Proof.
  intros Hm.
  pose proof (null_matrix_square (size X) (λ _, True) I) as Hnull.
  rewrite (add_adjacency_matrices_cells _ _ _ _ _ s Hm Hnull).
  rewrite (add_adjacency_matrices_cells _ _ _ _ _ s Hnull Hm).
  split; apply (f_equal (λ x, Ok (x, s))); symmetry;
    (etransitivity; [exact (square_tabulate _ _ m Hm)|]);
    apply tabulate_ext; intros i j Hi Hj;
    rewrite (null_matrix_cell_at _ i j Hi Hj); cbn [default];
    by destruct (default None (cell_at m i j)).
Qed.

Lemma add_adjacency_matrices_null_neutral_witness :
  add_adjacency_matrices [[None; Some (Nest [Item triple_1_3])]; [None; None]] (ints [1; 2])
    (get_null_matrix (size (ints [1; 2])) (size (ints [1; 2]))) (ints [1; 2]) 0%nat
  = Ok ([[None; Some (Nest [Item triple_1_3])]; [None; None]], 0%nat).
Proof.
  apply (add_adjacency_matrices_null_neutral
           [[None; Some (Nest [Item triple_1_3])]; [None; None]] (ints [1; 2]) 0%nat).
  split; [by_eval|].
  repeat constructor; by_eval.
Defined.

Lemma map_fmap {A B} (f : A → B) (l : list A) : map f l = f <$> l.
Proof. induction l as [|x l IH]; [done|]. cbn. by rewrite IH. Qed.

Lemma multiply_components_none (a b : matrix) (X : gset element) (i j : nat) (s : nat) :
  square (size X) (λ _, True) a → square (size X) (λ _, True) b →
  (i < size X)%nat → (j < size X)%nat →
  (∀ k, (k < size X)%nat → cell_at a i k = Some None ∨ cell_at b k j = Some None) →
  multiply_components a b X i j (size X) s = Ok (None, s).
Proof.
  intros Ha Hb Hi Hj Hnone. unfold multiply_components.
  rewrite bool_decide_eq_false_2 by lia.
  match goal with |- (foldlMM ?f [] ?l ≫= _) s = _ =>
    assert (foldlMM f [] l s = Ok ([], s)) as Hfold;
      [apply foldlMM_idle|by rewrite (M_bind_run _ _ _ _ _ Hfold)]
  end.
  intros k Hk%range_elem.
  destruct (square_cell_at _ _ a i k Ha Hi Hk) as (row_i & a_ik & Hr1 & Hc1 & Hcell1 & _).
  destruct (square_cell_at _ _ b k j Hb Hk Hj) as (row_k & b_kj & Hr2 & Hc2 & Hcell2 & _).
  destruct (elements_index X i Hi) as [x_i Hx_i].
  destruct (elements_index X j Hj) as [x_j Hx_j].
  destruct (elements_index X k Hk) as [x_k Hx_k].
  rewrite (M_bind_run _ _ _ _ _ (f_equal (λ r, lift r s) (index_lookup _ _ _ Hr1))).
  rewrite (M_bind_run _ _ _ _ _ (f_equal (λ r, lift r s) (index_lookup _ _ _ Hc1))).
  rewrite (M_bind_run _ _ _ _ _ (f_equal (λ r, lift r s) (index_lookup _ _ _ Hr2))).
  rewrite (M_bind_run _ _ _ _ _ (f_equal (λ r, lift r s) (index_lookup _ _ _ Hc2))).
  rewrite (M_bind_run _ _ _ _ _ (f_equal (λ r, lift r s) Hx_i)).
  rewrite (M_bind_run _ _ _ _ _ (f_equal (λ r, lift r s) Hx_j)).
  rewrite (M_bind_run _ _ _ _ _ (f_equal (λ r, lift r s) Hx_k)).
  assert (multiply_triple_lists a_ik b_kj x_i x_j x_k s = Ok (None, s)) as Hmul.
  { destruct (Hnone k Hk) as [H|H].
    - assert (a_ik = None) as -> by congruence. done.
    - assert (b_kj = None) as -> by congruence. by destruct a_ik. }
  by rewrite (M_bind_run _ _ _ _ _ Hmul).
Qed.

(** X13: the null matrix absorbs in [multiply_adjacency_matrices]: the
    product of a square matrix with the null matrix over the same generating
    set, on either side, is the null matrix, and no triple is created. *)
Theorem multiply_adjacency_matrices_null_absorbs (m : matrix) (X : gset element)
    (s : nat) :
  square (size X) (λ _, True) m →
  multiply_adjacency_matrices m X (get_null_matrix (size X) (size X)) X s
    = Ok (get_null_matrix (size X) (size X), s) ∧
  multiply_adjacency_matrices (get_null_matrix (size X) (size X)) X m X s
    = Ok (get_null_matrix (size X) (size X), s).
Proof.
  intros Hm.
  pose proof (null_matrix_square (size X) (λ _, True) I) as Hnull.
  assert (get_null_matrix (size X) (size X)
          = (λ i, (λ j, None) <$> range (size X)) <$> range (size X)) as Htab.
  { unfold get_null_matrix. rewrite map_fmap. apply list_fmap_ext.
    intros k i _. apply map_fmap. }
  assert (∀ a b : matrix,
            square (size X) (λ _, True) a → square (size X) (λ _, True) b →
            (∀ i j k, (i < size X)%nat → (j < size X)%nat → (k < size X)%nat →
               cell_at a i k = Some None ∨ cell_at b k j = Some None) →
            fill_matrix (size X) (size X)
              (λ i j, multiply_components a b X i j (size X)) s
            = Ok (get_null_matrix (size X) (size X), s)) as Hzero.
  { intros a b Ha Hb Hab. rewrite Htab. apply fill_matrix_pure. intros i j Hi Hj.
    apply multiply_components_none; auto. }
  unfold multiply_adjacency_matrices. rewrite same_sets_test. cbn [negb].
  split; apply Hzero; try done; intros i j k Hi Hj Hk.
  - right. by apply null_matrix_cell_at.
  - left. by apply null_matrix_cell_at.
Qed.

Lemma multiply_adjacency_matrices_null_absorbs_witness :
  multiply_adjacency_matrices [[None; Some (Nest [Item triple_1_3])]; [None; None]]
    (ints [1; 2])
    (get_null_matrix (size (ints [1; 2])) (size (ints [1; 2]))) (ints [1; 2]) 0%nat
  = Ok (get_null_matrix (size (ints [1; 2])) (size (ints [1; 2])), 0%nat).
Proof.
  apply (multiply_adjacency_matrices_null_absorbs
           [[None; Some (Nest [Item triple_1_3])]; [None; None]] (ints [1; 2]) 0%nat).
  split; [by_eval|].
  repeat constructor; by_eval.
Defined.

(** ** adjacency_matrix *)

Lemma mapMM_indexed {A B} (R : A → B → Prop) (f : A → M B) (l : list A) (s : nat) :
  (∀ a s, a ∈ l → ∃ b s', f a s = Ok (b, s') ∧ R a b) →
  ∃ r s', mapMM f l s = Ok (r, s') ∧ Forall2 R l r.
Proof.
  revert s. induction l as [|x l IH]; intros s Hf.
  { exists [], s. split; [done|constructor]. }
  destruct (Hf x s ltac:(left)) as (b & s1 & Hb & HR).
  destruct (IH s1) as (r & s' & Hr & Hall); [intros a s0 Ha; apply Hf; by right|].
  exists (b :: r), s'. split; [|by constructor].
  cbn [mapMM]. rewrite (M_bind_run _ _ _ _ _ Hb), (M_bind_run _ _ _ _ _ Hr). done.
Qed.

Lemma cell_at_tabulate (n : nat) (g : nat → nat → cell) (i j : nat) :
  (i < n)%nat → (j < n)%nat →
  cell_at ((λ i, g i <$> range n) <$> range n) i j = Some (g i j).
Proof.
  intros Hi Hj. unfold cell_at.
  rewrite list_lookup_fmap, (proj2 (range_lookup n i i)) by done. cbn.
  by rewrite list_lookup_fmap, (proj2 (range_lookup n j j)).
Qed.

Lemma cell_at_lt (n : nat) (P : cell → Prop) (m : matrix) (i j : nat) (c : cell) :
  square n P m → cell_at m i j = Some c → (i < n)%nat ∧ (j < n)%nat.
Proof.
  intros [Hlen Hrows]. unfold cell_at.
  destruct (m !! i) as [row|] eqn:Hrow; [|done]. cbn. intros Hc.
  pose proof (proj1 (Forall_forall _ _) Hrows row (list_elem_of_lookup_2 _ _ _ Hrow))
    as [Hrlen _].
  apply lookup_lt_Some in Hrow, Hc. lia.
Qed.

Lemma fill_matrix_indexed (n : nat) (P : nat → nat → cell → Prop)
    (f : nat → nat → M cell) (s : nat) :
  (∀ i j s, (i < n)%nat → (j < n)%nat → ∃ c s', f i j s = Ok (c, s') ∧ P i j c) →
  ∃ m s', fill_matrix n n f s = Ok (m, s') ∧
    square n (λ _, True) m ∧
    ∀ i j, (i < n)%nat → (j < n)%nat → ∃ c, cell_at m i j = Some c ∧ P i j c.
Proof.
  intros Hf. unfold fill_matrix.
  destruct (mapMM_indexed (λ i row, Forall2 (P i) (range n) row)
              (λ i, mapMM (λ j, f i j) (range n)) (range n) s) as (m & s' & Hm & Hall).
  { intros i s0 Hi%range_elem. apply mapMM_indexed.
    intros j s1 Hj%range_elem. by apply Hf. }
  exists m, s'. split; [done|].
  assert (length m = n) as Hlen.
  { apply Forall2_length in Hall. unfold range in Hall. by rewrite length_seq in Hall. }
  assert (∀ i row, m !! i = Some row → Forall2 (P i) (range n) row) as Hrow.
  { intros i row Hi.
    destruct (Forall2_lookup_r _ _ _ _ _ Hall Hi) as (i' & [-> _]%range_lookup & H).
    done. }
  split.
  - split; [done|]. apply Forall_forall. intros row (i & Hi)%list_elem_of_lookup_1.
    apply Hrow, Forall2_length in Hi. unfold range in Hi. rewrite length_seq in Hi.
    split; [done|]. by apply Forall_true.
  - intros i j Hi Hj.
    destruct (lookup_lt_is_Some_2 m i) as (row & Hr); [lia|].
    pose proof (Hrow i row Hr) as Hcells.
    destruct (Forall2_lookup_l _ _ _ _ _ Hcells (proj2 (range_lookup n j j) (conj eq_refl Hj)))
      as (c & Hc & HP).
    exists c. split; [|done]. unfold cell_at. by rewrite Hr.
Qed.

Lemma triple_in_fresh (t : Triple.t) (l : list Triple.t) :
  Forall (λ x, (Triple.id x < Triple.id t)%nat) l → triple_in t l = false.
Proof.
  intros Hl. unfold triple_in. apply not_true_is_false.
  intros (x & Hx%list_elem_of_In & Heq%bool_decide_eq_true_1)%existsb_exists.
  pose proof (proj1 (Forall_forall _ _) Hl x Hx) as Hlt. cbn beta in Hlt. lia.
Qed.

(** The triples of one cell: one per edge, with consecutive new identities. *)
Lemma adjacency_triples (x_i x_j : element) (edges : list Edge.t)
    (acc : list Triple.t) (s : nat) :
  Forall (λ t, (Triple.id t < s)%nat) acc →
  foldlMM (λ triples_list edge,
      triple ← Triple.init (get_coinputs edge x_i) (get_cooutputs edge x_j)
                 (Some (Item edge));
      mret (if triple_in triple triples_list then triples_list
            else triples_list ++ [triple])) acc edges s
  = Ok (acc ++ imap (λ k e, Triple.mk (s + k) (get_coinputs e x_i) (get_cooutputs e x_j)
                              (Item e)) edges,
        (s + length edges)%nat).
Proof.
  revert acc s. induction edges as [|e edges IH]; intros acc s Hacc.
  { cbn. by rewrite app_nil_r, Nat.add_0_r. }
  cbn [foldlMM].
  set (t := Triple.mk s (get_coinputs e x_i) (get_cooutputs e x_j) (Item e)).
  assert (Triple.init (get_coinputs e x_i) (get_cooutputs e x_j) (Some (Item e)) s
          = Ok (t, S s)) as Hinit by done.
  rewrite (M_bind_run _ _ _ _ _ (M_bind_run _ _ _ _ _ Hinit)).
  cbn [mret M_ret]. rewrite (triple_in_fresh t acc) by done.
  rewrite IH; last first.
  { apply Forall_app. split.
    - eapply Forall_impl; [done|]. cbn. lia.
    - constructor; [cbn; lia|constructor]. }
  rewrite <- app_assoc. cbn [app length imap]. rewrite Nat.add_0_r, Nat.add_succ_r.
  symmetry. erewrite imap_ext; [reflexivity|].
  intros k x _. cbn. by rewrite Nat.add_succ_r.
Qed.

(** The table that [adjacency_matrix] fills: cell [(i, j)] is [None] when
    no edge leads from [x_i] to [x_j], and otherwise lists one new triple for
    each edge that [get_edges] returns. *)
Lemma adjacency_table_cells (self : Metagraph.t) (s : nat) :
  ∃ table s',
    adjacency_table self s = Ok (table, s') ∧
    square (size (Metagraph.generating_set self)) (λ _, True) table ∧
    ∀ i j x_i x_j,
      elements (Metagraph.generating_set self) !! i = Some x_i →
      elements (Metagraph.generating_set self) !! j = Some x_j →
      ∃ c, cell_at table i j = Some c ∧
        ((get_edges self x_i x_j = [] ∧ c = None) ∨
         (get_edges self x_i x_j ≠ [] ∧
          ∃ first,
            c = Some (Nest (Item <$>
                  imap (λ k e, Triple.mk (first + k) (get_coinputs e x_i)
                                 (get_cooutputs e x_j) (Item e))
                    (get_edges self x_i x_j))))).
Proof.
  set (X := Metagraph.generating_set self).
  destruct (fill_matrix_indexed (size X)
              (λ i j c, ∀ x_i x_j,
                 elements X !! i = Some x_i → elements X !! j = Some x_j →
                 (get_edges self x_i x_j = [] ∧ c = None) ∨
                 (get_edges self x_i x_j ≠ [] ∧
                  ∃ first,
                    c = Some (Nest (Item <$>
                          imap (λ k e, Triple.mk (first + k) (get_coinputs e x_i)
                                         (get_cooutputs e x_j) (Item e))
                            (get_edges self x_i x_j)))))
              (λ i j,
                 x_i ← lift (index (elements X) i);
                 x_j ← lift (index (elements X) j);
                 let edges := get_edges self x_i x_j in
                 if bool_decide (0 < length edges)%nat then
                   triples_list ←
                     foldlMM (λ triples_list edge,
                       triple ← Triple.init (get_coinputs edge x_i)
                                  (get_cooutputs edge x_j) (Some (Item edge));
                       mret (if triple_in triple triples_list then triples_list
                             else triples_list ++ [triple])) [] edges;
                   mret (Some (Nest (Item <$> triples_list)))
                 else mret None) s) as (m & s' & Hm & Hsq & Hcells).
  { intros i j s0 Hi Hj.
    destruct (lookup_lt_is_Some_2 (elements X) i) as (x_i & Hx_i); [done|].
    destruct (lookup_lt_is_Some_2 (elements X) j) as (x_j & Hx_j); [done|].
    rewrite (M_bind_run _ _ _ _ _ (f_equal (λ r, lift r s0) (index_lookup _ _ _ Hx_i))).
    rewrite (M_bind_run _ _ _ _ _ (f_equal (λ r, lift r s0) (index_lookup _ _ _ Hx_j))).
    cbv zeta.
    destruct (bool_decide (0 < length (get_edges self x_i x_j))%nat) eqn:Hlen.
    - apply bool_decide_eq_true_1 in Hlen.
      rewrite (M_bind_run _ _ _ _ _ (adjacency_triples x_i x_j _ [] s0 ltac:(constructor))).
      eexists _, _. split; [reflexivity|].
      intros x_i' x_j' Hi' Hj'.
      assert (x_i' = x_i) as -> by congruence.
      assert (x_j' = x_j) as -> by congruence.
      right. split; [by destruct (get_edges self x_i x_j); [cbn in Hlen; lia|]|].
      by exists s0.
    - apply bool_decide_eq_false_1 in Hlen.
      exists None, s0. split; [done|].
      intros x_i' x_j' Hi' Hj'.
      assert (x_i' = x_i) as -> by congruence.
      assert (x_j' = x_j) as -> by congruence.
      left. split; [|done]. destruct (get_edges self x_i x_j); [done|cbn in Hlen; lia]. }
  exists m, s'. split; [exact Hm|]. split; [done|].
  intros i j x_i x_j Hi Hj.
  destruct (Hcells i j) as (c & Hc & HP).
  { by eapply lookup_lt_Some. }
  { by eapply lookup_lt_Some. }
  exists c. split; [done|]. by apply HP.
Qed.


Lemma one_length_spec (cells : list cell) :
  one_length cells = true ↔
  cells ≠ [] ∧ ∃ n, Forall (λ c, cell_length c = Some n) cells.
Proof.
  destruct cells as [|c cells]; cbn [one_length].
  { split; [done|]. by intros [[] _]. }
  destruct (cell_length c) as [n|] eqn:Hc.
  - rewrite forallb_forall. split.
    + intros Hall. split; [done|]. exists n. constructor; [done|].
      apply Forall_forall. intros c' Hc'%list_elem_of_In.
      specialize (Hall c' Hc'). cbn beta in Hall.
      by apply bool_decide_eq_true_1 in Hall.
    + intros (_ & n' & Hall). apply Forall_cons in Hall as [Hn Hall].
      assert (n' = n) as -> by congruence.
      intros c' Hc'%list_elem_of_In. apply bool_decide_eq_true_2.
      by apply (proj1 (Forall_forall _ _) Hall).
  - split; [done|]. intros (_ & n & Hall). apply Forall_cons in Hall as [Hn _].
    congruence.
Qed.

Lemma elem_of_concat_cell_at (m : matrix) (c : cell) :
  c ∈ concat m ↔ ∃ i j, cell_at m i j = Some c.
Proof.
  rewrite list_elem_of_In, in_concat. unfold cell_at. split.
  - intros (row & (i & Hi)%list_elem_of_In%list_elem_of_lookup_1
              & (j & Hj)%list_elem_of_In%list_elem_of_lookup_1).
    exists i, j. by rewrite Hi.
  - intros (i & j & H). destruct (m !! i) as [row|] eqn:Hi; [|done]. cbn in H.
    exists row. split; apply list_elem_of_In; by eapply list_elem_of_lookup_2.
Qed.

(** X14: [adjacency_matrix] fills a square table over the generating set and
    hands it to [numpy.matrix].  Cell [(i, j)] of the table is [None] when no
    edge has [x_i] in its invertex and [x_j] in its outvertex; otherwise it
    lists one new triple for each edge that [get_edges] returns, in that
    order, with the co-inputs and co-outputs of the edge.  [numpy.matrix]
    raises [ValueError] exactly when every pair of elements is joined by
    edges and all pairs by the same number of them; otherwise the call
    returns the table. *)
Theorem adjacency_matrix_cells (self : Metagraph.t) (s : nat) :
  ∃ table s',
    adjacency_table self s = Ok (table, s') ∧
    square (size (Metagraph.generating_set self)) (λ _, True) table ∧
    (∀ i j x_i x_j,
      elements (Metagraph.generating_set self) !! i = Some x_i →
      elements (Metagraph.generating_set self) !! j = Some x_j →
      ∃ c, cell_at table i j = Some c ∧
        ((get_edges self x_i x_j = [] ∧ c = None) ∨
         (get_edges self x_i x_j ≠ [] ∧
          ∃ first,
            c = Some (Nest (Item <$>
                  imap (λ k e, Triple.mk (first + k) (get_coinputs e x_i)
                                 (get_cooutputs e x_j) (Item e))
                    (get_edges self x_i x_j)))))) ∧
    (adjacency_matrix self s = Raise (ValueError "matrix must be 2-dimensional") ∨
     adjacency_matrix self s =
       Ok (if decide (size (Metagraph.generating_set self) = 0%nat) then [[]] else table,
           s')) ∧
    (adjacency_matrix self s = Raise (ValueError "matrix must be 2-dimensional") ↔
     (0 < size (Metagraph.generating_set self))%nat ∧
     ∃ n, ∀ x_i x_j,
       x_i ∈ Metagraph.generating_set self → x_j ∈ Metagraph.generating_set self →
       length (get_edges self x_i x_j) = S n).
Proof.
  set (X := Metagraph.generating_set self).
  destruct (adjacency_table_cells self s) as (table & s' & Htable & Hsq & Hcells).
  fold X in Hsq, Hcells.
  exists table, s'. split; [done|]. split; [done|]. split; [done|].
  rewrite (adjacency_matrix_run _ _ _ _ Htable).
  assert (∀ x, x ∈ X ↔ ∃ i, elements X !! i = Some x) as Hin.
  { intros x. by rewrite <- elem_of_elements, list_elem_of_lookup. }
  assert (∀ i j x_i x_j c,
            elements X !! i = Some x_i → elements X !! j = Some x_j →
            cell_at table i j = Some c →
            cell_length c = match get_edges self x_i x_j with
                            | [] => None
                            | _ :: _ => Some (length (get_edges self x_i x_j))
                            end) as Hlen.
  { intros i j x_i x_j c Hx_i Hx_j Hc.
    destruct (Hcells i j x_i x_j Hx_i Hx_j) as (c' & Hc' & Hcase).
    assert (c' = c) as -> by congruence.
    destruct Hcase as [[-> ->]|(Hne & first & ->)]; [done|].
    cbn [cell_length]. rewrite length_fmap, length_imap.
    by destruct (get_edges self x_i x_j). }
  assert (length table = size X) as Hrows by apply Hsq.
  split.
  { unfold numpy_matrix. destruct table as [|row rest].
    - right. cbn in Hrows. by rewrite decide_True.
    - cbn in Hrows. rewrite decide_False by lia.
      destruct (one_length _); [by left|by right]. }
  split.
  - intros Hraise.
    assert (one_length (concat table) = true) as Hone.
    { unfold numpy_matrix in Hraise. destruct table; [done|].
      by destruct (one_length _). }
    apply one_length_spec in Hone as (Hcell & n & Hall).
    split.
    { destruct table; [done|]. cbn in Hrows. lia. }
    exists (pred n). intros x_i x_j (i & Hx_i)%Hin (j & Hx_j)%Hin.
    destruct (Hcells i j x_i x_j Hx_i Hx_j) as (c & Hc & _).
    assert (cell_length c = Some n) as Hn.
    { apply (proj1 (Forall_forall _ _) Hall), elem_of_concat_cell_at. by exists i, j. }
    rewrite (Hlen i j x_i x_j c Hx_i Hx_j Hc) in Hn.
    destruct (get_edges self x_i x_j); [done|]. injection Hn as <-. done.
  - intros (Hpos & n & Hpairs).
    assert (one_length (concat table) = true) as Hone.
    { apply one_length_spec. split.
      - destruct (lookup_lt_is_Some_2 (elements X) 0) as (x & Hx); [done|].
        destruct (Hcells 0%nat 0%nat x x Hx Hx) as (c & Hc & _).
        assert (c ∈ concat table) as Hin' by (apply elem_of_concat_cell_at; eauto).
        intros Hnil. rewrite Hnil in Hin'. by apply elem_of_nil in Hin'.
      - exists (S n). apply Forall_forall. intros c (i & j & Hc)%elem_of_concat_cell_at.
        destruct (cell_at_lt _ _ _ _ _ _ Hsq Hc) as [Hi Hj].
        destruct (lookup_lt_is_Some_2 (elements X) i) as (x_i & Hx_i); [done|].
        destruct (lookup_lt_is_Some_2 (elements X) j) as (x_j & Hx_j); [done|].
        rewrite (Hlen i j x_i x_j c Hx_i Hx_j Hc).
        assert (length (get_edges self x_i x_j) = S n) as Hl.
        { apply Hpairs; apply Hin; eauto. }
        destruct (get_edges self x_i x_j); [done|]. by rewrite Hl. }
    unfold numpy_matrix. destruct table as [|row rest]; [cbn in Hrows; lia|].
    by rewrite Hone.
Qed.

(** ** get_closure *)

Lemma closure_iterates_support (X : gset element) (adjacency_matrix : matrix)
    (n : nat) (p q : matrix * matrix) (s s' : nat) :
  square (size X) (flat_cell plain_triple) adjacency_matrix →
  square (size X) (flat_cell plain_triple) p.1 →
  square (size X) (λ _, True) p.2 →
  closure_iterates X adjacency_matrix n p s = Ok (q, s') →
  square (size X) (λ _, True) q.2 ∧
  ∀ i j x, cell_at p.2 i j = Some (Some x) → ∃ y, cell_at q.2 i j = Some (Some y).
Proof.
  intros HA. revert p s. induction n as [|n IH]; intros p s Hp1 Hp2; cbn [closure_iterates].
  { intros [= <- <-]. split; [done|]. eauto. }
  intros (p' & s1 & Hstep & Hrest)%M_bind_ok.
  destruct (closure_step_total X adjacency_matrix p s HA Hp1 Hp2)
    as (p'' & s1' & Hstep' & Hp1' & Hp2').
  assert (p'' = p') as -> by congruence.
  destruct (IH p' s1 Hp1' Hp2' Hrest) as [Hq Hsupport].
  split; [done|]. intros i j x Hx.
  destruct (cell_at_lt _ _ _ _ _ _ Hp2 Hx) as [Hi Hj].
  unfold closure_step in Hstep.
  apply M_bind_ok in Hstep as (a_next & s2 & Hmul & Hstep).
  apply M_bind_ok in Hstep as (a_star & s3 & Hadd & Hret).
  apply mret_ok in Hret as [-> _].
  destruct (multiply_adjacency_matrices_plain p.1 adjacency_matrix X s Hp1 HA)
    as (a_next' & s2' & Hmul' & Hnext).
  assert (a_next' = a_next) as -> by congruence.
  rewrite (add_adjacency_matrices_cells _ _ _ _ _ s2 Hp2 Hnext) in Hadd.
  injection Hadd as <- _.
  apply (Hsupport i j (match default None (cell_at a_next i j) with
                       | None => x
                       | Some b => Nest [x; b]
                       end)).
  cbn [snd]. rewrite cell_at_tabulate by done. rewrite Hx. cbn [default add_cells].
  by destruct (default None (cell_at a_next i j)).
Qed.

(** X15: whenever [get_closure] returns, every cell that is filled in the
    adjacency matrix is filled in the matrix returned, which is a square
    table over the generating set. *)
Theorem get_closure_keeps_adjacency (self : Metagraph.t) (s s' : nat) (m : matrix) :
  get_closure self s = Ok (m, s') →
  ∃ a s1,
    adjacency_matrix self s = Ok (a, s1) ∧
    ((0 < size (Metagraph.generating_set self))%nat →
     square (size (Metagraph.generating_set self)) (λ _, True) m) ∧
    ∀ i j x, cell_at a i j = Some (Some x) → ∃ y, cell_at m i j = Some (Some y).
Proof.
  set (X := Metagraph.generating_set self).
  unfold get_closure. fold X.
  intros (a & s1 & Ha & (a_star & s2 & Hloop & [Hm ->]%lift_ok)%M_bind_ok)%M_bind_ok.
  exists a, s1. split; [done|].
  destruct (adjacency_table_plain self s) as (table & s0 & Htable & Htsq). fold X in Htsq.
  rewrite (adjacency_matrix_run _ _ _ _ Htable) in Ha.
  apply lift_ok in Ha as [Ha ->].
  destruct (decide (size X = 0%nat)) as [Hzero|Hpos].
  - split; [lia|]. intros i j x Hx. exfalso.
    destruct Htsq as [Hlen _]. destruct table; [|cbn in Hlen; lia].
    injection Ha as <-. by destruct i as [|[|i]], j.
  - assert (square (size X) (flat_cell plain_triple) a) as Hsq
      by (eapply numpy_matrix_square; [done|done|lia]).
    assert (square (size X) (λ _, True) a) as Hsq'
      by (by eapply square_weaken; [|done]).
    destruct (closure_loop_rounds X a (range (size X)) (a, a) s0 Hsq Hsq Hsq')
      as (n & q & s'' & _ & Hiter & Hloop' & _).
    cbn [fst snd] in Hloop'. rewrite Hloop in Hloop'. injection Hloop' as -> ->.
    destruct (closure_iterates_support X a n (a, a) q s0 s'' Hsq Hsq Hsq' Hiter)
      as [Hq Hsupport].
    assert (m = q.2) as ->.
    { apply numpy_matrix_ok; [done|]. destruct Hq as [Hlen _].
      destruct (q.2); [cbn in Hlen; lia|done]. }
    split; [done|]. exact Hsupport.
Qed.

Lemma get_closure_keeps_adjacency_witness :
  ∃ m s',
    get_closure mg_cycle 0%nat = Ok (m, s') ∧
    ∃ a s1,
      adjacency_matrix mg_cycle 0%nat = Ok (a, s1) ∧
      ((0 < size (Metagraph.generating_set mg_cycle))%nat → square 2 (λ _, True) m) ∧
      ∀ i j x, cell_at a i j = Some (Some x) → ∃ y, cell_at m i j = Some (Some y).
Proof.
  assert (returned (get_closure mg_cycle 0%nat) = true) as Hret by by_eval.
  destruct (get_closure mg_cycle 0%nat) as [[m s']|e] eqn:Hrun; [|discriminate Hret].
  exists m, s'. split; [done|].
  exact (get_closure_keeps_adjacency mg_cycle 0%nat s' m Hrun).
Defined.

(** ** multiply_metagraph and add_metagraph *)

(** X16: [multiply_metagraph] never returns a metagraph with edges.  The
    edges it reads off the product matrix are triples, which
    [add_edges_from] refuses; when the call returns, the product had none
    and the edge list has been cleared.  Nodes and generating set are the
    original ones. *)
Theorem multiply_metagraph_clears_edges (self metagraph2 r : Metagraph.t) (s s' : nat) :
  multiply_metagraph self metagraph2 s = Ok (r, s') →
  Metagraph.edges r = [] ∧
  Metagraph.nodes r = Metagraph.nodes self ∧
  Metagraph.generating_set r = Metagraph.generating_set self.
Proof.
  unfold multiply_metagraph.
  destruct (bool_decide (size (Metagraph.generating_set metagraph2) = 0%nat));
    [by intros [H _]%lift_ok; exfalso; revert H; apply raise_mg_not_ok|].
  destruct (negb _);
    [by intros [H _]%lift_ok; exfalso; revert H; apply raise_mg_not_ok|].
  intros (a1 & s1 & _ & (a2 & s2 & _ & (m & s3 & _ & (l & s4 & _ & H)%M_bind_ok
    )%M_bind_ok)%M_bind_ok)%M_bind_ok.
  destruct l as [|x l]; cbn [length bool_decide] in H.
  - rewrite bool_decide_eq_false_2 in H by lia.
    apply mret_ok in H as [-> _]. done.
  - rewrite bool_decide_eq_true_2 in H by lia.
    apply lift_ok in H as [H _]. exfalso. revert H.
    unfold add_non_edges. cbn [foldlM].
    destruct (raise_mg "edge" "format_invalid") eqn:Hraise; [|done].
    exfalso. revert Hraise. apply raise_mg_not_ok.
Qed.

Lemma multiply_metagraph_clears_edges_witness :
  Metagraph.edges mg_forth ≠ [] ∧
  ∃ r s', multiply_metagraph mg_forth mg_forth 0%nat = Ok (r, s') ∧ Metagraph.edges r = [].
Proof.
  split; [done|].
  assert (multiply_metagraph mg_forth mg_forth 0%nat
          = Ok (Metagraph.mk [Node.mk (ints [1]); Node.mk (ints [2])] []
                  (ints [1; 2]) None, 2%nat)) as Hrun by by_eval.
  eexists _, _. split; [exact Hrun|].
  apply (multiply_metagraph_clears_edges mg_forth mg_forth _ 0%nat 2%nat Hrun).
Defined.

Lemma edge_in_app (e : Edge.t) (l k : list Edge.t) :
  edge_in e l = true → edge_in e (l ++ k) = true.
Proof. unfold edge_in. rewrite existsb_app. by intros ->. Qed.

Lemma add_edge_inv (self mg : Metagraph.t) (edge : Edge.t) :
  add_edge self edge = Ok mg →
  Metagraph.generating_set mg = Metagraph.generating_set self ∧
  Metagraph.edges mg =
    (if existsb (edges_equal edge) (Metagraph.edges self)
     then Metagraph.edges self else Metagraph.edges self ++ [edge]).
Proof.
  unfold add_edge. rewrite is_edge_in_list_flat.
  intros (n1 & _ & (n2 & _ & H)%result_bind_ok)%result_bind_ok.
  cbn [mbind result_bind] in H. by injection H as <-.
Qed.

(** X17: [add_metagraph] keeps the edges of the metagraph in place and
    appends edges of the second metagraph; afterwards every edge of the
    second metagraph is in the list, as the same object or as an equal
    edge.  The generating set stays that of the first metagraph. *)
Theorem add_metagraph_covers (self metagraph2 r : Metagraph.t) :
  add_metagraph self metagraph2 = Ok r →
  Metagraph.generating_set r = Metagraph.generating_set self ∧
  (∃ extra, Metagraph.edges r = Metagraph.edges self ++ extra ∧
            ∀ e, e ∈ extra → e ∈ Metagraph.edges metagraph2) ∧
  ∀ e, e ∈ Metagraph.edges metagraph2 →
    edge_in e (Metagraph.edges r) || existsb (edges_equal e) (Metagraph.edges r) = true.
Proof.
  unfold add_metagraph.
  destruct (bool_decide (size (Metagraph.generating_set metagraph2) = 0%nat));
    [by intros H; exfalso; revert H; apply raise_mg_not_ok|].
  generalize (Metagraph.edges metagraph2) as l.
  intros l. revert self. induction l as [|x l IH]; intros self; cbn [foldlM].
  { intros [= <-]. split; [done|]. split.
    - exists []. by rewrite app_nil_r.
    - by intros e []%elem_of_nil. }
  intros (mid & Hstep & Hrest)%result_bind_ok.
  destruct (IH mid Hrest) as (Hgs & (extra & Hedges & Hextra) & Hcover).
  assert (Metagraph.generating_set mid = Metagraph.generating_set self ∧
          (∃ ex, Metagraph.edges mid = Metagraph.edges self ++ ex ∧ (∀ e, e ∈ ex → e = x)) ∧
          edge_in x (Metagraph.edges mid) || existsb (edges_equal x) (Metagraph.edges mid)
            = true) as (Hgs' & (ex & Hmid & Hex) & Hx).
  { destruct (edge_in x (Metagraph.edges self)) eqn:Hin.
    - injection Hstep as <-. split; [done|]. split; [|by rewrite Hin].
      exists []. split; [by rewrite app_nil_r|by intros e []%elem_of_nil].
    - apply add_edge_inv in Hstep as [Hgs' Hedges']. split; [done|].
      rewrite Hedges'. destruct (existsb (edges_equal x) (Metagraph.edges self)) eqn:Heq.
      + split; [|by rewrite Heq, orb_true_r].
        exists []. split; [by rewrite app_nil_r|by intros e []%elem_of_nil].
      + split; [|by rewrite edge_in_snoc].
        exists [x]. split; [done|]. by intros e ->%list_elem_of_singleton. }
  split; [congruence|]. split.
  - exists (ex ++ extra). split; [by rewrite Hedges, Hmid, app_assoc|].
    intros e [He|He]%elem_of_app; [rewrite (Hex e He); left|right; by apply Hextra].
  - intros e [->|He]%elem_of_cons; [|by apply Hcover].
    rewrite Hedges. apply orb_true_iff in Hx as [Hx|Hx]; apply orb_true_iff.
    + left. by apply edge_in_app.
    + right. by rewrite existsb_app, Hx.
Qed.

Lemma add_metagraph_covers_witness :
  Metagraph.generating_set mg_cycle = Metagraph.generating_set mg_forth ∧
  (∃ extra, Metagraph.edges mg_cycle = Metagraph.edges mg_forth ++ extra ∧
            ∀ e, e ∈ extra → e ∈ Metagraph.edges mg_cycle) ∧
  ∀ e, e ∈ Metagraph.edges mg_cycle →
    edge_in e (Metagraph.edges mg_cycle)
    || existsb (edges_equal e) (Metagraph.edges mg_cycle) = true.
Proof.
  apply (add_metagraph_covers mg_forth mg_cycle mg_cycle). by_eval.
Defined.

(** ** ConditionalMetagraph: edges and contexts *)

(** A loop that only checks: it raises at the first item that fails the
    test. *)
Lemma foldlM_check {B} (bad : B → bool) (e : exn) (l : list B) :
  foldlM (λ _ x, if bad x then Raise e else Ok tt) tt l
  = if existsb bad l then Raise e else Ok tt.
Proof.
  induction l as [|x l IH]; [done|]. cbn [foldlM existsb].
  destruct (bad x); [done|]. cbn [mbind result_bind orb]. exact IH.
Qed.

Lemma foldlM_check_ext {B} (f : unit → B → result unit) (bad : B → bool) (e : exn)
    (l : list B) :
  (∀ x, f tt x = if bad x then Raise e else Ok tt) →
  foldlM f tt l = if existsb bad l then Raise e else Ok tt.
Proof.
  intros Hf. induction l as [|x l IH]; [done|]. cbn [foldlM existsb].
  rewrite Hf. destruct (bad x); [done|]. cbn [mbind result_bind orb]. exact IH.
Qed.

Lemma raise_mg_value_invalid {A} (argument : string) :
  raise_mg (A := A) argument "value_invalid" = Raise (KeyError "value_invalid").
Proof. by_eval. Qed.

Lemma raise_mg_range_invalid {A} (argument : string) :
  raise_mg (A := A) argument "range_invalid" = Raise (KeyError "range_invalid").
Proof. by_eval. Qed.

Lemma raise_mg_arguments_invalid {A} (argument : string) :
  raise_mg (A := A) argument "arguments_invalid" =
  Raise (MetagraphException argument "provided arguments are invalid").
Proof. by_eval. Qed.

Lemma check_edge_cases (self : ConditionalMetagraph.t) (edge : Edge.t) :
  Edge.invertex edge ∪ Edge.outvertex edge ≠ ∅ →
  ConditionalMetagraph.check_edge self edge =
  if existsb (λ proposition,
        bool_decide (proposition ∈ Edge.outvertex edge)
        && bool_decide (1 < size (Edge.outvertex edge))%nat)
       (elements (ConditionalMetagraph.propositions_set self))
  then Raise (KeyError "value_invalid") else Ok tt.
Proof.
  intros Hne. unfold ConditionalMetagraph.check_edge.
  rewrite bool_decide_eq_false_2; last first.
  { intros Hsize. by apply size_empty_iff, leibniz_equiv in Hsize. }
  apply foldlM_check_ext. intros p. by rewrite raise_mg_value_invalid.
Qed.

Lemma check_edge_ok (self : ConditionalMetagraph.t) (edge : Edge.t) (u : unit) :
  ConditionalMetagraph.check_edge self edge = Ok u →
  ∀ p, p ∈ ConditionalMetagraph.propositions_set self → p ∈ Edge.outvertex edge →
    Edge.outvertex edge = {[p]}.
Proof.
  unfold ConditionalMetagraph.check_edge.
  destruct (bool_decide (size _ = 0%nat));
    [by intros H; exfalso; revert H; apply raise_mg_not_ok|].
  rewrite (foldlM_check_ext _ (λ proposition,
             bool_decide (proposition ∈ Edge.outvertex edge)
             && bool_decide (1 < size (Edge.outvertex edge))%nat)
             (KeyError "value_invalid"))
    by (intros p; by rewrite raise_mg_value_invalid).
  destruct (existsb _ _) eqn:Hex; [done|]. intros _ p Hp Hout.
  assert (size (Edge.outvertex edge) = 1%nat) as Hsize.
  { assert (¬ (1 < size (Edge.outvertex edge))%nat) as Hle.
    { intros Hlt. apply not_true_iff_false in Hex. apply Hex.
      apply existsb_exists. exists p. split.
      - by apply list_elem_of_In, elem_of_elements.
      - by rewrite !bool_decide_eq_true_2. }
    assert (size (Edge.outvertex edge) ≠ 0%nat); [|lia].
    intros Hz. apply size_empty_iff in Hz. set_solver. }
  apply size_1_elem_of in Hsize as (x & Hx). apply leibniz_equiv in Hx.
  rewrite Hx in Hout |- *. by apply elem_of_singleton in Hout as ->.
Qed.

Lemma foldlM_unit_ok {B} (f : B → result unit) (l : list B) (u : unit) :
  foldlM (λ _ x, f x) tt l = Ok u → ∀ x, x ∈ l → ∃ v, f x = Ok v.
Proof.
  induction l as [|y l IH]; cbn [foldlM]; [by intros _ x []%elem_of_nil|].
  intros (v & Hy & Hrest)%result_bind_ok x [->|Hx]%elem_of_cons; [by exists v|].
  destruct v. by apply IH.
Qed.

(** X18: [ConditionalMetagraph.add_edges_from] enforces that an outvertex
    holding a proposition holds nothing else.  When the call returns, every
    edge of the list obeys the rule.  When the edges are not empty and one of
    them breaks the rule, the call ends in [KeyError]: the message
    [value_invalid] that the exception should carry does not exist. *)
Theorem cmg_add_edges_from_outvertex_rule (self : ConditionalMetagraph.t)
    (edge_list : list Edge.t) :
  (∀ r, ConditionalMetagraph.add_edges_from self (Some edge_list) = Ok r →
     ∀ e p, e ∈ edge_list → p ∈ ConditionalMetagraph.propositions_set self →
       p ∈ Edge.outvertex e → Edge.outvertex e = {[p]}) ∧
  (Forall (λ e, Edge.invertex e ∪ Edge.outvertex e ≠ ∅) edge_list →
   Exists (λ e, ∃ p, p ∈ ConditionalMetagraph.propositions_set self ∧
                     p ∈ Edge.outvertex e ∧ (1 < size (Edge.outvertex e))%nat) edge_list →
   ConditionalMetagraph.add_edges_from self (Some edge_list)
     = Raise (KeyError "value_invalid")).
Proof.
  split.
  - intros r. unfold ConditionalMetagraph.add_edges_from.
    destruct (bool_decide (length edge_list = 0%nat));
      [by intros H; exfalso; revert H; apply raise_mg_not_ok|].
    intros (u & Hchecks & _)%result_bind_ok e p He Hp Hout.
    destruct (foldlM_unit_ok _ _ _ Hchecks e He) as (v & Hv).
    by eapply check_edge_ok.
  - intros Hne Hbad. unfold ConditionalMetagraph.add_edges_from.
    rewrite bool_decide_eq_false_2; last first.
    { intros Hlen. apply nil_length_inv in Hlen as ->. by apply Exists_nil in Hbad. }
    assert (foldlM (λ _ edge, ConditionalMetagraph.check_edge self edge) tt edge_list
            = Raise (KeyError "value_invalid")) as ->; [|done].
    induction Hne as [|e l He Hl IH]; [by apply Exists_nil in Hbad|].
    cbn [foldlM]. rewrite (check_edge_cases self e He).
    destruct (existsb _ _) eqn:Hex; [done|]. cbn [mbind result_bind].
    apply IH. apply Exists_cons in Hbad as [(p & Hp & Hout & Hsize)|Hbad]; [|done].
    exfalso. apply not_true_iff_false in Hex. apply Hex.
    apply existsb_exists. exists p. split.
    + by apply list_elem_of_In, elem_of_elements.
    + by rewrite !bool_decide_eq_true_2.
Qed.

Lemma cmg_add_edges_from_outvertex_rule_witness :
  ConditionalMetagraph.add_edges_from cmg_one
    (Some [Edge.mk 30 (ints [1]) ({[EStr "p1"]} ∪ ints [2]) None None])
  = Raise (KeyError "value_invalid").
Proof.
  apply (proj2 (cmg_add_edges_from_outvertex_rule cmg_one
                  [Edge.mk 30 (ints [1]) ({[EStr "p1"]} ∪ ints [2]) None None])).
  - constructor; [|constructor]. decide_eval.
  - constructor. exists (EStr "p1"). cbn [Edge.outvertex].
    split; [decide_eval|]. split; [decide_eval|decide_eval].
Defined.

(** X19: [get_context] refuses a proposition that is not in the proposition
    set, among the true or among the false ones, with a [KeyError]: the
    message [range_invalid] does not exist. *)
Theorem get_context_unknown_proposition (self : ConditionalMetagraph.t)
    (true_propositions false_propositions : list element) :
  true_propositions ≠ [] → false_propositions ≠ [] →
  Exists (λ p, p ∉ ConditionalMetagraph.propositions_set self)
    (true_propositions ++ false_propositions) →
  ConditionalMetagraph.get_context self (Some true_propositions) (Some false_propositions)
    = Raise (KeyError "range_invalid").
Proof.
  intros Htp Hfp Hbad. unfold ConditionalMetagraph.get_context.
  rewrite !bool_decide_eq_false_2 by (by intros ->%nil_length_inv).
  assert (∀ argument l,
            ConditionalMetagraph.check_propositions self argument l
            = if existsb (λ p, negb (bool_decide
                     (p ∈ ConditionalMetagraph.propositions_set self))) l
              then Raise (KeyError "range_invalid") else Ok tt) as Hcheck.
  { intros argument l. unfold ConditionalMetagraph.check_propositions.
    apply foldlM_check_ext. intros p. rewrite raise_mg_range_invalid.
    by destruct (bool_decide _). }
  rewrite !Hcheck.
  destruct (existsb _ true_propositions) eqn:Htrue; [done|]. cbn [mbind result_bind].
  destruct (existsb _ false_propositions) eqn:Hfalse; [done|]. exfalso.
  apply Exists_app in Hbad as [Hbad|Hbad]; apply Exists_exists in Hbad as (p & Hp & Hout).
  - apply not_true_iff_false in Htrue. apply Htrue, existsb_exists. exists p.
    split; [by apply list_elem_of_In|]. by rewrite bool_decide_eq_false_2.
  - apply not_true_iff_false in Hfalse. apply Hfalse, existsb_exists. exists p.
    split; [by apply list_elem_of_In|]. by rewrite bool_decide_eq_false_2.
Qed.

Lemma get_context_unknown_proposition_witness :
  ConditionalMetagraph.get_context cmg_one (Some (props ["p1"])) (Some (props ["q"]))
    = Raise (KeyError "range_invalid").
Proof.
  apply (get_context_unknown_proposition cmg_one (props ["p1"]) (props ["q"]));
    [done|done|].
  apply Exists_cons. right. apply Exists_cons. left. decide_eval.
Defined.

(** ** Logical expressions *)

Lemma has_char_replace (c d : ascii) (new s : string) :
  Ascii.eqb d c = false → has_char c s = true →
  has_char c (replace_char d new s) = true.
Proof.
  intros Hdc. induction s as [|a s IH]; cbn [has_char replace_char]; [done|].
  destruct (Ascii.eqb a d) eqn:Had.
  - apply Ascii.eqb_eq in Had as ->. rewrite Hdc. cbn [orb]. intros Hs.
    by rewrite has_char_app, IH, orb_true_r.
  - cbn [has_char]. destruct (Ascii.eqb a c); [done|]. cbn [orb]. exact IH.
Qed.

Lemma split_from_has_char (c sep : ascii) (cur s : string) :
  Ascii.eqb sep c = false →
  has_char c cur || has_char c s = true →
  existsb (has_char c) (split_from sep cur s) = true.
Proof.
  intros Hsep. revert cur. induction s as [|a s IH]; intros cur;
    cbn [has_char split_from].
  { rewrite orb_false_r. intros H. cbn [existsb]. by rewrite H. }
  destruct (Ascii.eqb a sep) eqn:Ha.
  - apply Ascii.eqb_eq in Ha as ->. rewrite Hsep. cbn [orb existsb].
    destruct (has_char c cur) eqn:Hcur; [done|]. cbn [orb]. intros Hs. by apply IH.
  - intros H. apply IH. rewrite has_char_app. cbn [has_char].
    rewrite orb_false_r. by rewrite <- orb_assoc.
Qed.

Lemma has_char_nonempty (c : ascii) (s : string) :
  has_char c s = true → s ≠ EmptyString.
Proof. by destruct s. Qed.

(** X20: the validation of logical expressions deletes [(] but keeps [)],
    so a token that ends a parenthesis is looked up with the [)] attached.
    When no proposition name holds a [)], a list with an expression that
    holds one is refused, by [is_non_redundant] as by the loop itself. *)
Theorem check_expressions_rejects_closing_parenthesis (self : ConditionalMetagraph.t)
    (logical_expressions : list string)
    (interpretations : list (list (element * bool))) :
  (∀ p, EStr p ∈ ConditionalMetagraph.propositions_set self → has_char ")" p = false) →
  Exists (λ logical_expression, has_char ")" logical_expression = true)
    logical_expressions →
  interpretations ≠ [] →
  ConditionalMetagraph.check_expressions self logical_expressions
    = Raise (MetagraphException "logical_expression" "provided arguments are invalid") ∧
  ConditionalMetagraph.is_non_redundant self (Some logical_expressions)
    (Some interpretations)
    = Raise (MetagraphException "logical_expression" "provided arguments are invalid").
Proof.
  intros Hprops Hbad Hints.
  pose (bad_item := λ item : string,
          negb (bool_decide (replace_char " " "" item = EmptyString))
          && negb (bool_decide (EStr (replace_char " " "" item)
                                  ∈ ConditionalMetagraph.propositions_set self))).
  assert (ConditionalMetagraph.check_expressions self logical_expressions
          = Raise (MetagraphException "logical_expression"
                     "provided arguments are invalid")) as Hcheck.
  { unfold ConditionalMetagraph.check_expressions.
    rewrite (foldlM_check_ext _
               (λ logical_expression,
                  existsb bad_item (ConditionalMetagraph.expression_items logical_expression))
               (MetagraphException "logical_expression" "provided arguments are invalid")).
    2: { intros logical_expression. apply foldlM_check_ext. intros item.
         by rewrite raise_mg_arguments_invalid. }
    assert (existsb (λ logical_expression,
              existsb bad_item (ConditionalMetagraph.expression_items logical_expression))
              logical_expressions = true) as ->; [|done].
    apply Exists_exists in Hbad as (logical_expression & Hin & Hchar).
    apply existsb_exists. exists logical_expression.
    split; [by apply list_elem_of_In|].
    unfold ConditionalMetagraph.expression_items, split.
    assert (existsb (has_char ")")
              (split_from " " EmptyString
                 (replace_char "(" ""
                    (replace_char "!" " "
                       (replace_char "|" " " (replace_char "." " " logical_expression)))))
            = true) as Htoken.
    { apply split_from_has_char; [done|]. cbn [has_char orb].
      by do 4 (apply has_char_replace; [done|]). }
    apply existsb_exists in Htoken as (item & Hitem & Hclose).
    apply existsb_exists. exists item. split; [done|].
    assert (has_char ")" (replace_char " " "" item) = true) as Hclose'
      by by apply has_char_replace.
    unfold bad_item. rewrite !bool_decide_eq_false_2; [done| |].
    - intros Hp. apply Hprops in Hp. congruence.
    - by apply has_char_nonempty in Hclose'. }
  split; [done|].
  unfold ConditionalMetagraph.is_non_redundant.
  rewrite !bool_decide_eq_false_2.
  - by rewrite Hcheck.
  - by intros ->%nil_length_inv.
  - intros ->%nil_length_inv. by apply Exists_nil in Hbad.
Qed.

Lemma check_expressions_rejects_closing_parenthesis_witness :
  ConditionalMetagraph.is_non_redundant cmg_two (Some ["(p1|p2)"]) (Some [interp_both])
    = Raise (MetagraphException "logical_expression" "provided arguments are invalid").
Proof.
  apply (check_expressions_rejects_closing_parenthesis cmg_two ["(p1|p2)"] [interp_both]).
  - intros p Hp.
    assert (p = "p1" ∨ p = "p2" ∨ p = "p3") as [->|[->| ->]]; [|done..].
    unfold cmg_two, props in Hp. cbn [ConditionalMetagraph.propositions_set] in Hp.
    set_solver.
  - by constructor.
  - done.
Defined.

(** ** Cut-sets, redundant edges and metapaths of a conditional metagraph *)

Example cmg_plain_built :
  (cmg ← ConditionalMetagraph.init (ints [1; 2]) (list_to_set (props ["p1"; "p2"]));
   ConditionalMetagraph.add_edges_from cmg (Some [edge_1_2])) = Ok cmg_plain.
Proof. by_eval. Qed.

(** X21: [is_cutset] does not answer for an edge list that covers every
    edge of the metagraph (same invertex and outvertex): the metagraph
    without these edges is built with [add_edges_from], which refuses the
    empty list.  This is so for every query on a metagraph without edges. *)
Theorem is_cutset_covering_list_raises (self : Metagraph.t) (edge_list : edge_seq)
    (source target : gset element) (s : nat) :
  Metagraph.generating_set self ≠ ∅ →
  Forall (λ edge1,
    Exists (λ edge2, Edge.invertex edge1 = Edge.invertex edge2 ∧
                     Edge.outvertex edge1 = Edge.outvertex edge2) (seq_items edge_list))
    (Metagraph.edges self) →
  is_cutset self (Some edge_list) (Some source) (Some target) s
    = Raise (MetagraphException "edge_list" "value cannot be null or empty").
Proof.
  intros Hgs Hcover. unfold is_cutset.
  assert (filter (λ edge1,
            negb (existsb (λ edge2,
                    bool_decide (Edge.invertex edge1 = Edge.invertex edge2)
                    && bool_decide (Edge.outvertex edge1 = Edge.outvertex edge2))
                    (seq_items edge_list))) (Metagraph.edges self) = []) as ->.
  { induction Hcover as [|edge1 l Hx Hl IH]; [done|].
    rewrite filter_cons_False; [done|].
    apply Exists_exists in Hx as (edge2 & Hin & Hi & Ho).
    intros Hneg. apply negb_prop_elim in Hneg. apply Hneg, Is_true_true.
    apply existsb_exists. exists edge2. split; [by apply list_elem_of_In|].
    by rewrite !bool_decide_eq_true_2. }
  unfold Metagraph.init. rewrite bool_decide_eq_false_2; last first.
  { intros Hsize. by apply size_empty_iff, leibniz_equiv in Hsize. }
  cbn [lift mbind M_bind]. unfold add_edges_from.
  by rewrite raise_mg_value_null.
Qed.

Lemma is_cutset_covering_list_raises_witness :
  is_cutset mg_cycle (Some (PyList [edge_1_2_twin; edge_2_1]))
    (Some (ints [1])) (Some (ints [2])) 0%nat
    = Raise (MetagraphException "edge_list" "value cannot be null or empty").
Proof.
  apply (is_cutset_covering_list_raises mg_cycle (PyList [edge_1_2_twin; edge_2_1])).
  - decide_eval.
  - constructor; [|constructor; [|constructor]].
    + apply Exists_cons. by left.
    + apply Exists_cons. right. apply Exists_cons. by left.
Defined.

Lemma all_subsets_singleton {A} (x : A) : all_subsets [x] = [[x]].
Proof. reflexivity. Qed.

(** X22: for a target of one element [is_redundant_edge] answers [False]
    whatever the edge: the loop asks for metapaths only at proper subsets of
    the target, and a one-element set has none.  The metagraph is left as it
    was. *)
Theorem is_redundant_edge_single_target (self : Metagraph.t) (edge : Edge.t)
    (metapath : Metapath.t) (source target : gset element) (s s' : nat) :
  size target = 1%nat →
  is_metapath self metapath s = Ok (true, s') →
  is_redundant_edge self (Some edge) (Some metapath) (Some source) (Some target) s
    = Ok ((false, self), s').
Proof.
  intros Hsize Hvalid. unfold is_redundant_edge.
  rewrite (M_bind_run _ _ _ _ _ Hvalid). cbn [negb].
  assert (∃ x, elements target = [x]) as [x ->].
  { assert (length (elements target) = 1%nat) as Hlen by exact Hsize.
    destruct (elements target) as [|x [|y l]]; cbn in Hlen; try lia. by exists x. }
  rewrite all_subsets_singleton. cbn [for_return_state length].
  rewrite Hsize. rewrite bool_decide_eq_false_2 by lia.
  done.
Qed.

Lemma is_redundant_edge_single_target_witness :
  is_redundant_edge mg_forth (Some edge_2_1)
    (Some (Metapath.mk (ints [1]) (ints [2]) [edge_1_2]))
    (Some (ints [1])) (Some (ints [2])) 0%nat
  = Ok ((false, mg_forth), 1%nat).
Proof.
  apply (is_redundant_edge_single_target mg_forth edge_2_1
           (Metapath.mk (ints [1]) (ints [2]) [edge_1_2]) (ints [1]) (ints [2]) 0%nat 1%nat);
    by_eval.
Defined.

(** X23: [get_all_metapaths] of a conditional metagraph works only while
    there is nothing to do.  With at most one node it returns the empty
    list.  With two or more nodes the first pair of different nodes reaches
    [nodes_overlap], where [node1.get_element_set] names the method without
    calling it, and the call ends in [AttributeError]. *)
Theorem cmg_get_all_metapaths_raises (self : ConditionalMetagraph.t) (s : nat) :
  ConditionalQueries.get_all_metapaths self s =
  match ConditionalMetagraph.nodes self with
  | [] | [_] => Ok (([], self), s)
  | _ :: _ :: _ =>
      Raise (AttributeError "'function' object has no attribute 'intersection'")
  end.
Proof.
  unfold ConditionalQueries.get_all_metapaths.
  destruct (ConditionalMetagraph.nodes self) as [|node1 [|node2 rest]]; reflexivity.
Qed.

(** ** Connectivity in a conditional metagraph *)

Lemma check_connection_arguments_ints (self : ConditionalMetagraph.t)
    (source target : option (gset element)) (logical_expressions : option (list string))
    (interpretations : option (list (list (element * bool))))
    (args : gset element * gset element * list (list (element * bool))) :
  ConditionalQueries.check_connection_arguments self source target logical_expressions
    interpretations = Ok args →
  args.2 ≠ [].
Proof.
  unfold ConditionalQueries.check_connection_arguments.
  destruct source as [src|]; [|by intros H%raise_mg_not_ok].
  destruct (bool_decide (size src = 0%nat)); [by intros H%raise_mg_not_ok|].
  destruct target as [tgt|]; [|by intros H%raise_mg_not_ok].
  destruct (bool_decide (size tgt = 0%nat)); [by intros H%raise_mg_not_ok|].
  destruct logical_expressions as [les|]; [|by intros H%raise_mg_not_ok].
  destruct (bool_decide (length les = 0%nat)); [by intros H%raise_mg_not_ok|].
  destruct interpretations as [ints|]; [|by intros H%raise_mg_not_ok].
  destruct (bool_decide (length ints = 0%nat)) eqn:Hints; [by intros H%raise_mg_not_ok|].
  destruct (negb _); [by intros H%raise_mg_not_ok|].
  destruct (negb _); [by intros H%raise_mg_not_ok|].
  intros (u & _ & [= <-])%result_bind_ok. cbn [snd].
  apply bool_decide_eq_false_1 in Hints. by destruct ints.
Qed.

Lemma at_least_mono (metapaths : option (list Metapath.t)) :
  ConditionalQueries.at_least 2 metapaths = true →
  ConditionalQueries.at_least 1 metapaths = true.
Proof.
  unfold ConditionalQueries.at_least. destruct metapaths as [l|]; [|done].
  intros H%bool_decide_eq_true_1. apply bool_decide_eq_true_2. lia.
Qed.

(** X24: on the same arguments and in the same state, [is_fully_connected]
    answering [True] means that [is_connected] answers [True]. *)
Theorem is_fully_connected_is_connected (self : ConditionalMetagraph.t)
    (source target : option (gset element)) (logical_expressions : option (list string))
    (interpretations : option (list (list (element * bool)))) (s s' : nat) :
  ConditionalQueries.is_fully_connected self source target logical_expressions
    interpretations s = Ok (true, s') →
  ∃ s'', ConditionalQueries.is_connected self source target logical_expressions
           interpretations s = Ok (true, s'').
Proof.
  unfold ConditionalQueries.is_fully_connected, ConditionalQueries.is_connected.
  intros (args & s0 & [Hargs ->]%lift_ok & Hloop)%M_bind_ok.
  rewrite Hargs, (M_bind_run _ _ _ _ _ (lift_run _ _)).
  pose proof (check_connection_arguments_ints _ _ _ _ _ _ Hargs) as Hints.
  destruct args.2 as [|interpretation rest]; [done|].
  apply M_bind_ok in Hloop as (o & s1 & Hloop & Hret).
  cbn [for_returnM] in Hloop |- *.
  apply M_bind_ok in Hloop as (o' & s2 & Hbody & Hrest).
  apply M_bind_ok in Hbody as (metapaths & s3 & Hmetapaths & Hdecide).
  exists s3. unfold mbind, M_bind. rewrite Hmetapaths.
  destruct (ConditionalQueries.at_least 1 metapaths); [done|].
  cbn [negb] in Hdecide. apply mret_ok in Hdecide as [-> ->].
  apply mret_ok in Hrest as [-> ->]. by apply mret_ok in Hret as [[=] _].
Qed.

Lemma is_fully_connected_is_connected_witness :
  ∃ s'', ConditionalQueries.is_connected cmg_plain (Some (ints [1])) (Some (ints [2]))
           (Some ["p1"]) (Some [interp_one]) 0%nat = Ok (true, s'').
Proof.
  apply (is_fully_connected_is_connected cmg_plain (Some (ints [1])) (Some (ints [2]))
           (Some ["p1"]) (Some [interp_one]) 0%nat 2%nat).
  by_eval.
Defined.

Lemma not_connected_loops (self : ConditionalMetagraph.t) (source target : gset element)
    (interpretations : list (list (element * bool))) (b : bool) (s s' : nat) :
  (o ← for_returnM (λ interpretation,
          metapaths ← ConditionalQueries.interpretation_metapaths self source target
                        interpretation;
          if ConditionalQueries.at_least 1 metapaths then mret (Some true) else mret None)
        interpretations;
   mret (default false o)) s = Ok (b, s') →
  b = false →
  (o ← for_returnM (λ interpretation,
          metapaths ← ConditionalQueries.interpretation_metapaths self source target
                        interpretation;
          if ConditionalQueries.at_least 2 metapaths then mret (Some false) else mret None)
        interpretations;
   mret (default true o)) s = Ok (true, s') ∧
  (interpretations ≠ [] →
   ∃ s'',
     (o ← for_returnM (λ interpretation,
             metapaths ← ConditionalQueries.interpretation_metapaths self source target
                           interpretation;
             if negb (ConditionalQueries.at_least 1 metapaths)
             then mret (Some false) else mret None) interpretations;
      mret (default true o)) s = Ok (false, s'')).
Proof.
  revert s. induction interpretations as [|interpretation rest IH]; intros s.
  { intros [= <- <-] _. done. }
  intros (o & s1 & Hloop & Hret)%M_bind_ok ->.
  cbn [for_returnM] in Hloop |- *.
  apply M_bind_ok in Hloop as (o' & s2 & Hbody & Hrest).
  apply M_bind_ok in Hbody as (metapaths & s3 & Hmetapaths & Hdecide).
  assert (∀ (f : option (list Metapath.t) → M (option bool))
            (g : option bool → M (option bool)) (h : option bool → M bool),
            (((ConditionalQueries.interpretation_metapaths self source target
                 interpretation ≫= f) ≫= g) ≫= h) s
            = ((f metapaths ≫= g) ≫= h) s3) as Hrun.
  { intros f g h. unfold mbind, M_bind. by rewrite Hmetapaths. }
  setoid_rewrite Hrun. clear Hrun.
  destruct (ConditionalQueries.at_least 1 metapaths) eqn:Hone.
  { apply mret_ok in Hdecide as [-> ->]. apply mret_ok in Hrest as [-> ->].
    by apply mret_ok in Hret as [[=] _]. }
  apply mret_ok in Hdecide as [-> ->].
  destruct (ConditionalQueries.at_least 2 metapaths) eqn:Htwo.
  { apply at_least_mono in Htwo. congruence. }
  cbn [negb]. split; [|intros _; by exists s3].
  apply (IH s3); [|done].
  by rewrite (M_bind_run _ _ _ _ _ Hrest).
Qed.

(** X25: when [is_connected] answers [False], no interpretation gave a
    metapath; on the same arguments and in the same state
    [is_redundantly_connected] then answers [True] and [is_fully_connected]
    answers [False]. *)
Theorem not_connected_is_redundantly_connected (self : ConditionalMetagraph.t)
    (source target : option (gset element)) (logical_expressions : option (list string))
    (interpretations : option (list (list (element * bool)))) (s s' : nat) :
  ConditionalQueries.is_connected self source target logical_expressions
    interpretations s = Ok (false, s') →
  ConditionalQueries.is_redundantly_connected self source target logical_expressions
    interpretations s = Ok (true, s') ∧
  ∃ s'', ConditionalQueries.is_fully_connected self source target logical_expressions
           interpretations s = Ok (false, s'').
Proof.
  unfold ConditionalQueries.is_connected, ConditionalQueries.is_redundantly_connected,
    ConditionalQueries.is_fully_connected.
  intros (args & s0 & [Hargs ->]%lift_ok & Hloop)%M_bind_ok.
  rewrite Hargs, !(M_bind_run _ _ _ _ _ (lift_run _ _)).
  pose proof (check_connection_arguments_ints _ _ _ _ _ _ Hargs) as Hints.
  destruct (not_connected_loops self args.1.1 args.1.2 args.2 false s s' Hloop eq_refl)
    as [Hred Hfull].
  split; [exact Hred|by apply Hfull].
Qed.

Lemma not_connected_is_redundantly_connected_witness :
  ConditionalQueries.is_redundantly_connected cmg_one (Some (ints [1])) (Some (ints [2]))
    (Some ["p1"]) (Some [interp_one]) 0%nat = Ok (true, 4%nat) ∧
  ∃ s'', ConditionalQueries.is_fully_connected cmg_one (Some (ints [1])) (Some (ints [2]))
           (Some ["p1"]) (Some [interp_one]) 0%nat = Ok (false, s'').
Proof.
  apply (not_connected_is_redundantly_connected cmg_one (Some (ints [1]))
           (Some (ints [2])) (Some ["p1"]) (Some [interp_one]) 0%nat 4%nat).
  by_eval.
Defined.

(** ** The plain metagraph inside a conditional metagraph *)

Lemma cmg_add_edges_from_fields (self r : ConditionalMetagraph.t)
    (edge_list : option (list Edge.t)) :
  ConditionalMetagraph.add_edges_from self edge_list = Ok r →
  ConditionalMetagraph.mg r = ConditionalMetagraph.mg self ∧
  ConditionalMetagraph.generating_set r = ConditionalMetagraph.generating_set self ∧
  ConditionalMetagraph.variables_set r = ConditionalMetagraph.variables_set self ∧
  ConditionalMetagraph.propositions_set r = ConditionalMetagraph.propositions_set self.
Proof.
  unfold ConditionalMetagraph.add_edges_from.
  destruct edge_list as [l|]; [|by intros H%raise_mg_not_ok].
  destruct (bool_decide (length l = 0%nat)); [by intros H%raise_mg_not_ok|].
  intros (u & _ & Hfold)%result_bind_ok. revert Hfold.
  apply (foldlM_invariant (λ r,
    ConditionalMetagraph.mg r = ConditionalMetagraph.mg self ∧
    ConditionalMetagraph.generating_set r = ConditionalMetagraph.generating_set self ∧
    ConditionalMetagraph.variables_set r = ConditionalMetagraph.variables_set self ∧
    ConditionalMetagraph.propositions_set r = ConditionalMetagraph.propositions_set self));
    [|done].
  intros x y b Hx. unfold ConditionalMetagraph.add_edges_from_step.
  intros (n1 & _ & (n2 & _ & [= <-])%result_bind_ok)%result_bind_ok. exact Hx.
Qed.

(** X26: a conditional metagraph answers [get_all_metapaths_from] out of a
    plain metagraph that it builds at the first query and never rebuilds.
    Once it is there, [add_edges_from] leaves it alone, and a later query
    has the answer it would have had without the new edges. *)
Theorem cmg_metapaths_ignore_later_edges (self self' : ConditionalMetagraph.t)
    (mg : Metagraph.t) (edge_list : list Edge.t)
    (source target : option (gset element)) (s : nat) :
  ConditionalMetagraph.mg self = Some mg →
  ConditionalMetagraph.add_edges_from self (Some edge_list) = Ok self' →
  (x ← ConditionalQueries.get_all_metapaths_from self' source target s; Ok x.1.1)
  = (x ← ConditionalQueries.get_all_metapaths_from self source target s; Ok x.1.1).
Proof.
  intros Hmg (Hmg' & Hgs & Hvars & Hprops)%cmg_add_edges_from_fields.
  unfold ConditionalQueries.get_all_metapaths_from.
  destruct source as [src|], target as [tgt|]; try done.
  rewrite Hgs, Hmg', Hmg.
  repeat (destruct (bool_decide _); cbn [negb]; [done|]).
  repeat (destruct (bool_decide _); cbn [negb]; [|done]).
  unfold mbind, M_bind, result_bind, mret, M_ret. cbv beta iota.
  by destruct (get_all_metapaths_from mg (Some src) (Some tgt) s) as [[r s1]|].
Qed.

Lemma cmg_metapaths_ignore_later_edges_witness :
  match ConditionalMetagraph.add_edges_from cmg_plain_queried (Some [edge_2_1]) with
  | Ok self' =>
      (x ← ConditionalQueries.get_all_metapaths_from self'
             (Some (ints [2])) (Some (ints [1])) 5%nat; Ok x.1.1)
      = (x ← ConditionalQueries.get_all_metapaths_from cmg_plain_queried
               (Some (ints [2])) (Some (ints [1])) 5%nat; Ok x.1.1)
  | Raise _ => False
  end.
Proof.
  assert (is_Some (ConditionalMetagraph.mg cmg_plain_queried)) as [m Hm] by decide_eval.
  assert (returned (ConditionalMetagraph.add_edges_from cmg_plain_queried
                      (Some [edge_2_1])) = true) as Hok by by_eval.
  destruct (ConditionalMetagraph.add_edges_from cmg_plain_queried (Some [edge_2_1]))
    as [self'|e] eqn:Hadd; [|discriminate Hok].
  apply (cmg_metapaths_ignore_later_edges cmg_plain_queried self' m [edge_2_1]
           (Some (ints [2])) (Some (ints [1])) 5%nat Hm Hadd).
Defined.

(** The second edge closes the cycle, but the queried metagraph still finds
    no way back from 2 to 1. *)
Example cmg_stale_answer :
  (self' ← ConditionalMetagraph.add_edges_from cmg_plain_queried (Some [edge_2_1]);
   x ← ConditionalQueries.get_all_metapaths_from self'
         (Some (ints [2])) (Some (ints [1])) 5%nat;
   Ok (ConditionalMetagraph.edges self', x.1.1))
  = Ok ([edge_1_2; edge_2_1], None).
Proof. by_eval. Qed.

(** ** get_context *)

Lemma mark_edge_true_idle (true_propositions : list element) (edge : Edge.t)
    (edges_to_remove : list Edge.t) :
  fold_left (λ edges_to_remove proposition,
      let edges_to_remove :=
        if bool_decide (proposition ∈ Edge.invertex edge) then
          let _ := Edge.invertex edge ∖ {[proposition]} in
          if bool_decide (size (Edge.invertex edge) = 0%nat)
             && negb (edge_in edge edges_to_remove)
          then edges_to_remove ++ [edge] else edges_to_remove
        else edges_to_remove in
      if bool_decide (proposition ∈ Edge.outvertex edge) then
        let _ := Edge.outvertex edge ∖ {[proposition]} in
        if bool_decide (size (Edge.outvertex edge) = 0%nat)
           && negb (edge_in edge edges_to_remove)
        then edges_to_remove ++ [edge] else edges_to_remove
      else edges_to_remove) true_propositions edges_to_remove
  = edges_to_remove.
Proof.
  assert (∀ (X : gset element) (p : element),
            p ∈ X → bool_decide (size X = 0%nat) = false) as Hsize.
  { intros X p Hp. apply bool_decide_eq_false_2. intros Hz.
    apply size_empty_iff in Hz. set_solver. }
  match goal with |- fold_left ?f _ _ = _ =>
    assert (∀ acc p, f acc p = acc) as Hstep
  end.
  { intros acc p. cbv zeta.
    destruct (bool_decide (p ∈ Edge.invertex edge)) eqn:Hi;
      destruct (bool_decide (p ∈ Edge.outvertex edge)) eqn:Ho; try done.
    - apply bool_decide_eq_true_1 in Hi, Ho.
      by rewrite (Hsize _ _ Hi), (Hsize _ _ Ho).
    - apply bool_decide_eq_true_1 in Hi. by rewrite (Hsize _ _ Hi).
    - apply bool_decide_eq_true_1 in Ho. by rewrite (Hsize _ _ Ho). }
  induction true_propositions as [|p l IH]; [done|]. cbn [fold_left].
  rewrite Hstep. exact IH.
Qed.

Lemma mark_edge_false (false_propositions : list element) (edge : Edge.t)
    (edges_to_remove : list Edge.t) :
  fold_left (λ edges_to_remove proposition,
      if bool_decide (proposition ∈ Edge.invertex edge)
         || bool_decide (proposition ∈ Edge.outvertex edge)
      then
        if negb (edge_in edge edges_to_remove) then edges_to_remove ++ [edge]
        else edges_to_remove
      else edges_to_remove) false_propositions edges_to_remove
  = if existsb (mentions edge) false_propositions && negb (edge_in edge edges_to_remove)
    then edges_to_remove ++ [edge] else edges_to_remove.
Proof.
  revert edges_to_remove.
  induction false_propositions as [|p l IH]; intros acc; [done|].
  cbn [fold_left existsb]. rewrite IH. unfold mentions at 2.
  destruct (bool_decide (p ∈ Edge.invertex edge) || bool_decide (p ∈ Edge.outvertex edge));
    cbn [orb]; [|done].
  destruct (edge_in edge acc) eqn:Hin; cbn [negb andb].
  - by rewrite Hin, andb_false_r.
  - by rewrite edge_in_snoc, andb_false_r.
Qed.

Lemma mark_edge_spec (true_propositions false_propositions : list element)
    (edges_to_remove : list Edge.t) (edge : Edge.t) :
  ConditionalMetagraph.mark_edge true_propositions false_propositions edges_to_remove edge
  = if negb (kept_in_context false_propositions edge) && negb (edge_in edge edges_to_remove)
    then edges_to_remove ++ [edge] else edges_to_remove.
Proof.
  unfold ConditionalMetagraph.mark_edge. cbv zeta.
  rewrite mark_edge_true_idle, mark_edge_false.
  unfold kept_in_context. by rewrite negb_involutive.
Qed.

Lemma marked_edges (true_propositions false_propositions : list element)
    (edges acc : list Edge.t) :
  (∀ x, x ∈ fold_left (ConditionalMetagraph.mark_edge true_propositions false_propositions)
              edges acc →
     x ∈ acc ∨ (x ∈ edges ∧ kept_in_context false_propositions x = false)) ∧
  (∀ x, edge_in x acc = true ∨
        (x ∈ edges ∧ kept_in_context false_propositions x = false) →
     edge_in x (fold_left (ConditionalMetagraph.mark_edge true_propositions
                             false_propositions) edges acc) = true).
Proof.
  revert acc. induction edges as [|e edges IH]; intros acc; cbn [fold_left].
  { split; [by left|]. intros x [H|[[]%elem_of_nil _]]. done. }
  destruct (IH (ConditionalMetagraph.mark_edge true_propositions false_propositions acc e))
    as [IH1 IH2].
  rewrite mark_edge_spec in *. split.
  - intros x [Hx|[Hx Hk]]%IH1; [|right; split; [by right|done]].
    destruct (kept_in_context false_propositions e) eqn:Hkept; cbn [negb andb] in Hx;
      [by left|].
    destruct (edge_in e acc); cbn [negb] in Hx; [by left|].
    apply elem_of_app in Hx as [Hx|Hx%list_elem_of_singleton]; [by left|].
    subst. right. split; [left|done].
  - intros x Hx. apply IH2.
    destruct Hx as [Hx|[[->|Hx]%elem_of_cons Hk]]; [left|left|right; done].
    + destruct (_ && _); [by apply edge_in_app|done].
    + rewrite Hk. cbn [negb andb].
      destruct (edge_in e acc) eqn:Hin; cbn [negb]; [done|apply edge_in_snoc].
Qed.

Lemma same_id_same_edge (l : list Edge.t) (x y : Edge.t) :
  NoDup (Edge.id <$> l) → x ∈ l → y ∈ l → Edge.id x = Edge.id y → x = y.
Proof.
  intros Hnd (i & Hi)%list_elem_of_lookup_1 (j & Hj)%list_elem_of_lookup_1 Hid.
  assert (i = j) as ->; [|congruence].
  apply (NoDup_lookup (Edge.id <$> l) i j (Edge.id x)); [done| |].
  - by rewrite list_lookup_fmap, Hi.
  - by rewrite list_lookup_fmap, Hj, Hid.
Qed.

Lemma filter_ext_in {A} (P Q : A → bool) (l : list A) :
  (∀ x, x ∈ l → P x = Q x) → filter P l = filter Q l.
Proof.
  induction l as [|x l IH]; intros Hext; [done|].
  rewrite !filter_cons, (Hext x) by left.
  rewrite IH by (intros y Hy; apply Hext; by right). done.
Qed.

Lemma filter_all {A} (P : A → bool) (l : list A) :
  (∀ x, x ∈ l → P x = true) → filter P l = l.
Proof.
  induction l as [|x l IH]; intros Hall; [done|].
  rewrite filter_cons, (Hall x) by left. cbn.
  rewrite IH by (intros y Hy; apply Hall; by right). done.
Qed.

Lemma filter_filter_bool {A} (P Q : A → bool) (l : list A) :
  filter P (filter Q l) = filter (λ x, Q x && P x) l.
Proof.
  induction l as [|x l IH]; [done|].
  destruct (Q x) eqn:HQ.
  - rewrite (filter_cons_True (λ x, Q x)) by by rewrite HQ.
    destruct (P x) eqn:HP.
    + rewrite !filter_cons_True by (cbn beta; by rewrite ?HQ, ?HP). by rewrite IH.
    + rewrite !filter_cons_False by (cbn beta; rewrite ?HQ, ?HP; cbn; tauto). exact IH.
  - rewrite !filter_cons_False by (cbn beta; rewrite ?HQ; cbn; tauto). exact IH.
Qed.

Lemma remove_edge_obj_filter (r : Edge.t) (l : list Edge.t) :
  NoDup (Edge.id <$> l) →
  (if edge_in r l then remove_edge_obj r l else l)
  = filter (λ y, negb (bool_decide (Edge.id r = Edge.id y))) l.
Proof.
  intros Hnd.
  assert (remove_edge_obj r l = filter (λ y, negb (bool_decide (Edge.id r = Edge.id y))) l)
    as Hremove.
  { induction l as [|y l IH]; [done|]. cbn [remove_edge_obj].
    apply NoDup_cons in Hnd as [Hy Hnd]. rewrite filter_cons.
    destruct (bool_decide (Edge.id r = Edge.id y)) eqn:Hid; cbn [negb].
    - apply bool_decide_eq_true_1 in Hid. cbn. symmetry. apply filter_all.
      intros x Hx. apply negb_true_iff, bool_decide_eq_false_2. intros Heq.
      apply Hy. rewrite <- Hid, Heq. by apply list_elem_of_fmap_2.
    - cbn. by rewrite IH. }
  destruct (edge_in r l) eqn:Hin; [done|].
  symmetry. apply filter_all. intros x Hx.
  apply negb_true_iff, bool_decide_eq_false_2. intros Heq.
  apply not_true_iff_false in Hin. apply Hin, existsb_exists.
  exists x. split; [by apply list_elem_of_In|by apply bool_decide_eq_true_2].
Qed.

Lemma NoDup_ids_filter (P : Edge.t → bool) (l : list Edge.t) :
  NoDup (Edge.id <$> l) → NoDup (Edge.id <$> filter P l).
Proof.
  intros Hnd.
  assert (Edge.id <$> filter P l `sublist_of` Edge.id <$> l) as Hsub
    by apply fmap_sublist, sublist_filter.
  by eapply sublist_NoDup.
Qed.

Lemma remove_marked (removed l : list Edge.t) :
  NoDup (Edge.id <$> l) →
  fold_left (λ edges_copy edge,
      if edge_in edge edges_copy then remove_edge_obj edge edges_copy
      else edges_copy) removed l
  = filter (λ y, negb (edge_in y removed)) l.
Proof.
  revert l. induction removed as [|r removed IH]; intros l Hnd; cbn [fold_left].
  { symmetry. by apply filter_all. }
  rewrite remove_edge_obj_filter by done.
  rewrite IH by by apply NoDup_ids_filter.
  rewrite filter_filter_bool. apply filter_ext_in. intros x _.
  unfold edge_in. cbn [existsb].
  rewrite (bool_decide_ext (Edge.id r = Edge.id x) (Edge.id x = Edge.id r)) by done.
  destruct (bool_decide (Edge.id x = Edge.id r)), (existsb _ removed); done.
Qed.

Lemma cmg_add_new_edges (l : list Edge.t) (self ctx : ConditionalMetagraph.t) :
  NoDup (Edge.id <$> l) →
  (∀ e, e ∈ l → edge_in e (ConditionalMetagraph.edges self) = false) →
  foldlM ConditionalMetagraph.add_edges_from_step self l = Ok ctx →
  ConditionalMetagraph.edges ctx = ConditionalMetagraph.edges self ++ l.
Proof.
  revert self. induction l as [|e l IH]; intros self Hnd Hnew; cbn [foldlM].
  { intros [= <-]. by rewrite app_nil_r. }
  intros (mid & Hstep%cmg_step_edges & Hrest)%result_bind_ok.
  rewrite fmap_cons in Hnd. apply NoDup_cons in Hnd as [He Hnd].
  unfold append_new in Hstep. rewrite (Hnew e) in Hstep by left.
  assert (∀ x, x ∈ l → edge_in x (ConditionalMetagraph.edges mid) = false) as Hnew'.
  { intros x Hx. rewrite Hstep. unfold edge_in. rewrite existsb_app. cbn [existsb].
    rewrite orb_false_r. apply orb_false_intro.
    - apply Hnew. by right.
    - apply bool_decide_eq_false_2. intros Hid. apply He. rewrite <- Hid.
      by apply list_elem_of_fmap_2. }
  by rewrite (IH mid Hnd Hnew' Hrest), Hstep, <- app_assoc.
Qed.

(** X27: the context that [get_context] returns holds exactly the edges
    that mention none of the false propositions, in their order; the true
    propositions have no part in the choice.  The edge list of the
    conditional metagraph holds each edge object once. *)
Theorem get_context_keeps_unmentioned_edges (self ctx : ConditionalMetagraph.t)
    (true_propositions false_propositions : list element) :
  NoDup (Edge.id <$> ConditionalMetagraph.edges self) →
  ConditionalMetagraph.get_context self (Some true_propositions) (Some false_propositions)
    = Ok ctx →
  ConditionalMetagraph.edges ctx
    = filter (kept_in_context false_propositions) (ConditionalMetagraph.edges self).
Proof.
  intros Hnd. unfold ConditionalMetagraph.get_context.
  destruct (bool_decide (length true_propositions = 0%nat));
    [by intros H%raise_mg_not_ok|].
  destruct (bool_decide (length false_propositions = 0%nat));
    [by intros H%raise_mg_not_ok|].
  intros (u1 & _ & (u2 & _ & (context & Hinit & Hadd)%result_bind_ok
    )%result_bind_ok)%result_bind_ok.
  apply cmg_init_edges in Hinit as (Hempty & _ & _).
  revert Hadd. cbv zeta. rewrite remove_marked by done.
  set (removed := fold_left _ (ConditionalMetagraph.edges self) []).
  set (kept := filter _ (ConditionalMetagraph.edges self)).
  unfold ConditionalMetagraph.add_edges_from.
  destruct (bool_decide (length kept = 0%nat)); [by intros H%raise_mg_not_ok|].
  intros (u3 & _ & Hfold)%result_bind_ok.
  apply cmg_add_new_edges in Hfold.
  - rewrite Hfold, Hempty. cbn [app]. unfold kept. apply filter_ext_in.
    intros x Hx.
    destruct (marked_edges true_propositions false_propositions
                (ConditionalMetagraph.edges self) []) as [Hsound Hcomplete].
    fold removed in Hsound, Hcomplete.
    destruct (kept_in_context false_propositions x) eqn:Hkept.
    + apply negb_true_iff, not_true_iff_false.
      intros (r & Hr%list_elem_of_In & Hid%bool_decide_eq_true_1)%existsb_exists.
      apply Hsound in Hr as [[]%elem_of_nil|[Hr Hmarked]].
      assert (x = r) as -> by by eapply same_id_same_edge.
      congruence.
    + apply negb_false_iff, Hcomplete. right. done.
  - by apply NoDup_ids_filter.
  - intros e _. by rewrite Hempty.
Qed.

Lemma get_context_keeps_unmentioned_edges_witness :
  (ctx ← ConditionalMetagraph.get_context cmg_two (Some (props ["p1"]))
           (Some (props ["p2"]));
   Ok (ConditionalMetagraph.edges ctx))
  = Ok (filter (kept_in_context (props ["p2"])) (ConditionalMetagraph.edges cmg_two)).
Proof.
  assert (returned (ConditionalMetagraph.get_context cmg_two (Some (props ["p1"]))
                      (Some (props ["p2"]))) = true) as Hok by by_eval.
  destruct (ConditionalMetagraph.get_context cmg_two (Some (props ["p1"]))
              (Some (props ["p2"]))) as [ctx|e] eqn:Hctx; [|discriminate Hok].
  cbn [mbind result_bind]. f_equal.
  apply (get_context_keeps_unmentioned_edges cmg_two ctx (props ["p1"]) (props ["p2"]));
    [decide_eval|exact Hctx].
Defined.

(** ** Nodes given in bulk, inputs and outputs of edge lists *)

Lemma fold_append_node (l nodes : list Node.t) :
  (∀ node, is_node_in_list node nodes = true →
     is_node_in_list node (fold_left append_node l nodes) = true) ∧
  (∀ node, node ∈ l → is_node_in_list node (fold_left append_node l nodes) = true) ∧
  (∀ node, node ∈ fold_left append_node l nodes → node ∈ nodes ∨ node ∈ l).
Proof.
  revert nodes. induction l as [|x l IH]; intros nodes; cbn [fold_left].
  { split; [done|]. split; [by intros node []%elem_of_nil|by left]. }
  destruct (IH (append_node nodes x)) as (IH1 & IH2 & IH3).
  split; [|split].
  - intros node Hin. by apply IH1, append_node_keeps.
  - intros node [->|Hin]%elem_of_cons; [|by apply IH2].
    apply IH1, is_node_in_list_append.
  - intros node [Hin|Hin]%IH3; [|right; by right].
    unfold append_node in Hin. destruct (is_node_in_list x nodes); [by left|].
    apply elem_of_app in Hin as [Hin|Hin%list_elem_of_singleton]; [by left|].
    right. subst. left.
Qed.

(** X28: [add_nodes_from] adds the nodes of a non-empty list without
    looking at the generating set: every node of the list is in the node
    list afterwards, also one that [add_node] refuses because it has an
    element outside the generating set. *)
Theorem add_nodes_from_skips_range_check (self : Metagraph.t) (nodes_list : list Node.t) :
  nodes_list ≠ [] →
  ∃ mg, add_nodes_from self (Some nodes_list) = Ok mg ∧
    Metagraph.generating_set mg = Metagraph.generating_set self ∧
    (∀ node, node ∈ nodes_list → is_node_in_list node (Metagraph.nodes mg) = true) ∧
    (∀ node, node ∈ nodes_list →
       ¬ Node.element_set node ⊆ Metagraph.generating_set self →
       add_node self node = Raise (KeyError "range_invalid")).
Proof.
  intros Hne. unfold add_nodes_from.
  rewrite bool_decide_eq_false_2 by by intros ->%nil_length_inv.
  eexists. split; [reflexivity|]. cbn [Metagraph.generating_set Metagraph.nodes].
  split; [done|]. split.
  - apply fold_append_node.
  - intros node _ Hout. unfold add_node. rewrite not_found_iff.
    rewrite bool_decide_eq_false_2 by done. cbn [negb]. by_eval.
Qed.

Lemma add_nodes_from_skips_range_check_witness :
  ∃ mg, add_nodes_from mg_12 (Some [Node.mk (ints [1; 3])]) = Ok mg ∧
    is_node_in_list (Node.mk (ints [1; 3])) (Metagraph.nodes mg) = true ∧
    add_node mg_12 (Node.mk (ints [1; 3])) = Raise (KeyError "range_invalid").
Proof.
  destruct (add_nodes_from_skips_range_check mg_12 [Node.mk (ints [1; 3])])
    as (mg & Hrun & _ & Hin & Hrefused); [done|].
  exists mg. split; [done|]. split.
  - apply Hin. left.
  - apply Hrefused; [left|]. cbn [Node.element_set]. decide_eval.
Defined.

Lemma fold_append_elt_NoDup (l acc : list element) :
  NoDup acc → NoDup (fold_left append_elt l acc).
Proof.
  revert acc. induction l as [|x l IH]; intros acc Hacc; [done|].
  cbn [fold_left]. apply IH. unfold append_elt.
  destruct (bool_decide (x ∈ acc)) eqn:Hx; [done|].
  apply bool_decide_eq_false_1 in Hx.
  apply NoDup_app. split; [done|]. split; [|apply NoDup_singleton].
  by intros y Hy ->%list_elem_of_singleton.
Qed.

Lemma collect_elements (f : Edge.t → gset element) (l : list Edge.t)
    (acc : list element) :
  (NoDup acc →
   NoDup (fold_left (λ acc e, fold_left append_elt (elements (f e)) acc) l acc)) ∧
  ∀ x, x ∈ fold_left (λ acc e, fold_left append_elt (elements (f e)) acc) l acc
       ↔ x ∈ acc ∨ ∃ e, e ∈ l ∧ x ∈ f e.
Proof.
  revert acc. induction l as [|y l IH]; intros acc; cbn [fold_left].
  { split; [done|]. intros x. split; [by left|].
    intros [H|(e & []%elem_of_nil & _)]. done. }
  destruct (IH (fold_left append_elt (elements (f y)) acc)) as [IH1 IH2].
  split; [intros Hacc; by apply IH1, fold_append_elt_NoDup|].
  intros x. rewrite IH2, fold_append_elt, elem_of_elements. split.
  - intros [[H|H]|(e & He & H)].
    + by left.
    + right. exists y. split; [left|done].
    + right. exists e. split; [by right|done].
  - intros [H|(e & [->|He]%elem_of_cons & H)].
    + by left; left.
    + by left; right.
    + right. by exists e.
Qed.

Lemma get_netinputs_flat (l : list Edge.t) :
  l ≠ [] →
  get_netinputs (Nest (Item <$> l))
  = Ok (fold_left (λ acc e, fold_left append_elt (elements (Edge.invertex e)) acc) l []).
Proof.
  intros Hne. destruct l as [|e0 l0]; [done|].
  rewrite fmap_cons. cbn [get_netinputs fold_left].
  generalize (fold_left append_elt (elements (Edge.invertex e0)) []) as acc.
  induction l0 as [|e k IH]; intros acc; [done|].
  rewrite fmap_cons. cbn [fold_left]. apply IH. done.
Qed.

Lemma get_netoutputs_flat (l : list Edge.t) :
  l ≠ [] →
  get_netoutputs (Nest (Item <$> l))
  = Ok (fold_left (λ acc e, fold_left append_elt (elements (Edge.outvertex e)) acc) l []).
Proof.
  intros Hne. destruct l as [|e0 l0]; [done|].
  rewrite fmap_cons. cbn [get_netoutputs fold_left].
  generalize (fold_left append_elt (elements (Edge.outvertex e0)) []) as acc.
  induction l0 as [|e k IH]; intros acc; [done|].
  rewrite fmap_cons. cbn [fold_left]. apply IH. done.
Qed.

(** X29: for a non-empty flat list of edges, [get_netinputs] lists every
    element of the invertices once and [get_netoutputs] every element of
    the outvertices once.  Nothing is taken out: an element that one edge
    puts out and another takes in is in both lists. *)
Theorem get_netinputs_outputs_flat (edge_list : list Edge.t) :
  edge_list ≠ [] →
  ∃ all_inputs all_outputs,
    get_netinputs (Nest (Item <$> edge_list)) = Ok all_inputs ∧
    get_netoutputs (Nest (Item <$> edge_list)) = Ok all_outputs ∧
    NoDup all_inputs ∧ NoDup all_outputs ∧
    (∀ x, x ∈ all_inputs ↔ ∃ e, e ∈ edge_list ∧ x ∈ Edge.invertex e) ∧
    (∀ x, x ∈ all_outputs ↔ ∃ e, e ∈ edge_list ∧ x ∈ Edge.outvertex e).
Proof.
  intros Hne. rewrite get_netinputs_flat, get_netoutputs_flat by done.
  destruct (collect_elements Edge.invertex edge_list []) as [Hnd1 Hin1].
  destruct (collect_elements Edge.outvertex edge_list []) as [Hnd2 Hin2].
  eexists _, _. split; [done|]. split; [done|].
  split; [apply Hnd1; constructor|]. split; [apply Hnd2; constructor|].
  split; intros x; rewrite ?Hin1, ?Hin2, elem_of_nil; tauto.
Qed.

Lemma get_netinputs_outputs_flat_witness :
  ∃ all_inputs all_outputs,
    get_netinputs (Nest (Item <$> [edge_12_23; edge_3_4])) = Ok all_inputs ∧
    get_netoutputs (Nest (Item <$> [edge_12_23; edge_3_4])) = Ok all_outputs ∧
    EInt 3 ∈ all_inputs ∧ EInt 3 ∈ all_outputs.
Proof.
  destruct (get_netinputs_outputs_flat [edge_12_23; edge_3_4])
    as (all_inputs & all_outputs & H1 & H2 & _ & _ & Hin & Hout); [done|].
  exists all_inputs, all_outputs. split; [done|]. split; [done|]. split.
  - apply Hin. exists edge_3_4. split; [right; left|decide_eval].
  - apply Hout. exists edge_12_23. split; [left|decide_eval].
Defined.

(** An empty list at any depth is refused. *)
Example get_netinputs_empty_inside :
  get_netinputs (Nest [Item edge_1_2; Nest []])
  = Raise (MetagraphException "edge_list" "value cannot be null or empty").
Proof. by_eval. Qed.

(** X30: [node_lists_overlap] answers whether some node of the first list
    has the same element set as a node of the second; sharing elements is
    not enough.  The answer does not depend on the order of the two
    lists. *)
Theorem node_lists_overlap_equal_nodes (nodes_list1 nodes_list2 : list Node.t) :
  (node_lists_overlap nodes_list1 nodes_list2 = true ↔
   ∃ node1 node2, node1 ∈ nodes_list1 ∧ node2 ∈ nodes_list2 ∧
                  Node.element_set node1 = Node.element_set node2) ∧
  node_lists_overlap nodes_list1 nodes_list2 = node_lists_overlap nodes_list2 nodes_list1.
Proof.
  assert (∀ l1 l2, node_lists_overlap l1 l2 = true ↔
            ∃ node1 node2, node1 ∈ l1 ∧ node2 ∈ l2 ∧
                           Node.element_set node1 = Node.element_set node2) as Hspec.
  { intros l1 l2. unfold node_lists_overlap, is_node_in_list, are_nodes_equal. split.
    - intros (node1 & H1%list_elem_of_In
                & (node2 & H2%list_elem_of_In & Heq%bool_decide_eq_true_1)%existsb_exists
             )%existsb_exists.
      by exists node1, node2.
    - intros (node1 & node2 & H1 & H2 & Heq).
      apply existsb_exists. exists node1. split; [by apply list_elem_of_In|].
      apply existsb_exists. exists node2. split; [by apply list_elem_of_In|].
      by apply bool_decide_eq_true_2. }
  split; [apply Hspec|].
  apply eq_true_iff_eq. rewrite !Hspec. split;
    intros (node1 & node2 & H1 & H2 & Heq); by exists node2, node1.
Qed.

Lemma node_lists_overlap_equal_nodes_witness :
  node_lists_overlap [Node.mk (ints [1; 2])] [Node.mk (ints [3]); Node.mk (ints [2; 1])]
  = true.
Proof.
  apply (proj1 (node_lists_overlap_equal_nodes [Node.mk (ints [1; 2])]
                  [Node.mk (ints [3]); Node.mk (ints [2; 1])])).
  exists (Node.mk (ints [1; 2])), (Node.mk (ints [2; 1])).
  split; [left|]. split; [right; left|]. cbn [Node.element_set]. decide_eval.
Defined.

(** Two nodes that share an element, but not all, do not count. *)
Example node_lists_overlap_shared_element :
  node_lists_overlap [Node.mk (ints [1; 2])] [Node.mk (ints [2; 3])] = false.
Proof. by_eval. Qed.
